(** * wix-sql-middleware: a shallow embedding of [index.js]

    The service is an Express application that forwards JSON requests to a
    SQL Server database through the [mssql] driver.  The embedding keeps the
    shape of the source:

    - request bodies and driver results are JSON-like values ([value]);
    - the process-wide [let pool] is a field of the [World];
    - every call into the driver (and every [setTimeout] pause) is answered
      by a [Driver], an arbitrary function of the calls made so far, and is
      appended to the [trace] of the world together with its reply;
    - [throw] / [try ... catch] is the [Throw] completion of the monad [M];
    - [console.error] and [console.warn] lines are kept in [console];
      the informational [console.log] lines are not, except that where
      such a line interpolates a value of the request in a template literal
      the conversion of that value, which can throw, is kept.

    An [await] is a sequencing point: one handler is followed from its first
    statement to its response, without interleaving other requests. *)

From Stdlib Require Import List String ZArith Lia Bool Arith DecimalString.
Import ListNotations.
Open Scope string_scope.
Open Scope list_scope.
Local Set Warnings "-register-all".

(** ** JavaScript values *)

(** The built-in prototypes the values of a JSON body inherit from. *)
Inductive proto : Type :=
| ObjectPrototype
| ArrayPrototype
| StringPrototype
| NumberPrototype
| BooleanPrototype.

(** What a property read finds on a prototype: the built-in function
    [p.name] (for [constructor], the constructor itself), or, under
    [__proto__], the prototype object. *)
Inductive builtin : Type :=
| Member (p : proto) (name : string)
| Prototype (p : proto).

(** JSON numbers are kept as integers: the handlers only test numbers for
    truthiness and pass them on.  A [VBuiltin] never comes out of
    [JSON.parse]; it is what reading an inherited property gives. *)
Inductive value : Type :=
| VUndefined
| VNull
| VBool (b : bool)
| VNum (n : Z)
| VStr (s : string)
| VArr (items : list value)
| VObj (props : list (string * value))
| VBuiltin (b : builtin).

(** Own properties of an object, in the order [Object.keys] lists them. *)
Definition object := list (string * value).

Record Error := mkError {
  message : string;
  code : value;
  stack : string
}.

(** What a statement completes with: a value, or a thrown error. *)
Inductive completion (A : Type) : Type :=
| Normal (a : A)
| Throw (e : Error).
Arguments Normal {A} a.
Arguments Throw {A} e.

(** The error the engine raises when a property of [undefined] or [null]
    is read; it has no [code]. *)
Definition TypeError : Error :=
  mkError "Cannot read properties of undefined" VUndefined "TypeError".

(** [!v] is [negb (truthy v)]. *)
Definition truthy (v : value) : bool :=
  match v with
  | VUndefined | VNull => false
  | VBool b => b
  | VNum n => negb (n =? 0)%Z
  | VStr s => negb (s =? "")
  | VArr _ | VObj _ | VBuiltin _ => true
  end.

(** [Array.isArray(v)]; [Array.prototype] is itself an array. *)
Definition isArray (v : value) : bool :=
  match v with
  | VArr _ | VBuiltin (Prototype ArrayPrototype) => true
  | _ => false
  end.

(** [typeof v === 'object']; a built-in function has type ['function']. *)
Definition typeof_object (v : value) : bool :=
  match v with
  | VNull | VArr _ | VObj _ | VBuiltin (Prototype _) => true
  | _ => false
  end.

Fixpoint lookup (k : string) (o : object) : option value :=
  match o with
  | [] => None
  | (k', v) :: rest => if k' =? k then Some v else lookup k rest
  end.

Definition index_key (i : nat) : string :=
  NilEmpty.string_of_uint (Nat.to_uint i).

Definition index_keys (n : nat) : list string := map index_key (seq 0 n).

(** The array index a property key denotes, among the first [n]. *)
Definition index_of_key (k : string) (n : nat) : option nat :=
  find (fun i => index_key i =? k) (seq 0 n).

(** [Object.keys(v)]: throws on [undefined] and [null]; own enumerable
    string keys otherwise (the members of a built-in are not enumerable). *)
Definition keys (v : value) : completion (list string) :=
  match v with
  | VUndefined | VNull => Throw TypeError
  | VObj o => Normal (map fst o)
  | VArr l => Normal (index_keys (List.length l))
  | VStr s => Normal (index_keys (String.length s))
  | VBool _ | VNum _ | VBuiltin _ => Normal []
  end.

(** The string-keyed properties of [Object.prototype]; every value but
    [undefined] and [null] inherits them. *)
Definition object_members : list string :=
  ["constructor"; "__defineGetter__"; "__defineSetter__"; "hasOwnProperty";
   "__lookupGetter__"; "__lookupSetter__"; "isPrototypeOf";
   "propertyIsEnumerable"; "toString"; "valueOf"; "__proto__";
   "toLocaleString"].

(** The string-keyed properties of the other prototypes, as Node.js 20 has
    them ([length] is an own property of every array and string). *)
Definition array_members : list string :=
  ["constructor"; "at"; "concat"; "copyWithin"; "fill"; "find"; "findIndex";
   "findLast"; "findLastIndex"; "lastIndexOf"; "pop"; "push"; "reverse";
   "shift"; "unshift"; "slice"; "sort"; "splice"; "includes"; "indexOf";
   "join"; "keys"; "entries"; "values"; "forEach"; "filter"; "flat";
   "flatMap"; "map"; "every"; "some"; "reduce"; "reduceRight";
   "toLocaleString"; "toString"; "toReversed"; "toSorted"; "toSpliced";
   "with"].

Definition string_members : list string :=
  ["constructor"; "anchor"; "at"; "big"; "blink"; "bold"; "charAt";
   "charCodeAt"; "codePointAt"; "concat"; "endsWith"; "fontcolor";
   "fontsize"; "fixed"; "includes"; "indexOf"; "isWellFormed"; "italics";
   "lastIndexOf"; "link"; "localeCompare"; "match"; "matchAll"; "normalize";
   "padEnd"; "padStart"; "repeat"; "replace"; "replaceAll"; "search"; "slice";
   "small"; "split"; "strike"; "sub"; "substr"; "substring"; "sup";
   "startsWith"; "toString"; "toWellFormed"; "trim"; "trimStart"; "trimLeft";
   "trimEnd"; "trimRight"; "toLocaleLowerCase"; "toLocaleUpperCase";
   "toLowerCase"; "toUpperCase"; "valueOf"].

Definition number_members : list string :=
  ["constructor"; "toExponential"; "toFixed"; "toPrecision"; "toString";
   "valueOf"; "toLocaleString"].

Definition boolean_members : list string := ["constructor"; "toString"; "valueOf"].

Definition members (p : proto) : list string :=
  match p with
  | ObjectPrototype => object_members
  | ArrayPrototype => array_members
  | StringPrototype => string_members
  | NumberPrototype => number_members
  | BooleanPrototype => boolean_members
  end.

Definition has_member (p : proto) (k : string) : bool :=
  existsb (String.eqb k) (members p).

(** What a value whose prototype is [p] reads under a key it does not own:
    the property is looked up on [p], then on [Object.prototype]; the
    accessor [__proto__] answers with [p] itself. *)
Definition inherited (p : proto) (k : string) : value :=
  if k =? "__proto__" then VBuiltin (Prototype p)
  else if has_member p k then VBuiltin (Member p k)
  else if has_member ObjectPrototype k then VBuiltin (Member ObjectPrototype k)
  else VUndefined.

(** [v[k]] (and [v.k]): an own property if the value has one, an inherited
    one otherwise, [undefined] when there is neither.  No handler reads a
    property of a built-in; the members of those are not modelled. *)
Definition get (v : value) (k : string) : completion value :=
  match v with
  | VUndefined | VNull => Throw TypeError
  | VObj o =>
      Normal (match lookup k o with
              | Some x => x
              | None => inherited ObjectPrototype k
              end)
  | VArr l =>
      match index_of_key k (List.length l) with
      | Some i => Normal (nth i l VUndefined)
      | None =>
          Normal (if k =? "length" then VNum (Z.of_nat (List.length l))
                  else inherited ArrayPrototype k)
      end
  | VStr s =>
      match index_of_key k (String.length s) with
      | Some i =>
          Normal (match String.get i s with
                  | Some c => VStr (String c EmptyString)
                  | None => VUndefined
                  end)
      | None =>
          Normal (if k =? "length" then VNum (Z.of_nat (String.length s))
                  else inherited StringPrototype k)
      end
  | VBool _ => Normal (inherited BooleanPrototype k)
  | VNum _ => Normal (inherited NumberPrototype k)
  | VBuiltin _ => Normal VUndefined
  end.

(** *** Conversion to a string *)

(** The error of converting to a string an object that has neither a usable
    [toString] nor a usable [valueOf]; it has no [code]. *)
Definition NotPrimitive : Error :=
  mkError "Cannot convert object to primitive value" VUndefined "TypeError".

(** Whether [String(v)] evaluates.  An object is converted by the
    [toString] it inherits; an own property of that name, which in a JSON
    body is never a function, hides it, and the conversion then throws.  An
    array joins the conversions of its elements, [null] and [undefined]
    counting as empty strings. *)
Fixpoint renders (v : value) : bool :=
  match v with
  | VObj o => negb (existsb (fun kv => fst kv =? "toString") o)
  | VArr items => forallb renders items
  | _ => true
  end.

(** A template literal that interpolates [v], as the [console.log] lines
    have them: the text is not kept, but the conversion of [v] can throw. *)
Definition interpolate (v : value) : completion unit :=
  if renders v then Normal tt else Throw NotPrimitive.

(** *** The order of the keys *)

(** The array index a key denotes: the canonical numeral of an integer
    below [2^32 - 1]. *)
Definition array_index (k : string) : option N :=
  match NilEmpty.uint_of_string k with
  | Some u =>
      let n := N.of_uint u in
      if (NilEmpty.string_of_uint (N.to_uint n) =? k) && (n <? 4294967295)%N
      then Some n else None
  | None => None
  end.

(** Creating a property: a new key comes last, an existing key keeps its
    place and takes the new value. *)
Fixpoint define_property (k : string) (v : value) (o : list (string * value)) :
    list (string * value) :=
  match o with
  | [] => [(k, v)]
  | (k', v') :: rest =>
      if k' =? k then (k, v) :: rest else (k', v') :: define_property k v rest
  end.

(** The properties in the order they were created. *)
Definition created (members : list (string * value)) : list (string * value) :=
  fold_left (fun o kv => define_property (fst kv) (snd kv) o) members [].

Fixpoint insert_index (n : N) (kv : string * value)
    (sorted : list (N * (string * value))) : list (N * (string * value)) :=
  match sorted with
  | [] => [(n, kv)]
  | (m, kv') :: rest =>
      if (n <? m)%N then (n, kv) :: sorted else (m, kv') :: insert_index n kv rest
  end.

(** The properties whose key is an array index, in ascending order. *)
Fixpoint indexed (o : list (string * value)) : list (N * (string * value)) :=
  match o with
  | [] => []
  | kv :: rest =>
      match array_index (fst kv) with
      | Some n => insert_index n kv (indexed rest)
      | None => indexed rest
      end
  end.

Definition named (o : list (string * value)) : list (string * value) :=
  filter (fun kv => match array_index (fst kv) with Some _ => false | None => true end) o.

(** The object [JSON.parse] builds from the members of an object literal,
    given in the order of the text: [Object.keys] lists the array indices
    first, in ascending order, and then the other keys in the order they
    were created. *)
Definition parsed_object (members : list (string * value)) : object :=
  map snd (indexed (created members)) ++ named (created members).

(** A property of the request body, as [const { query, params } = req.body]
    reads it; [req.body] is always an object after [bodyParser.json()], and
    none of the names the handlers read from it ([query], [params],
    [procedure], [table], [data], [queries]) is inherited. *)
Definition field (body : object) (k : string) : value :=
  match lookup k body with Some x => x | None => VUndefined end.

(** ** The driver and the world *)

(** A connection pool handle, as [sql.connect] resolves to. *)
Definition Pool := nat.

(** Where a request runs: [pool.request()] or [new sql.Request(transaction)]
    with [transaction = new sql.Transaction(pool)]. *)
Inductive target : Type :=
| OnPool (p : Pool)
| OnTransaction (p : Pool).

(** The driver's result of a query or procedure call. *)
Record QueryResult := mkResult {
  recordset : value;
  rowsAffected : list Z;
  output : value
}.

(** The length of a character column: a number of characters or [sql.MAX]. *)
Inductive sqllength : Type :=
| MAX
| Length (n : nat).

(** [sql.VarChar(length)] *)
Inductive sqltype : Type := VarChar (length : sqllength).

(** [sql.VarChar(sql.MAX)] is the only column type the service declares. *)
Definition VarCharMax : sqltype := VarChar MAX.

Record Column := mkColumn {
  col_name : string;
  col_type : sqltype;
  col_nullable : bool
}.

(** [new sql.Table(name)] with its [columns] and [rows] collections. *)
Record Table := mkTable {
  tbl_name : value;
  tbl_columns : list Column;
  tbl_rows : list (list value)
}.

Inductive Call : Type :=
| Connect
| Close (p : Pool)
| Input (t : target) (name : string) (v : value)
| Query (t : target) (params : list (string * value)) (text : value)
| Execute (t : target) (params : list (string * value)) (proc : value)
| Bulk (t : target) (tbl : Table)
| Begin (p : Pool)
| Commit (p : Pool)
| Rollback (p : Pool)
| Delay (ms : Z).

Inductive Reply : Type :=
| Done
| Connected (p : Pool)
| Rows (r : QueryResult)
| Loaded (r : value)
| Failed (e : Error).

Definition Event := (Call * Reply)%type.

(** The database and driver library, as seen from the service: each answer
    may depend on everything that happened before.  [drv_table] is the check
    [new sql.Table(name)] makes on the name: the error it throws for a name
    the library does not accept. *)
Record Driver := mkDriver {
  drv_connect : list Event -> Error + Pool;
  drv_close : list Event -> Pool -> option Error;
  drv_input : list Event -> target -> string -> value -> option Error;
  drv_query : list Event -> target -> list (string * value) -> value ->
              Error + QueryResult;
  drv_execute : list Event -> target -> list (string * value) -> value ->
                Error + QueryResult;
  drv_bulk : list Event -> target -> Table -> Error + value;
  drv_begin : list Event -> Pool -> option Error;
  drv_commit : list Event -> Pool -> option Error;
  drv_rollback : list Event -> Pool -> option Error;
  drv_now : list Event -> string;
  drv_table : value -> option Error
}.

(** [process.env.NODE_ENV] and [process.version]. *)
Record Env := mkEnv {
  NODE_ENV : value;
  node_version : string
}.

Inductive Endpoint : Type := EQuery | EProcedure | EBulk | ETransaction.

(** The [console.error] / [console.warn] lines of the source. *)
Inductive Diag : Type :=
| CloseError (msg : string)
| AttemptFailed (attempt : nat) (msg : string)
| ErrorCode (c : value)
| MaxRetries
| HandlerError (ep : Endpoint) (e : Error)
| ReconnectFailed (msg : string)
| RollbackFailed (e : Error).

Record World := mkWorld {
  pool : option Pool;
  trace : list Event;
  console : list Diag
}.

Record Response := mkResponse {
  status : Z;
  json : value
}.

(** ** The monad of handlers *)

Definition M (A : Type) : Type := World -> completion A * World.

Definition ret {A} (a : A) : M A := fun w => (Normal a, w).

Definition throw {A} (e : Error) : M A := fun w => (Throw e, w).

Definition bind {A B} (m : M A) (k : A -> M B) : M B :=
  fun w =>
    match m w with
    | (Normal a, w') => k a w'
    | (Throw e, w') => (Throw e, w')
    end.

Definition try_catch {A} (m : M A) (handler : Error -> M A) : M A :=
  fun w =>
    match m w with
    | (Normal a, w') => (Normal a, w')
    | (Throw e, w') => handler e w'
    end.

(** Lifts the completion of a pure expression. *)
Definition eval {A} (c : completion A) : M A := fun w => (c, w).

Declare Scope js_scope.
Delimit Scope js_scope with js.
Notation "x <- m ;; k" := (bind m (fun x => k))
  (at level 100, m at next level, right associativity) : js_scope.
Notation "m ;; k" := (bind m (fun _ => k))
  (at level 100, right associativity) : js_scope.
Open Scope js_scope.

Definition when (b : bool) (m : M unit) : M unit :=
  if b then m else ret tt.

Definition record (c : Call) (r : Reply) (w : World) : World :=
  mkWorld (pool w) (trace w ++ [(c, r)]) (console w).

(** [!pool] *)
Definition no_pool (p : option Pool) : bool :=
  match p with
  | None => true
  | Some _ => false
  end.

Definition read_pool : M (option Pool) := fun w => (Normal (pool w), w).

Definition write_pool (p : Pool) : M unit :=
  fun w => (Normal tt, mkWorld (Some p) (trace w) (console w)).

Definition console_error (d : Diag) : M unit :=
  fun w => (Normal tt, mkWorld (pool w) (trace w) (console w ++ [d])).

(** A request object: where it runs and the parameters bound so far. *)
Record Request := mkRequest {
  req_target : target;
  req_params : list (string * value)
}.

Section Service.

Variable drv : Driver.
Variable env : Env.

(** *** Driver calls *)

Definition call_unit (c : Call) (answer : list Event -> option Error) : M unit :=
  fun w =>
    match answer (trace w) with
    | None => (Normal tt, record c Done w)
    | Some e => (Throw e, record c (Failed e) w)
    end.

Definition sql_connect : M Pool :=
  fun w =>
    match drv_connect drv (trace w) with
    | inr p => (Normal p, record Connect (Connected p) w)
    | inl e => (Throw e, record Connect (Failed e) w)
    end.

Definition pool_close (p : Pool) : M unit :=
  call_unit (Close p) (fun h => drv_close drv h p).

Definition transaction_begin (p : Pool) : M unit :=
  call_unit (Begin p) (fun h => drv_begin drv h p).

Definition transaction_commit (p : Pool) : M unit :=
  call_unit (Commit p) (fun h => drv_commit drv h p).

Definition transaction_rollback (p : Pool) : M unit :=
  call_unit (Rollback p) (fun h => drv_rollback drv h p).

(** [await new Promise(resolve => setTimeout(resolve, ms))] *)
Definition sleep (ms : Z) : M unit :=
  fun w => (Normal tt, record (Delay ms) Done w).

(** [pool.request()]: reads the global; a missing pool is a [TypeError]. *)
Definition pool_request : M Request :=
  fun w =>
    match pool w with
    | Some p => (Normal (mkRequest (OnPool p) []), w)
    | None => (Throw TypeError, w)
    end.

(** [request.input(key, v)] *)
Definition request_input (r : Request) (key : string) (v : value) : M Request :=
  fun w =>
    match drv_input drv (trace w) (req_target r) key v with
    | None =>
        (Normal (mkRequest (req_target r) (req_params r ++ [(key, v)])),
         record (Input (req_target r) key v) Done w)
    | Some e => (Throw e, record (Input (req_target r) key v) (Failed e) w)
    end.

(** [await request.query(text)] *)
Definition request_query (r : Request) (text : value) : M QueryResult :=
  fun w =>
    match drv_query drv (trace w) (req_target r) (req_params r) text with
    | inr res =>
        (Normal res, record (Query (req_target r) (req_params r) text) (Rows res) w)
    | inl e =>
        (Throw e, record (Query (req_target r) (req_params r) text) (Failed e) w)
    end.

(** [await request.execute(procedure)] *)
Definition request_execute (r : Request) (proc : value) : M QueryResult :=
  fun w =>
    match drv_execute drv (trace w) (req_target r) (req_params r) proc with
    | inr res =>
        (Normal res, record (Execute (req_target r) (req_params r) proc) (Rows res) w)
    | inl e =>
        (Throw e, record (Execute (req_target r) (req_params r) proc) (Failed e) w)
    end.

(** [await request.bulk(table)]; the reply is [result.rowsAffected]. *)
Definition request_bulk (r : Request) (tbl : Table) : M value :=
  fun w =>
    match drv_bulk drv (trace w) (req_target r) tbl with
    | inr res => (Normal res, record (Bulk (req_target r) tbl) (Loaded res) w)
    | inl e => (Throw e, record (Bulk (req_target r) tbl) (Failed e) w)
    end.

(** *** [initializePool] (index.js, lines 58-99) *)

(** Lines 64-71: close the existing pool, warn if closing fails. *)
Definition close_existing : M unit :=
  p <- read_pool ;;
  match p with
  | Some p =>
      try_catch (pool_close p)
        (fun closeErr => console_error (CloseError (message closeErr)))
  | None => ret tt
  end.

(** Lines 61-81, the body of the [try]: one connection attempt. *)
Definition connect_attempt : M (option Pool) :=
  close_existing ;;
  p <- sql_connect ;;
  write_pool p ;;
  request <- pool_request ;;
  testResult <- request_query request (VStr "SELECT @@VERSION AS version") ;;
  row <- eval (get (recordset testResult) "0") ;;
  _ <- eval (get row "version") ;;
  read_pool.

(** The [for] loop of [initializePool], from [attempt] on; [fuel] bounds the
    iterations left.  Falling out of the loop returns [undefined]. *)
Fixpoint attempts (retryCount attempt fuel : nat) : M (option Pool) :=
  match fuel with
  | O => ret None
  | S fuel' =>
      if (attempt <=? retryCount)%nat then
        try_catch connect_attempt
          (fun err =>
             console_error (AttemptFailed attempt (message err)) ;;
             when (truthy (code err)) (console_error (ErrorCode (code err))) ;;
             if (attempt <? retryCount)%nat then
               sleep (2000 * Z.of_nat attempt) ;;
               attempts retryCount (S attempt) fuel'
             else
               console_error MaxRetries ;;
               throw err)
      else ret None
  end.

Definition initializePool (retryCount : nat) : M (option Pool) :=
  attempts retryCount 1 retryCount.

(** The default [retryCount = 5]. *)
Definition defaultRetryCount : nat := 5.

(** "Ensure pool is initialized": the guard every request handler starts
    with (lines 146-149, 205-208, 267-270, 338-341),
    [if (!pool) { await initializePool(); }]. *)
Definition ensure_pool_initialized : M unit :=
  p <- read_pool ;;
  match p with
  | Some _ => ret tt
  | None => initializePool defaultRetryCount ;; ret tt
  end.

(** *** What the handlers share *)

(** Lines 155-160: bind every entry of [params] on the request.  The
    [console.log] of line 157 interpolates the value before it is bound. *)
Fixpoint input_each (params : value) (ks : list string) (r : Request) : M Request :=
  match ks with
  | [] => ret r
  | key :: rest =>
      v <- eval (get params key) ;;
      eval (interpolate v) ;;
      r' <- request_input r key v ;;
      input_each params rest r'
  end.

Definition add_parameters (r : Request) (params : value) : M Request :=
  if truthy params && typeof_object params then
    ks <- eval (keys params) ;;
    input_each params ks r
  else ret r.

(** [err.code === 'ETIMEOUT' || err.code === 'ECONNCLOSED' ||
    err.code === 'ECONNRESET'] *)
Definition connection_code (c : value) : bool :=
  match c with
  | VStr s => (s =? "ETIMEOUT") || (s =? "ECONNCLOSED") || (s =? "ECONNRESET")
  | _ => false
  end.

(** Lines 176-183: one reconnect attempt whose failure is only reported. *)
Definition reconnect_if_needed (err : Error) : M unit :=
  p <- read_pool ;;
  if connection_code (code err) || no_pool p then
    try_catch (initializePool 1 ;; ret tt)
      (fun reconnectErr => console_error (ReconnectFailed (message reconnectErr)))
  else ret tt.

Definition development : bool :=
  match NODE_ENV env with
  | VStr s => s =? "development"
  | _ => false
  end.

(** Lines 185-190: the 500 response of every handler. *)
Definition error_response (err : Error) : Response :=
  mkResponse 500
    (VObj [("success", VBool false);
           ("error", VStr (message err));
           ("errorCode", code err);
           ("stack", if development then VStr (stack err) else VUndefined)]).

(** Lines 172-191 (and 232-251, 301-320): the [catch] block of the query,
    procedure and bulk handlers. *)
Definition request_failed (ep : Endpoint) (err : Error) : M Response :=
  console_error (HandlerError ep err) ;;
  reconnect_if_needed err ;;
  ret (error_response err).

Definition bad_request (msg : string) : Response :=
  mkResponse 400 (VObj [("error", VStr msg)]).

(** [result.rowsAffected[0]] *)
Definition first_entry (counts : list Z) : value :=
  match counts with
  | n :: _ => VNum n
  | [] => VUndefined
  end.

(** *** GET /api/health (lines 107-133) *)

(** The [dbStatus] object. *)
Definition dbStatus (connected : bool) (msg : string) : value :=
  VObj [("connected", VBool connected); ("message", VStr msg)].

(** [initializePool(1).catch(() => {})] is not awaited: the response does not
    depend on it.  Its calls are placed before the response is returned. *)
Definition get_api_health : M Response :=
  status <-
    try_catch
      (p <- read_pool ;;
       match p with
       | None => ret (dbStatus false "Connection pool not initialized")
       | Some _ =>
           request <- pool_request ;;
           request_query request (VStr "SELECT 1 AS result") ;;
           ret (dbStatus true "Connected")
       end)
      (fun err =>
         try_catch (initializePool 1 ;; ret tt) (fun _ => ret tt) ;;
         ret (dbStatus false ("Error: " ++ message err)%string)) ;;
  fun w =>
    (Normal
       (mkResponse 200
          (VObj [("status", VStr "OK");
                 ("message", VStr "Service is running");
                 ("environment", NODE_ENV env);
                 ("node_version", VStr (node_version env));
                 ("database", status);
                 ("timestamp", VStr (drv_now drv (trace w)))])), w).

(** *** POST /api/query (lines 136-192) *)

Definition post_api_query (body : object) : M Response :=
  try_catch
    (let query := field body "query" in
     let params := field body "params" in
     if negb (truthy query) then ret (bad_request "Query is required")
     else
       ensure_pool_initialized ;;
       request <- pool_request ;;
       request <- add_parameters request params ;;
       result <- request_query request query ;;
       ret (mkResponse 200
              (VObj [("success", VBool true);
                     ("data", recordset result);
                     ("rowsAffected", first_entry (rowsAffected result))])))
    (request_failed EQuery).

(** *** POST /api/procedure (lines 195-252) *)

(** The [console.log] of line 222 interpolates the procedure name before the
    call. *)
Definition post_api_procedure (body : object) : M Response :=
  try_catch
    (let procedure := field body "procedure" in
     let params := field body "params" in
     if negb (truthy procedure) then ret (bad_request "Procedure name is required")
     else
       ensure_pool_initialized ;;
       request <- pool_request ;;
       request <- add_parameters request params ;;
       eval (interpolate procedure) ;;
       result <- request_execute request procedure ;;
       ret (mkResponse 200
              (VObj [("success", VBool true);
                     ("data", recordset result);
                     ("outputParameters", output result);
                     ("rowsAffected", first_entry (rowsAffected result))])))
    (request_failed EProcedure).

(** *** POST /api/bulk (lines 255-321) *)

(** [bulkTable.columns.add(name, type, { nullable })] *)
Definition columns_add (t : Table) (name : string) (ty : sqltype)
    (nullable : bool) : Table :=
  mkTable (tbl_name t) (tbl_columns t ++ [mkColumn name ty nullable]) (tbl_rows t).

(** [bulkTable.rows.add(...values)] *)
Definition rows_add (t : Table) (values : list value) : Table :=
  mkTable (tbl_name t) (tbl_columns t) (tbl_rows t ++ [values]).

(** Lines 280-283: [columns.forEach(column => bulkTable.columns.add(...))] *)
Definition add_columns (t : Table) (columns : list string) : Table :=
  fold_left (fun t column => columns_add t column VarCharMax true) columns t.

(** Line 288: [columns.map(col => item[col])] *)
Fixpoint row_values (item : value) (columns : list string) : completion (list value) :=
  match columns with
  | [] => Normal []
  | col :: rest =>
      match get item col with
      | Throw e => Throw e
      | Normal v =>
          match row_values item rest with
          | Throw e => Throw e
          | Normal vs => Normal (v :: vs)
          end
      end
  end.

(** Lines 286-290: [data.forEach(item => bulkTable.rows.add(...rowValues))] *)
Fixpoint add_rows (t : Table) (columns : list string) (data : list value) :
    completion Table :=
  match data with
  | [] => Normal t
  | item :: rest =>
      match row_values item columns with
      | Throw e => Throw e
      | Normal rowValues => add_rows (rows_add t rowValues) columns rest
      end
  end.

(** Line 277: [new sql.Table(name)], which throws for a name the library
    does not accept. *)
Definition new_table (name : value) : completion Table :=
  match drv_table drv name with
  | Some e => Throw e
  | None => Normal (mkTable name [] [])
  end.

(** Lines 272-290: the table handed to the bulk call. *)
Definition build_bulk_table (table data : value) : completion Table :=
  match get data "0" with
  | Throw e => Throw e
  | Normal first =>
      match keys first with
      | Throw e => Throw e
      | Normal columns =>
          match new_table table with
          | Throw e => Throw e
          | Normal bulkTable =>
              add_rows (add_columns bulkTable columns) columns
                (match data with VArr items => items | _ => [] end)
          end
      end
  end.

(** [data.length === 0], once [data] is known to be an array
    ([Array.prototype] is an empty one). *)
Definition empty_array (data : value) : bool :=
  match data with
  | VArr [] | VBuiltin (Prototype ArrayPrototype) => true
  | _ => false
  end.

(** The [console.log] of line 264 interpolates the table name right after
    the validation. *)
Definition post_api_bulk (body : object) : M Response :=
  try_catch
    (let table := field body "table" in
     let data := field body "data" in
     if negb (truthy table) || negb (truthy data) || negb (isArray data)
        || empty_array data
     then ret (bad_request "Valid table name and data array are required")
     else
       eval (interpolate table) ;;
       ensure_pool_initialized ;;
       bulkTable <- eval (build_bulk_table table data) ;;
       request <- pool_request ;;
       affected <- request_bulk request bulkTable ;;
       ret (mkResponse 200
              (VObj [("success", VBool true); ("rowsAffected", affected)])))
    (request_failed EBulk).

(** *** POST /api/transaction (lines 324-419) *)

(** The object pushed on [results] (lines 371-374). *)
Definition statement_result (result : QueryResult) : value :=
  VObj [("data", recordset result);
        ("rowsAffected", first_entry (rowsAffected result))].

(** Lines 353-377: the [for] loop over [queries], from the current index on;
    [results] holds what was pushed so far. *)
Fixpoint run_queries (tx : Pool) (queries : list value) (results : list value) :
    M (list value) :=
  match queries with
  | [] => ret results
  | queryInfo :: rest =>
      query <- eval (get queryInfo "query") ;;
      params <- eval (get queryInfo "params") ;;
      request <- add_parameters (mkRequest (OnTransaction tx) []) params ;;
      result <- request_query request query ;;
      run_queries tx rest (results ++ [statement_result result])
  end.

(** Lines 388-418: the [catch] block; [transaction] is the variable declared
    before the [try], still [undefined] when the failure came first. *)
Definition transaction_failed (transaction : option Pool) (err : Error) : M Response :=
  console_error (HandlerError ETransaction err) ;;
  match transaction with
  | Some tx =>
      try_catch (transaction_rollback tx)
        (fun rollbackErr => console_error (RollbackFailed rollbackErr))
  | None => ret tt
  end ;;
  reconnect_if_needed err ;;
  ret (error_response err).

(** Lines 329-344: up to [transaction = new sql.Transaction(pool)].  Returns
    the early 400 response, or the pool the transaction is opened on.  (After
    the guard the pool is set; the [None] branch is never taken.) *)
Definition transaction_setup (body : object) : M (Response + Pool) :=
  let queries := field body "queries" in
  if negb (truthy queries) || negb (isArray queries) || empty_array queries
  then ret (inl (bad_request "Valid queries array is required"))
  else
    ensure_pool_initialized ;;
    p <- read_pool ;;
    match p with
    | Some p => ret (inr p)
    | None => throw TypeError
    end.

(** Lines 346-387: from [transaction.begin()] to the success response. *)
Definition transaction_body (tx : Pool) (queries : list value) : M Response :=
  transaction_begin tx ;;
  results <- run_queries tx queries [] ;;
  transaction_commit tx ;;
  ret (mkResponse 200 (VObj [("success", VBool true); ("results", VArr results)])).

Definition post_api_transaction (body : object) : M Response :=
  started <- try_catch (transaction_setup body)
               (fun err => r <- transaction_failed None err ;; ret (inl r)) ;;
  match started with
  | inl response => ret response
  | inr tx =>
      try_catch
        (transaction_body tx
           (match field body "queries" with VArr qs => qs | _ => [] end))
        (transaction_failed (Some tx))
  end.

End Service.

(** ** Reading a trace *)

Definition is_connect (ev : Event) : bool :=
  match fst ev with Connect => true | _ => false end.

(** How many times [sql.connect] was called. *)
Definition connects (evs : list Event) : nat :=
  List.length (filter is_connect evs).

(** The pauses taken, in order. *)
Fixpoint delays (evs : list Event) : list Z :=
  match evs with
  | [] => []
  | (Delay ms, _) :: rest => ms :: delays rest
  | _ :: rest => delays rest
  end.

(** The calls of successive connection attempts, numbered from [attempt],
    with the pause that follows each attempt but the last. *)
Fixpoint paused (attempt : nat) (blocks : list (list Event)) : list Event :=
  match blocks with
  | [] => []
  | block :: rest =>
      match rest with
      | [] => block
      | _ => block ++ (Delay (2000 * Z.of_nat attempt), Done) :: paused (S attempt) rest
      end
  end.

(** The statements run inside a transaction, in order, with their replies. *)
Fixpoint transaction_queries (evs : list Event) : list (value * Reply) :=
  match evs with
  | [] => []
  | (Query (OnTransaction _) _ text, r) :: rest =>
      (text, r) :: transaction_queries rest
  | _ :: rest => transaction_queries rest
  end.

(** The calls one [initializePool] attempt can make: closing the old pool,
    connecting, and the validation query on the pool. *)
Definition reconnect_event (ev : Event) : Prop :=
  match fst ev with
  | Close _ | Connect | Delay _ => True
  | Query (OnPool _) [] (VStr "SELECT @@VERSION AS version") => True
  | _ => False
  end.

(** The calls made while a statement of a transaction is prepared and run. *)
Definition statement_event (tx : Pool) (ev : Event) : Prop :=
  match fst ev with
  | Input (OnTransaction p) _ _ => p = tx
  | Query (OnTransaction p) _ _ => p = tx
  | _ => False
  end.

(** The calls of the [try] block of a transaction, past the pool guard. *)
Definition body_event (tx : Pool) (ev : Event) : Prop :=
  match fst ev with
  | Begin p | Commit p => p = tx
  | Input (OnTransaction p) _ _ => p = tx
  | Query (OnTransaction p) _ _ => p = tx
  | _ => False
  end.

Definition input_event (t : target) (ev : Event) : Prop :=
  match ev with
  | (Input t' _ _, _) => t' = t
  | _ => False
  end.

(** The [query] property of a transaction entry, as line 355 reads it. *)
Definition query_of (queryInfo : value) : value :=
  match get queryInfo "query" with
  | Normal q => q
  | Throw _ => VUndefined
  end.

(** The [results] property of a response body, if it has one. *)
Definition results_of (r : Response) : option value :=
  match json r with
  | VObj o => lookup "results" o
  | _ => None
  end.

(** [item[col]] for a row that is an object: its own property, or what it
    inherits from [Object.prototype]. *)
Definition cell (item : object) (col : string) : value :=
  match lookup col item with
  | Some x => x
  | None =>
      if col =? "__proto__" then VBuiltin (Prototype ObjectPrototype)
      else if existsb (String.eqb col) object_members
      then VBuiltin (Member ObjectPrototype col)
      else VUndefined
  end.

Definition is_object (v : value) : Prop :=
  match v with VObj _ => True | _ => False end.

(** Two rows agree on the given columns. *)
Definition agree_on (columns : list string) (r1 r2 : value) : Prop :=
  exists o1 o2, r1 = VObj o1 /\ r2 = VObj o2 /\
    forall c, In c columns -> cell o1 c = cell o2 c.

(** ** Invariants of a computation *)

(** [m] only appends to the list [proj] reads off the world, and what it
    appends satisfies [P]. *)
Definition grows {A X} (proj : World -> list X) (P : X -> Prop) (m : M A) : Prop :=
  forall w, exists xs, proj (snd (m w)) = proj w ++ xs /\ Forall P xs.

(** Every call [m] makes satisfies [P]; the trace only grows. *)
Definition emits {A} (P : Event -> Prop) (m : M A) : Prop := grows trace P m.

(** [m] only adds lines to the console. *)
Definition logs {A} (m : M A) : Prop := grows console (fun _ => True) m.

(** [m] never unsets the global [pool]. *)
Definition pool_survives {A} (m : M A) : Prop :=
  forall w, pool w <> None -> pool (snd (m w)) <> None.

(** ** Sample databases *)

Module Sample.

Definition timeout : Error := mkError "Connection timed out" (VStr "ETIMEOUT") "at connect".

Definition syntax : Error := mkError "Incorrect syntax near SELEC" (VStr "EREQUEST") "at query".

Definition lock : Error := mkError "Cannot roll back" (VStr "ENOTBEGUN") "at rollback".

Definition version_row : QueryResult :=
  mkResult (VArr [VObj [("version", VStr "Microsoft SQL Server 2019")]]) [1%Z] VUndefined.

Definition batch : QueryResult :=
  mkResult (VArr [VObj [("x", VNum 1)]]) [1%Z; 4%Z; 9%Z] VUndefined.

Definition is_text (v : value) (s : string) : bool :=
  match v with VStr t => t =? s | _ => false end.

Definition invalid_table_name : Error :=
  mkError "Invalid table name." VUndefined "at parseName".

(** A library that takes a table name for valid when it is a string other
    than ["a]b"]. *)
Definition table_name_check (name : value) : option Error :=
  match name with
  | VStr s => if s =? "a]b" then Some invalid_table_name else None
  | _ => Some invalid_table_name
  end.

(** A database that answers every statement, except that ["WAITFOR"] times
    out and ["SELEC"] is a syntax error; [down] makes [sql.connect] fail and
    [stuck] makes every rollback fail. *)
Definition db (down stuck : bool) : Driver :=
  mkDriver
    (fun _ => if down then inl timeout else inr 7)
    (fun _ _ => None)
    (fun _ _ _ _ => None)
    (fun _ _ _ text =>
       if is_text text "WAITFOR" then inl timeout
       else if is_text text "SELEC" then inl syntax
       else if is_text text "SELECT @@VERSION AS version" then inr version_row
       else inr batch)
    (fun _ _ _ _ => inr batch)
    (fun _ _ _ => inr (VNum 2))
    (fun _ _ => None)
    (fun _ _ => None)
    (fun _ _ => if stuck then Some lock else None)
    (fun _ => "2024-01-01T00:00:00.000Z")
    table_name_check.

Definition production : Env := mkEnv (VStr "production") "v18.0.0".

Definition cold : World := mkWorld None [] [].

Definition warm : World := mkWorld (Some 3) [] [].

Definition two_rows : value :=
  VArr [VObj [("a", VNum 1); ("b", VNum 2)]; VObj [("a", VNum 3)]].

Definition three_statements : list value :=
  [VObj [("query", VStr "INSERT INTO t VALUES (1)")];
   VObj [("query", VStr "SELEC")];
   VObj [("query", VStr "INSERT INTO t VALUES (3)")]].

Definition two_statements : list value :=
  [VObj [("query", VStr "INSERT INTO t VALUES (1)")];
   VObj [("query", VStr "INSERT INTO t VALUES (2)"); ("params", VObj [("id", VNum 2)])]].

End Sample.

(** ** The diagnostics endpoint *)

(** [process.env.DB_SERVER], [DB_NAME], [DB_USER] and [DB_PASSWORD]. *)
Record DbEnv := mkDbEnv {
  DB_SERVER : value;
  DB_NAME : value;
  DB_USER : value;
  DB_PASSWORD : value
}.

Definition newline : string := String (Ascii.ascii_of_nat 10) EmptyString.

(** The template literal of lines 447-452, line breaks and blanks included. *)
Definition tables_query : string :=
  (newline ++ "          SELECT TABLE_NAME " ++
   newline ++ "          FROM INFORMATION_SCHEMA.TABLES " ++
   newline ++ "          WHERE TABLE_TYPE = 'BASE TABLE'" ++
   newline ++ "          ORDER BY TABLE_NAME" ++
   newline ++ "        ")%string.

(** The error of calling something that is not a function. *)
Definition NotAFunction : Error :=
  mkError "tablesResult.recordset.map is not a function" VUndefined "TypeError".

(** [rows.map(r => r.TABLE_NAME)] on the elements of an array. *)
Fixpoint table_names (rows : list value) : completion (list value) :=
  match rows with
  | [] => Normal []
  | r :: rest =>
      match get r "TABLE_NAME" with
      | Throw e => Throw e
      | Normal name =>
          match table_names rest with
          | Throw e => Throw e
          | Normal names => Normal (name :: names)
          end
      end
  end.

(** Line 454: [tablesResult.recordset.map(r => r.TABLE_NAME)]; only an array
    has a [map] to call. *)
Definition recordset_table_names (rs : value) : completion value :=
  match rs with
  | VArr rows =>
      match table_names rows with
      | Throw e => Throw e
      | Normal names => Normal (VArr names)
      end
  | VUndefined | VNull => Throw TypeError
  | _ => Throw NotAFunction
  end.

(** Lines 427-432: the password is never copied, only masked. *)
Definition db_config (cfg : DbEnv) : value :=
  VObj [("server", DB_SERVER cfg);
        ("database", DB_NAME cfg);
        ("user", DB_USER cfg);
        ("password", if truthy (DB_PASSWORD cfg) then VStr "********" else VUndefined)].

Section Diagnostics.

Variable drv : Driver.
Variable env : Env.
Variable cfg : DbEnv.

(** Lines 424-435: the object the handler starts from. *)
Definition diagnostics_base (w : World) : list (string * value) :=
  [("environment", NODE_ENV env);
   ("node_version", VStr (node_version env));
   ("db_config", db_config cfg);
   ("pool_initialized", VBool (negb (no_pool (pool w))));
   ("timestamp", VStr (drv_now drv (trace w)))].

(** Lines 439-460: the two queries.  [connection_test] is first set to the
    success object and is overwritten by the [catch]; [tables] is only set
    when nothing failed. *)
Definition connection_test : M (list (string * value)) :=
  try_catch
    (request <- pool_request ;;
     testResult <- request_query drv request (VStr "SELECT @@VERSION AS version") ;;
     row <- eval (get (recordset testResult) "0") ;;
     version <- eval (get row "version") ;;
     request <- pool_request ;;
     tablesResult <- request_query drv request (VStr tables_query) ;;
     names <- eval (recordset_table_names (recordset tablesResult)) ;;
     ret [("connection_test",
           VObj [("success", VBool true); ("sql_version", version)]);
          ("tables", names)])
    (fun testErr =>
       ret [("connection_test",
             VObj [("success", VBool false); ("error", VStr (message testErr))])]).

(** GET /api/diagnostics (lines 422-468).  The [console.error] of the outer
    [catch] (line 465) is not recorded. *)
Definition get_api_diagnostics : M Response :=
  try_catch
    (fun w =>
       (p <- read_pool ;;
        match p with
        | Some _ =>
            tested <- connection_test ;;
            ret (mkResponse 200 (VObj (diagnostics_base w ++ tested)))
        | None => ret (mkResponse 200 (VObj (diagnostics_base w)))
        end) w)
    (fun err => ret (mkResponse 500 (VObj [("error", VStr (message err))]))).

End Diagnostics.

(** ** More ways to read a run *)

(** The [stack] property of a response body, if it has one. *)
Definition stack_of (r : Response) : option value :=
  match json r with
  | VObj o => lookup "stack" o
  | _ => None
  end.

(** A property of a response body. *)
Definition body_field (r : Response) (k : string) : option value :=
  match json r with
  | VObj o => lookup k o
  | _ => None
  end.

Definition is_rollback (ev : Event) : bool :=
  match fst ev with Rollback _ => true | _ => false end.

Definition is_commit_done (ev : Event) : bool :=
  match ev with (Commit _, Done) => true | _ => false end.

Definition is_begin (ev : Event) : bool :=
  match fst ev with Begin _ => true | _ => false end.

Definition is_bulk (ev : Event) : bool :=
  match fst ev with Bulk _ _ => true | _ => false end.

(** How many rollbacks, successful commits, begins and bulk writes a run
    made. *)
Definition rollbacks (evs : list Event) : nat := List.length (filter is_rollback evs).

Definition commits_done (evs : list Event) : nat :=
  List.length (filter is_commit_done evs).

Definition begins (evs : list Event) : nat := List.length (filter is_begin evs).

Definition bulk_writes (evs : list Event) : nat := List.length (filter is_bulk evs).

(** A query sent on a pool, not inside a transaction. *)
Definition pool_query_event (p : Pool) (ev : Event) : Prop :=
  match fst ev with
  | Query (OnPool p') [] _ => p' = p
  | _ => False
  end.

(** A column as the bulk handler declares it. *)
Definition text_column (c : Column) : Prop :=
  col_type c = VarCharMax /\ col_nullable c = true.

(** ** More sample databases *)

Module Scenario.

Definition refused : Error := mkError "Login failed" (VStr "ELOGIN") "at connect".

Definition injection : Error :=
  mkError "SQL injection warning for param 'a b'" (VStr "EINJECT") "at input".

Definition no_rows : QueryResult := mkResult (VArr []) [0%Z] VUndefined.

Definition tables : QueryResult :=
  mkResult (VArr [VObj [("TABLE_NAME", VStr "clients")];
                  VObj [("TABLE_NAME", VStr "visits")]]) [2%Z] VUndefined.

Definition has_blank (s : string) : bool :=
  match index 0 " " s with Some _ => true | None => false end.

(** A database that accepts connections; its validation query is rejected
    ([probe] = 0), answers with no row ([probe] = 1) or succeeds; a parameter
    name with a blank is refused; [begin], [commit] and [close] fail on
    demand. *)
Definition db (probe : nat) (no_begin no_commit no_close : bool) : Driver :=
  mkDriver
    (fun _ => inr 7)
    (fun _ _ => if no_close then Some refused else None)
    (fun _ _ name _ => if has_blank name then Some injection else None)
    (fun _ _ _ text =>
       if Sample.is_text text "SELECT @@VERSION AS version" then
         match probe with
         | 0 => inl Sample.timeout
         | 1 => inr no_rows
         | _ => inr Sample.version_row
         end
       else if Sample.is_text text tables_query then inr tables
       else if Sample.is_text text "SELEC" then inl Sample.syntax
       else inr Sample.batch)
    (fun _ _ _ _ => inr Sample.batch)
    (fun _ _ _ => inl Sample.timeout)
    (fun _ _ => if no_begin then Some Sample.timeout else None)
    (fun _ _ => if no_commit then Some Sample.syntax else None)
    (fun _ _ => None)
    (fun _ => "2024-01-01T00:00:00.000Z")
    Sample.table_name_check.

(** A database that refuses the first [failures] connections and accepts
    the following ones. *)
Definition recovering (failures : nat) : Driver :=
  mkDriver
    (fun h => if (connects h <? failures)%nat then inl refused else inr 7)
    (fun _ _ => None)
    (fun _ _ _ _ => None)
    (fun _ _ _ _ => inr Sample.version_row)
    (fun _ _ _ _ => inr Sample.batch)
    (fun _ _ _ => inr (VNum 1))
    (fun _ _ => None)
    (fun _ _ => None)
    (fun _ _ => None)
    (fun _ => "2024-01-01T00:00:00.000Z")
    Sample.table_name_check.

Definition secrets : DbEnv :=
  mkDbEnv (VStr "db.example.net") (VStr "salon") (VStr "admin") (VStr "hunter2").

End Scenario.

(** * Properties *)

(** ** The monad *)

Lemma bind_normal {A B} (m : M A) (k : A -> M B) w a w1 :
  m w = (Normal a, w1) -> bind m k w = k a w1.
Proof. intros H. unfold bind. rewrite H. reflexivity. Qed.

Lemma bind_throw {A B} (m : M A) (k : A -> M B) w e w1 :
  m w = (Throw e, w1) -> bind m k w = (Throw e, w1).
Proof. intros H. unfold bind. rewrite H. reflexivity. Qed.

Lemma bind_inv {A B} (m : M A) (k : A -> M B) w out w' :
  bind m k w = (out, w') ->
  (exists a w1, m w = (Normal a, w1) /\ k a w1 = (out, w')) \/
  (exists e, m w = (Throw e, w') /\ out = Throw e).
Proof.
  unfold bind. destruct (m w) as [[a | e] w1]; intros H.
  - left. exists a, w1. split; [reflexivity | exact H].
  - right. exists e. inversion H. subst. split; reflexivity.
Qed.

Lemma try_catch_normal {A} (m : M A) h w a w1 :
  m w = (Normal a, w1) -> try_catch m h w = (Normal a, w1).
Proof. intros H. unfold try_catch. rewrite H. reflexivity. Qed.

Lemma try_catch_throw {A} (m : M A) h w e w1 :
  m w = (Throw e, w1) -> try_catch m h w = h e w1.
Proof. intros H. unfold try_catch. rewrite H. reflexivity. Qed.

Lemma try_catch_inv {A} (m : M A) h w out w' :
  try_catch m h w = (out, w') ->
  (exists a, m w = (Normal a, w') /\ out = Normal a) \/
  (exists e w1, m w = (Throw e, w1) /\ h e w1 = (out, w')).
Proof.
  unfold try_catch. destruct (m w) as [[a | e] w1]; intros H.
  - left. exists a. inversion H. subst. split; reflexivity.
  - right. exists e, w1. split; [reflexivity | exact H].
Qed.

(** ** Trace invariants *)

Lemma connects_app evs1 evs2 :
  connects (evs1 ++ evs2) = connects evs1 + connects evs2.
Proof. unfold connects. rewrite filter_app, length_app. reflexivity. Qed.

Lemma delays_app evs1 evs2 : delays (evs1 ++ evs2) = delays evs1 ++ delays evs2.
Proof.
  induction evs1 as [| [c r] evs1 IH]; simpl; [reflexivity |].
  destruct c; simpl; rewrite IH; reflexivity.
Qed.

Lemma transaction_queries_app evs1 evs2 :
  transaction_queries (evs1 ++ evs2) =
  transaction_queries evs1 ++ transaction_queries evs2.
Proof.
  induction evs1 as [| [c r] evs1 IH]; simpl; [reflexivity |].
  destruct c as [| | | [p | p] ps text | | | | | |]; simpl; rewrite IH; reflexivity.
Qed.

Section Grows.

Context {X : Type}.
Variable proj : World -> list X.
Variable P : X -> Prop.

Lemma grows_same {A} (m : M A) :
  (forall w, proj (snd (m w)) = proj w) -> grows proj P m.
Proof.
  intros H w. exists []. rewrite H, app_nil_r. split; [reflexivity | constructor].
Qed.

Lemma grows_bind {A B} (m : M A) (k : A -> M B) :
  grows proj P m -> (forall a, grows proj P (k a)) -> grows proj P (bind m k).
Proof.
  intros Hm Hk w. unfold bind.
  destruct (Hm w) as [xs [Ht Hf]].
  destruct (m w) as [[a | e] w1]; simpl in *.
  - destruct (Hk a w1) as [xs' [Ht' Hf']].
    exists (xs ++ xs'). rewrite Ht', Ht, app_assoc.
    split; [reflexivity | apply Forall_app; split; assumption].
  - exists xs. split; assumption.
Qed.

Lemma grows_try_catch {A} (m : M A) h :
  grows proj P m -> (forall e, grows proj P (h e)) -> grows proj P (try_catch m h).
Proof.
  intros Hm Hh w. unfold try_catch.
  destruct (Hm w) as [xs [Ht Hf]].
  destruct (m w) as [[a | e] w1]; simpl in *.
  - exists xs. split; assumption.
  - destruct (Hh e w1) as [xs' [Ht' Hf']].
    exists (xs ++ xs'). rewrite Ht', Ht, app_assoc.
    split; [reflexivity | apply Forall_app; split; assumption].
Qed.

End Grows.

Section Invariants.

Variable drv : Driver.
Variable env : Env.

Section Emits.

Variable P : Event -> Prop.

Lemma emits_nothing {A} (m : M A) :
  (forall w, trace (snd (m w)) = trace w) -> emits P m.
Proof. apply grows_same. Qed.

Lemma emits_ret {A} (a : A) : emits P (ret a).
Proof. apply emits_nothing. reflexivity. Qed.

Lemma emits_throw {A} e : emits P (@throw A e).
Proof. apply emits_nothing. reflexivity. Qed.

Lemma emits_eval {A} (c : completion A) : emits P (eval c).
Proof. apply emits_nothing. reflexivity. Qed.

Lemma emits_read_pool : emits P read_pool.
Proof. apply emits_nothing. reflexivity. Qed.

Lemma emits_write_pool p : emits P (write_pool p).
Proof. apply emits_nothing. reflexivity. Qed.

Lemma emits_console_error d : emits P (console_error d).
Proof. apply emits_nothing. reflexivity. Qed.

Lemma emits_bind {A B} (m : M A) (k : A -> M B) :
  emits P m -> (forall a, emits P (k a)) -> emits P (bind m k).
Proof. apply grows_bind. Qed.

Lemma emits_try_catch {A} (m : M A) h :
  emits P m -> (forall e, emits P (h e)) -> emits P (try_catch m h).
Proof. apply grows_try_catch. Qed.

Lemma emits_when b m : emits P m -> emits P (when b m).
Proof. intros H. destruct b; simpl; [exact H | apply emits_ret]. Qed.

Lemma emits_one {A} (m : M A) (c : Call) :
  (forall r, P (c, r)) ->
  (forall w, exists r, trace (snd (m w)) = trace w ++ [(c, r)]) ->
  emits P m.
Proof.
  intros HP H w. destruct (H w) as [r Hr].
  exists [(c, r)]. split; [exact Hr | constructor; [apply HP | constructor]].
Qed.

Lemma emits_call_unit c answer :
  (forall r, P (c, r)) -> emits P (call_unit c answer).
Proof.
  intros HP. apply emits_one with (c := c); [exact HP |].
  intros w. unfold call_unit. destruct (answer (trace w)); eexists; reflexivity.
Qed.

Lemma emits_sql_connect : (forall r, P (Connect, r)) -> emits P (sql_connect drv).
Proof.
  intros HP. apply emits_one with (c := Connect); [exact HP |].
  intros w. unfold sql_connect. destruct (drv_connect drv (trace w)); eexists; reflexivity.
Qed.

Lemma emits_sleep ms : (forall r, P (Delay ms, r)) -> emits P (sleep ms).
Proof.
  intros HP. apply emits_one with (c := Delay ms); [exact HP |].
  intros w. eexists; reflexivity.
Qed.

Lemma emits_pool_request : emits P pool_request.
Proof.
  apply emits_nothing. intros w. unfold pool_request. destruct (pool w); reflexivity.
Qed.

Lemma emits_request_input r key v :
  (forall rep, P (Input (req_target r) key v, rep)) ->
  emits P (request_input drv r key v).
Proof.
  intros HP. apply emits_one with (c := Input (req_target r) key v); [exact HP |].
  intros w. unfold request_input.
  destruct (drv_input drv (trace w) (req_target r) key v); eexists; reflexivity.
Qed.

Lemma emits_request_query r text :
  (forall rep, P (Query (req_target r) (req_params r) text, rep)) ->
  emits P (request_query drv r text).
Proof.
  intros HP.
  apply emits_one with (c := Query (req_target r) (req_params r) text); [exact HP |].
  intros w. unfold request_query.
  destruct (drv_query drv (trace w) (req_target r) (req_params r) text);
    eexists; reflexivity.
Qed.

End Emits.

Lemma logs_quiet {A} (m : M A) :
  (forall w, console (snd (m w)) = console w) -> logs m.
Proof. apply grows_same. Qed.

Lemma logs_bind {A B} (m : M A) (k : A -> M B) :
  logs m -> (forall a, logs (k a)) -> logs (bind m k).
Proof. apply grows_bind. Qed.

Lemma logs_try_catch {A} (m : M A) h :
  logs m -> (forall e, logs (h e)) -> logs (try_catch m h).
Proof. apply grows_try_catch. Qed.

Lemma logs_console_error d : logs (console_error d).
Proof.
  intros w. exists [d]. split; [reflexivity | constructor; [exact I | constructor]].
Qed.

Lemma emits_weaken {A} (P Q : Event -> Prop) (m : M A) :
  (forall ev, P ev -> Q ev) -> emits P m -> emits Q m.
Proof.
  intros HPQ H w. destruct (H w) as [evs [Ht Hf]].
  exists evs. split; [exact Ht |].
  eapply Forall_impl; [exact HPQ | exact Hf].
Qed.

End Invariants.

(** ** Stepping through a handler *)

Ltac unfold_m :=
  unfold bind, try_catch, ret, throw, eval, when, read_pool, write_pool,
    console_error, sql_connect, pool_close, transaction_begin,
    transaction_commit, transaction_rollback, call_unit, sleep, pool_request,
    request_input, request_query, request_execute, request_bulk, record in *.

(** Case analysis on the next thing the code branches on. *)
Ltac split_match :=
  match goal with
  | |- context [match ?x with _ => _ end] =>
      lazymatch x with
      | context [match _ with _ => _ end] => fail
      | _ => destruct x eqn:?; simpl
      end
  end.

(** Splits a conjunction into its parts. *)
Ltac splits :=
  repeat match goal with
         | |- _ /\ _ => split
         end.

(** ** [initializePool] *)

Section InitializePool.

Variable drv : Driver.

Lemma connect_attempt_calls w :
  exists evs, trace (snd (connect_attempt drv w)) = trace w ++ evs /\
    connects evs = 1 /\ delays evs = [].
Proof.
  unfold connect_attempt, close_existing. unfold_m. simpl.
  repeat split_match; repeat rewrite <- app_assoc; simpl; eexists;
    (split; [reflexivity | split; reflexivity]).
Qed.

Lemma connect_attempt_normal w r w' :
  connect_attempt drv w = (Normal r, w') ->
  exists p, r = Some p /\ pool w' = Some p.
Proof.
  unfold connect_attempt, close_existing. unfold_m. simpl.
  repeat split_match; intros H; inversion H; subst; simpl; eexists;
    split; reflexivity.
Qed.

Lemma connect_attempt_pool_survives : pool_survives (connect_attempt drv).
Proof.
  intros w Hw. unfold connect_attempt, close_existing. unfold_m. simpl.
  repeat split_match; simpl; congruence.
Qed.

Lemma close_existing_emits : emits reconnect_event (close_existing drv).
Proof.
  unfold close_existing. apply emits_bind; [apply emits_read_pool |].
  intros [p |]; [| apply emits_ret].
  apply emits_try_catch.
  - apply emits_call_unit. intros r. exact I.
  - intros e. apply emits_console_error.
Qed.

Lemma connect_attempt_emits : emits reconnect_event (connect_attempt drv).
Proof.
  intros w. unfold connect_attempt, close_existing. unfold_m. simpl.
  repeat split_match; repeat rewrite <- app_assoc; simpl; eexists;
    (split; [reflexivity | repeat constructor]).
Qed.

Lemma attempts_emits retryCount fuel :
  forall attempt, emits reconnect_event (attempts drv retryCount attempt fuel).
Proof.
  induction fuel as [| fuel IH]; intros attempt; simpl.
  - apply emits_ret.
  - destruct (attempt <=? retryCount)%nat; [| apply emits_ret].
    apply emits_try_catch; [apply connect_attempt_emits |]. intros e.
    apply emits_bind; [apply emits_console_error |]. intros _.
    apply emits_bind; [apply emits_when, emits_console_error |]. intros _.
    destruct (attempt <? retryCount)%nat.
    + apply emits_bind; [apply emits_sleep; intros r; exact I |]. intros _.
      apply IH.
    + apply emits_bind; [apply emits_console_error | intros _; apply emits_throw].
Qed.

Lemma initializePool_emits n : emits reconnect_event (initializePool drv n).
Proof. apply attempts_emits. Qed.

Lemma attempts_pool_survives retryCount fuel :
  forall attempt, pool_survives (attempts drv retryCount attempt fuel).
Proof.
  induction fuel as [| fuel IH]; intros attempt w Hw; simpl.
  - exact Hw.
  - destruct (attempt <=? retryCount)%nat; [| exact Hw].
    unfold try_catch.
    pose proof (connect_attempt_pool_survives w Hw) as H1.
    destruct (connect_attempt drv w) as [[r | e] w1]; simpl in *; [exact H1 |].
    unfold_m. simpl.
    destruct (truthy (code e)); destruct (attempt <? retryCount)%nat; simpl;
      try exact H1; apply IH; exact H1.
Qed.

(** A returning [initializePool] leaves the pool it returns in [pool]. *)
Lemma attempts_normal retryCount fuel :
  forall attempt w r w',
    attempts drv retryCount attempt fuel w = (Normal r, w') ->
    attempt + fuel = retryCount + 1 -> 1 <= fuel ->
    exists p, r = Some p /\ pool w' = Some p.
Proof.
  induction fuel as [| fuel IH]; intros attempt w r w' H Hsum Hpos; [lia |].
  simpl in H.
  replace (attempt <=? retryCount)%nat with true in H
    by (symmetry; apply Nat.leb_le; lia).
  apply try_catch_inv in H. destruct H as [[a [H Ha]] | [e [w1 [H1 H2]]]].
  - inversion Ha; subst. eapply connect_attempt_normal; exact H.
  - unfold_m. simpl in H2.
    destruct (attempt <? retryCount)%nat eqn:Hlt.
    + apply Nat.ltb_lt in Hlt.
      destruct (truthy (code e)); simpl in H2;
        (eapply IH; [exact H2 | lia | lia]).
    + destruct (truthy (code e)); simpl in H2; discriminate.
Qed.

(** A throwing [initializePool] has used every attempt. *)
Lemma attempts_throw retryCount fuel :
  forall attempt w err w',
    attempts drv retryCount attempt fuel w = (Throw err, w') ->
    attempt + fuel = retryCount + 1 ->
    exists evs,
      trace w' = trace w ++ evs /\
      connects evs = fuel /\
      delays evs = map (fun k => (2000 * Z.of_nat k)%Z) (seq attempt (fuel - 1)) /\
      exists before after,
        connect_attempt drv before = (Throw err, after) /\
        trace after = trace w'.
Proof.
  induction fuel as [| fuel IH]; intros attempt w err w' H Hsum;
    [simpl in H; discriminate |].
  simpl in H.
  replace (attempt <=? retryCount)%nat with true in H
    by (symmetry; apply Nat.leb_le; lia).
  apply try_catch_inv in H. destruct H as [[a [H Ha]] | [e [w1 [H1 H2]]]];
    [discriminate |].
  destruct (connect_attempt_calls w) as [evs1 [Ht1 [Hc1 Hd1]]].
  rewrite H1 in Ht1. simpl in Ht1.
  destruct (attempt <? retryCount)%nat eqn:Hlt.
  - apply Nat.ltb_lt in Hlt.
    assert (Hrec : exists w2, trace w2 = trace w1 ++ [(Delay (2000 * Z.of_nat attempt), Done)] /\
              attempts drv retryCount (S attempt) fuel w2 = (Throw err, w')).
    { unfold_m. simpl in H2. destruct (truthy (code e)); simpl in H2;
        eexists; (split; [| exact H2]); reflexivity. }
    destruct Hrec as [w2 [Ht2 Hrec]].
    destruct (IH (S attempt) w2 err w' Hrec ltac:(lia))
      as [evs [Ht [Hc [Hd Hlast]]]].
    exists (evs1 ++ (Delay (2000 * Z.of_nat attempt), Done) :: evs).
    split; [| split; [| split]].
    + rewrite Ht, Ht2, Ht1. repeat rewrite <- app_assoc. reflexivity.
    + rewrite connects_app, Hc1. unfold connects in *. simpl. rewrite Hc. reflexivity.
    + rewrite delays_app, Hd1. simpl. rewrite Hd.
      destruct fuel as [| fuel]; [lia |]. simpl. rewrite Nat.sub_0_r. reflexivity.
    + exact Hlast.
  - apply Nat.ltb_ge in Hlt. assert (fuel = 0) by lia. subst fuel.
    assert (Hend : err = e /\ trace w' = trace w1).
    { unfold_m. simpl in H2. destruct (truthy (code e)); simpl in H2;
        inversion H2; subst; split; reflexivity. }
    destruct Hend as [-> Hend].
    exists evs1. split; [| split; [| split]].
    + rewrite Hend. exact Ht1.
    + exact Hc1.
    + exact Hd1.
    + exists w, w1. split; [exact H1 | symmetry; exact Hend].
Qed.

(** [initializePool(1)]: one attempt, whatever comes of it. *)
Lemma initializePool_once w :
  exists evs, trace (snd (initializePool drv 1 w)) = trace w ++ evs /\
    connects evs = 1 /\ delays evs = [] /\ Forall reconnect_event evs.
Proof.
  destruct (connect_attempt_calls w) as [evs [Ht [Hc Hd]]].
  destruct (connect_attempt_emits w) as [evs' [Ht' Hf]].
  assert (evs' = evs) by (rewrite Ht in Ht'; eapply app_inv_head; symmetry; exact Ht').
  subst evs'.
  exists evs. split; [| split; [exact Hc | split; [exact Hd | exact Hf]]].
  unfold initializePool. simpl. unfold try_catch.
  destruct (connect_attempt drv w) as [[r | e] w1]; simpl in *; [exact Ht |].
  unfold_m. simpl. destruct (truthy (code e)); simpl; exact Ht.
Qed.

Lemma ensure_pool_initialized_emits : emits reconnect_event (ensure_pool_initialized drv).
Proof.
  unfold ensure_pool_initialized. apply emits_bind; [apply emits_read_pool |].
  intros [p |]; [apply emits_ret |].
  apply emits_bind; [apply initializePool_emits | intros; apply emits_ret].
Qed.

(** Past the guard there is a pool. *)
Lemma ensure_pool_initialized_normal w w' :
  ensure_pool_initialized drv w = (Normal tt, w') -> exists p, pool w' = Some p.
Proof.
  unfold ensure_pool_initialized, read_pool, bind at 1. destruct (pool w) as [p |] eqn:Hp.
  - intros H. inversion H; subst. exists p. exact Hp.
  - intros H. apply bind_inv in H.
    destruct H as [[r [w1 [H1 H2]]] | [e [_ H2]]]; [| discriminate].
    inversion H2; subst.
    destruct (attempts_normal 5 5 1 w r w' H1 ltac:(lia) ltac:(lia)) as [p [_ Hp']].
    exists p. exact Hp'.
Qed.

End InitializePool.

(** Called directly, as the reconnect paths do, [initializePool] first closes
    the pool it finds and then connects again. *)
Remark initializePool_closes_existing drv n w p :
  pool w = Some p ->
  exists r1 r2 evs,
    trace (snd (initializePool drv (S n) w)) =
    trace w ++ (Close p, r1) :: (Connect, r2) :: evs.
Proof.
  intros Hp. destruct (initializePool_emits drv (S n) w) as [evs [Ht _]].
  unfold initializePool in *. simpl in *.
  unfold try_catch in *.
  assert (H : exists r1 r2 evs1,
             trace (snd (connect_attempt drv w)) =
             trace w ++ (Close p, r1) :: (Connect, r2) :: evs1).
  { unfold connect_attempt, close_existing. unfold_m. simpl. rewrite Hp.
    repeat split_match; repeat rewrite <- app_assoc; simpl;
      do 3 eexists; reflexivity. }
  destruct H as [r1 [r2 [evs1 H]]].
  destruct (connect_attempt drv w) as [[r | e] w1]; simpl in H.
  - exists r1, r2, evs1. exact H.
  - destruct (attempts_emits drv (S n) n 2
                (snd (sleep (2000 * 1)
                   (snd (when (truthy (code e)) (console_error (ErrorCode (code e)))
                      (snd (console_error (AttemptFailed 1 (message e)) w1)))))))
      as [evs2 [Ht2 _]].
    unfold_m. simpl in *.
    destruct (truthy (code e)); destruct n as [| n]; simpl in *;
      try (exists r1, r2, evs1; exact H);
      rewrite Ht2, H; repeat rewrite <- app_assoc; simpl;
      do 3 eexists; reflexivity.
Qed.

(** [initializePool] with a positive count completes either with the pool
    it installed or with an error. *)
Lemma initializePool_completes drv n w :
  1 <= n ->
  (exists p w', initializePool drv n w = (Normal (Some p), w') /\ pool w' = Some p) \/
  (exists err w', initializePool drv n w = (Throw err, w')).
Proof.
  intros Hn. destruct (initializePool drv n w) as [[r | e] w'] eqn:H.
  - left. unfold initializePool in H.
    destruct (attempts_normal drv n n 1 w r w' H ltac:(lia) Hn) as [p [-> Hp]].
    exists p, w'. split; [reflexivity | exact Hp].
  - right. exists e, w'. reflexivity.
Qed.

(** ** The claims *)

(** C2, as the code has it.  [initializePool] has no early return: called
    while a pool exists it closes that pool and connects again.  What leaves
    an existing pool alone is the guard of the request handlers,
    [if (!pool) await initializePool()]: with a pool set it changes nothing
    in the world (nothing is closed, no connection is opened) and the next
    [pool.request()] is a request on the existing pool. *)
Theorem guard_keeps_existing_pool drv w p :
  pool w = Some p ->
  ensure_pool_initialized drv w = (Normal tt, w) /\
  pool_request w = (Normal (mkRequest (OnPool p) []), w) /\
  exists r1 r2 evs,
    trace (snd (initializePool drv defaultRetryCount w)) =
    trace w ++ (Close p, r1) :: (Connect, r2) :: evs.
Proof.
  intros Hp. splits.
  - unfold ensure_pool_initialized, bind, read_pool, ret. rewrite Hp. reflexivity.
  - unfold pool_request. rewrite Hp. reflexivity.
  - apply initializePool_closes_existing. exact Hp.
Qed.

Lemma guard_keeps_existing_pool_witness :
  pool Sample.warm = Some 3 /\
  ensure_pool_initialized (Sample.db true false) Sample.warm = (Normal tt, Sample.warm) /\
  pool_request Sample.warm = (Normal (mkRequest (OnPool 3) []), Sample.warm) /\
  exists r1 r2 evs,
    trace (snd (initializePool (Sample.db true false) defaultRetryCount Sample.warm)) =
    trace Sample.warm ++ (Close 3, r1) :: (Connect, r2) :: evs.
Proof.
  split; [reflexivity |].
  apply (guard_keeps_existing_pool (Sample.db true false) Sample.warm 3).
  reflexivity.
Defined.

(** C2, as stated, fails for [initializePool]: with pool 3 alive and a
    healthy database, [initializePool()] closes pool 3, opens a new
    connection and returns the new pool 7, not the existing one. *)
Lemma initializePool_replaces_live_pool :
  pool Sample.warm = Some 3 /\
  initializePool (Sample.db false false) defaultRetryCount Sample.warm =
  (Normal (Some 7),
   mkWorld (Some 7)
     [(Close 3, Done);
      (Connect, Connected 7);
      (Query (OnPool 7) [] (VStr "SELECT @@VERSION AS version"),
       Rows Sample.version_row)] []) /\
  initializePool (Sample.db false false) defaultRetryCount Sample.warm <>
  (Normal (Some 3), Sample.warm).
Proof.
  split; [reflexivity | split; [reflexivity | discriminate]].
Qed.

(** A throwing [initializePool]: one block of calls per attempt, a pause
    after each block but the last, and the error of the last attempt. *)
Lemma attempts_throw_blocks drv retryCount fuel :
  forall attempt w err w',
    attempts drv retryCount attempt fuel w = (Throw err, w') ->
    attempt + fuel = retryCount + 1 ->
    exists blocks,
      List.length blocks = fuel /\
      trace w' = trace w ++ paused attempt blocks /\
      Forall (fun block => connects block = 1 /\ delays block = []) blocks /\
      exists before after,
        connect_attempt drv before = (Throw err, after) /\
        trace after = trace before ++ last blocks [] /\
        trace after = trace w'.
Proof.
  induction fuel as [| fuel IH]; intros attempt w err w' H Hsum;
    [simpl in H; discriminate |].
  simpl in H.
  replace (attempt <=? retryCount)%nat with true in H
    by (symmetry; apply Nat.leb_le; lia).
  apply try_catch_inv in H. destruct H as [[a [H Ha]] | [e [w1 [H1 H2]]]];
    [discriminate |].
  destruct (connect_attempt_calls drv w) as [evs1 [Ht1 [Hc1 Hd1]]].
  rewrite H1 in Ht1. simpl in Ht1.
  destruct (attempt <? retryCount)%nat eqn:Hlt.
  - apply Nat.ltb_lt in Hlt.
    assert (Hrec : exists w2,
              trace w2 = trace w1 ++ [(Delay (2000 * Z.of_nat attempt), Done)] /\
              attempts drv retryCount (S attempt) fuel w2 = (Throw err, w')).
    { unfold_m. simpl in H2. destruct (truthy (code e)); simpl in H2;
        eexists; (split; [| exact H2]); reflexivity. }
    destruct Hrec as [w2 [Ht2 Hrec]].
    destruct (IH (S attempt) w2 err w' Hrec ltac:(lia))
      as [blocks [Hlen [Ht [Hall Hlast]]]].
    destruct blocks as [| block blocks]; [simpl in Hlen; lia |].
    exists (evs1 :: block :: blocks). splits.
    + simpl. rewrite <- Hlen. reflexivity.
    + rewrite Ht, Ht2, Ht1. cbn [paused]. repeat rewrite <- app_assoc. reflexivity.
    + constructor; [split; assumption | exact Hall].
    + exact Hlast.
  - apply Nat.ltb_ge in Hlt. assert (fuel = 0) by lia. subst fuel.
    assert (Hend : err = e /\ trace w' = trace w1).
    { unfold_m. simpl in H2. destruct (truthy (code e)); simpl in H2;
        inversion H2; subst; split; reflexivity. }
    destruct Hend as [-> Hend].
    exists [evs1]. splits.
    + reflexivity.
    + rewrite Hend. exact Ht1.
    + constructor; [split; assumption | constructor].
    + exists w, w1. splits; [exact H1 | exact Ht1 | symmetry; exact Hend].
Qed.

Lemma connect_attempt_refused drv w e :
  pool w = None -> drv_connect drv (trace w) = inl e ->
  connect_attempt drv w = (Throw e, record Connect (Failed e) w).
Proof.
  intros Hp He. destruct w as [pw tw cw]. simpl in Hp, He. subst pw.
  unfold connect_attempt, close_existing. unfold_m. simpl.
  rewrite He. reflexivity.
Qed.

(** With no pool and a database that refuses every connection, an attempt
    is one failed [sql.connect] and nothing else. *)
Lemma attempts_throw_unreachable drv retryCount fuel :
  (forall h, exists e, drv_connect drv h = inl e) ->
  forall attempt w err w',
    pool w = None ->
    attempts drv retryCount attempt fuel w = (Throw err, w') ->
    attempt + fuel = retryCount + 1 ->
    exists errs,
      List.length errs = fuel /\
      last errs err = err /\ errs <> [] /\
      trace w' =
      trace w ++ paused attempt (map (fun e => [(Connect, Failed e)]) errs).
Proof.
  intros Hdown.
  induction fuel as [| fuel IH]; intros attempt w err w' Hp H Hsum;
    [simpl in H; discriminate |].
  simpl in H.
  replace (attempt <=? retryCount)%nat with true in H
    by (symmetry; apply Nat.leb_le; lia).
  destruct (Hdown (trace w)) as [e He].
  pose proof (connect_attempt_refused drv w e Hp He) as H1.
  apply try_catch_inv in H. destruct H as [[a [H Ha]] | [e0 [w1 [H0 H]]]];
    [rewrite H1 in H; discriminate |].
  rewrite H1 in H0. inversion H0; subst e0 w1. clear H0.
  destruct (attempt <? retryCount)%nat eqn:Hlt.
  - apply Nat.ltb_lt in Hlt.
    assert (Hrec : exists w2,
              pool w2 = None /\
              trace w2 = trace w ++ [(Connect, Failed e);
                                     (Delay (2000 * Z.of_nat attempt), Done)] /\
              attempts drv retryCount (S attempt) fuel w2 = (Throw err, w')).
    { unfold_m. simpl in H. destruct (truthy (code e)); simpl in H;
        eexists; (split; [| split; [| exact H]]); simpl;
        try exact Hp; rewrite <- app_assoc; reflexivity. }
    destruct Hrec as [w2 [Hp2 [Ht2 Hrec]]].
    destruct (IH (S attempt) w2 err w' Hp2 Hrec ltac:(lia))
      as [errs [Hlen [Hlast [Hne Ht]]]].
    destruct errs as [| e2 errs]; [contradiction |].
    exists (e :: e2 :: errs). splits.
    + simpl. rewrite <- Hlen. reflexivity.
    + exact Hlast.
    + discriminate.
    + rewrite Ht, Ht2. cbn [paused map]. repeat rewrite <- app_assoc. reflexivity.
  - apply Nat.ltb_ge in Hlt. assert (fuel = 0) by lia. subst fuel.
    assert (Hend : err = e /\ trace w' = trace w ++ [(Connect, Failed e)]).
    { unfold_m. simpl in H. destruct (truthy (code e)); simpl in H;
        inversion H; subst; split; reflexivity. }
    destruct Hend as [-> Hend].
    exists [e]. splits; [reflexivity | reflexivity | discriminate | exact Hend].
Qed.

(** C3.  When [initializePool] with the default of 5 attempts ends without a
    pool, it has made exactly 5 attempts, each with one call of
    [sql.connect], and has paused 2000, 4000, 6000 and 8000 ms after the
    first, second, third and fourth of them: no pause before the first
    attempt and none after the fifth.  It throws the very error its last
    attempt failed with, and nothing is called after that attempt.  When
    there was no pool and the database refuses every connection, the calls
    are exactly five failed [sql.connect] with the four pauses between
    them, and the error thrown is the one of the fifth. *)
Theorem initializePool_five_attempts drv w err w' :
  initializePool drv defaultRetryCount w = (Throw err, w') ->
  (exists a1 a2 a3 a4 a5,
     trace w' =
     trace w ++ a1 ++ (Delay 2000, Done) :: a2 ++ (Delay 4000, Done) ::
                a3 ++ (Delay 6000, Done) :: a4 ++ (Delay 8000, Done) :: a5 /\
     Forall (fun block => connects block = 1 /\ delays block = [])
       [a1; a2; a3; a4; a5] /\
     exists before after,
       connect_attempt drv before = (Throw err, after) /\
       trace after = trace before ++ a5 /\
       trace after = trace w') /\
  (exists evs,
     trace w' = trace w ++ evs /\
     connects evs = 5 /\
     delays evs = [2000; 4000; 6000; 8000]%Z) /\
  (pool w = None ->
   (forall h, exists e, drv_connect drv h = inl e) ->
   exists e1 e2 e3 e4,
     trace w' =
     trace w ++ [(Connect, Failed e1); (Delay 2000, Done);
                 (Connect, Failed e2); (Delay 4000, Done);
                 (Connect, Failed e3); (Delay 6000, Done);
                 (Connect, Failed e4); (Delay 8000, Done);
                 (Connect, Failed err)]).
Proof.
  intros H. unfold initializePool, defaultRetryCount in H. splits.
  - destruct (attempts_throw_blocks drv 5 5 1 w err w' H eq_refl)
      as [blocks [Hlen [Ht [Hall Hlast]]]].
    destruct blocks as [| a1 [| a2 [| a3 [| a4 [| a5 [| a6 blocks]]]]]];
      try discriminate.
    exists a1, a2, a3, a4, a5. splits.
    + rewrite Ht. reflexivity.
    + exact Hall.
    + exact Hlast.
  - destruct (attempts_throw drv 5 5 1 w err w' H eq_refl)
      as [evs [Ht [Hc [Hd _]]]].
    exists evs. splits; assumption.
  - intros Hp Hdown.
    destruct (attempts_throw_unreachable drv 5 5 Hdown 1 w err w' Hp H eq_refl)
      as [errs [Hlen [Hlast [_ Ht]]]].
    destruct errs as [| e1 [| e2 [| e3 [| e4 [| e5 [| e6 errs]]]]]];
      try discriminate.
    simpl in Hlast. subst e5.
    exists e1, e2, e3, e4. rewrite Ht. reflexivity.
Qed.

Lemma initializePool_five_attempts_witness :
  initializePool (Sample.db true false) defaultRetryCount Sample.cold =
  (Throw Sample.timeout,
   snd (initializePool (Sample.db true false) defaultRetryCount Sample.cold)) /\
  exists e1 e2 e3 e4,
    trace (snd (initializePool (Sample.db true false) defaultRetryCount Sample.cold)) =
    [(Connect, Failed e1); (Delay 2000, Done);
     (Connect, Failed e2); (Delay 4000, Done);
     (Connect, Failed e3); (Delay 6000, Done);
     (Connect, Failed e4); (Delay 8000, Done);
     (Connect, Failed Sample.timeout)].
Proof.
  split; [reflexivity |].
  apply (proj2 (proj2 (initializePool_five_attempts (Sample.db true false)
                         Sample.cold Sample.timeout
                         (snd (initializePool (Sample.db true false)
                                 defaultRetryCount Sample.cold))
                         eq_refl))).
  - reflexivity.
  - intros h. exists Sample.timeout. reflexivity.
Defined.

(** A database that cannot be reached makes [initializePool] throw. *)
Lemma initializePool_unreachable drv n w :
  1 <= n ->
  (forall h, exists e, drv_connect drv h = inl e) ->
  exists err w', initializePool drv n w = (Throw err, w').
Proof.
  intros Hn Hdown.
  destruct (initializePool_completes drv n w Hn) as [[p [w' [H Hp]]] | H];
    [| exact H].
  exfalso.
  destruct (initializePool_emits drv n w) as [evs [Ht _]].
  assert (Hno : forall fuel attempt w0 r w1,
             attempts drv n attempt fuel w0 = (Normal (Some r), w1) -> False).
  { induction fuel as [| fuel IH]; intros attempt w0 r w1 H0; simpl in H0;
      [discriminate |].
    destruct (attempt <=? n)%nat; [| discriminate].
    apply try_catch_inv in H0. destruct H0 as [[a [H0 _]] | [e [w2 [_ H2]]]].
    - revert H0. unfold connect_attempt, close_existing. unfold_m. simpl.
      destruct (pool w0) as [p0 |]; simpl.
      + destruct (drv_close drv (trace w0) p0); simpl;
          match goal with
          | |- context [drv_connect drv ?h] =>
              let e0 := fresh "e" in let He := fresh "He" in
              destruct (Hdown h) as [e0 He]; rewrite He; simpl; discriminate
          end.
      + destruct (Hdown (trace w0)) as [e0 He]. rewrite He. simpl. discriminate.
    - unfold_m. simpl in H2.
      destruct (truthy (code e)); destruct (attempt <? n)%nat; simpl in H2;
        try discriminate; eapply IH; exact H2. }
  eapply Hno. exact H.
Qed.

(** C4.  A request that fails validation is answered with status 400 and the
    world is left exactly as it was: no pool initialization, no driver call.
    This holds for a query request whose [query] is missing or falsy, for a
    procedure request whose [procedure] is missing or falsy, and for a bulk
    request whose [table] is missing or empty or whose [data] is not an array
    or is the empty array. *)
Theorem invalid_request_no_database drv env body w :
  (truthy (field body "query") = false ->
   post_api_query drv env body w =
   (Normal (mkResponse 400 (VObj [("error", VStr "Query is required")])), w)) /\
  (truthy (field body "procedure") = false ->
   post_api_procedure drv env body w =
   (Normal (mkResponse 400 (VObj [("error", VStr "Procedure name is required")])), w)) /\
  (truthy (field body "table") = false \/
   isArray (field body "data") = false \/
   field body "data" = VArr [] ->
   post_api_bulk drv env body w =
   (Normal (mkResponse 400
      (VObj [("error", VStr "Valid table name and data array are required")])), w)).
Proof.
  split; [| split].
  - intros H. unfold post_api_query, try_catch. rewrite H. reflexivity.
  - intros H. unfold post_api_procedure, try_catch. rewrite H. reflexivity.
  - intros H. unfold post_api_bulk, try_catch.
    replace (negb (truthy (field body "table")) || negb (truthy (field body "data"))
             || negb (isArray (field body "data")) || empty_array (field body "data"))
      with true; [reflexivity |].
    symmetry. destruct H as [H | [H | H]]; rewrite H; simpl;
      repeat rewrite orb_true_r; reflexivity.
Qed.

Lemma invalid_request_no_database_witness :
  post_api_query (Sample.db false false) Sample.production
    [("params", VObj [])] Sample.cold =
  (Normal (mkResponse 400 (VObj [("error", VStr "Query is required")])), Sample.cold) /\
  post_api_procedure (Sample.db false false) Sample.production
    [("params", VObj [])] Sample.cold =
  (Normal (mkResponse 400 (VObj [("error", VStr "Procedure name is required")])),
   Sample.cold) /\
  post_api_bulk (Sample.db false false) Sample.production
    [("table", VStr "t"); ("data", VArr [])] Sample.cold =
  (Normal (mkResponse 400
     (VObj [("error", VStr "Valid table name and data array are required")])),
   Sample.cold).
Proof.
  pose proof (invalid_request_no_database (Sample.db false false) Sample.production
                [("params", VObj [])] Sample.cold) as [Hq [Hp _]].
  pose proof (invalid_request_no_database (Sample.db false false) Sample.production
                [("table", VStr "t"); ("data", VArr [])] Sample.cold) as [_ [_ Hb]].
  split; [apply Hq; reflexivity | split; [apply Hp; reflexivity |]].
  apply Hb. right. right. reflexivity.
Defined.

(** C9.  Whatever the state of the pool, the health handler completes
    normally with status 200 and top-level [status: 'OK']; the state of the
    database only shows in the [database] field: [connected: false] with the
    message ['Connection pool not initialized'] when there is no pool,
    [connected: false] with ['Error: '] and the message of the error when the
    probe query fails, [connected: true] with ['Connected'] when the probe
    succeeds. *)
Theorem health_always_ok drv env w :
  exists database timestamp w',
    get_api_health drv env w =
    (Normal (mkResponse 200
       (VObj [("status", VStr "OK");
              ("message", VStr "Service is running");
              ("environment", NODE_ENV env);
              ("node_version", VStr (node_version env));
              ("database", database);
              ("timestamp", VStr timestamp)])), w') /\
    match pool w with
    | None =>
        database = VObj [("connected", VBool false);
                         ("message", VStr "Connection pool not initialized")]
    | Some p =>
        match drv_query drv (trace w) (OnPool p) [] (VStr "SELECT 1 AS result") with
        | inr _ =>
            database = VObj [("connected", VBool true); ("message", VStr "Connected")]
        | inl e =>
            database = VObj [("connected", VBool false);
                             ("message", VStr ("Error: " ++ message e)%string)]
        end
    end.
Proof.
  unfold get_api_health. unfold bind at 1. unfold try_catch at 1.
  unfold bind at 1. unfold read_pool at 1.
  destruct (pool w) as [p |] eqn:Hp.
  - unfold bind at 1. unfold pool_request. rewrite Hp.
    unfold bind at 1. unfold request_query. simpl.
    destruct (drv_query drv (trace w) (OnPool p) [] (VStr "SELECT 1 AS result"))
      as [e | res].
    + unfold bind at 1. unfold try_catch at 1. unfold bind at 1.
      destruct (initializePool drv 1 _) as [[r | e'] w1]; simpl;
        do 3 eexists; split; reflexivity.
    + simpl. do 3 eexists; split; reflexivity.
  - simpl. do 3 eexists; split; reflexivity.
Qed.

(** ** What the handlers share *)

Section Handlers.

Variable drv : Driver.
Variable env : Env.

(** One turn of the loop over the parameters. *)
Lemma input_each_step params key rest r w :
  input_each drv params (key :: rest) r w =
  match get params key with
  | Throw e => (Throw e, w)
  | Normal v =>
      if renders v
      then bind (request_input drv r key v) (input_each drv params rest) w
      else (Throw NotPrimitive, w)
  end.
Proof.
  cbn [input_each]. unfold bind at 1. unfold eval at 1.
  destruct (get params key) as [v | e]; [| reflexivity].
  unfold bind at 1. unfold eval, interpolate.
  destruct (renders v); reflexivity.
Qed.

Lemma input_each_emits P params ks :
  (forall t key v rep, P (Input t key v, rep)) ->
  forall r, emits P (input_each drv params ks r).
Proof.
  intros HP. induction ks as [| key ks IH]; intros r; simpl.
  - apply emits_ret.
  - apply emits_bind; [apply emits_eval |]. intros v.
    apply emits_bind; [apply emits_eval |]. intros _.
    apply emits_bind; [apply emits_request_input; intros rep; apply HP |].
    intros r'. apply IH.
Qed.

Lemma add_parameters_emits P r params :
  (forall t key v rep, P (Input t key v, rep)) ->
  emits P (add_parameters drv r params).
Proof.
  intros HP. unfold add_parameters.
  destruct (truthy params && typeof_object params); [| apply emits_ret].
  apply emits_bind; [apply emits_eval |]. intros ks.
  apply input_each_emits. exact HP.
Qed.

Lemma input_each_keeps params ks :
  forall r w,
    pool (snd (input_each drv params ks r w)) = pool w /\
    console (snd (input_each drv params ks r w)) = console w /\
    forall r' w', input_each drv params ks r w = (Normal r', w') ->
                  req_target r' = req_target r.
Proof.
  induction ks as [| key ks IH]; intros r w.
  - simpl. split; [reflexivity | split; [reflexivity |]].
    intros r' w' H. inversion H. reflexivity.
  - rewrite input_each_step.
    destruct (get params key) as [v | e]; simpl.
    + destruct (renders v);
        [| split; [reflexivity | split; [reflexivity | discriminate]]].
      unfold bind, request_input.
      destruct (drv_input drv (trace w) (req_target r) key v); simpl.
      * split; [reflexivity | split; [reflexivity | discriminate]].
      * match goal with
        | |- context [input_each drv params ks ?r1 ?w1] =>
            destruct (IH r1 w1) as [Hp [Hc Ht]]
        end.
        split; [exact Hp | split; [exact Hc |]].
        intros r' w' H. apply Ht in H. exact H.
    + split; [reflexivity | split; [reflexivity | discriminate]].
Qed.

Lemma add_parameters_keeps r params w :
  pool (snd (add_parameters drv r params w)) = pool w /\
  console (snd (add_parameters drv r params w)) = console w /\
  forall r' w', add_parameters drv r params w = (Normal r', w') ->
                req_target r' = req_target r.
Proof.
  unfold add_parameters.
  destruct (truthy params && typeof_object params).
  - unfold bind, eval. destruct (keys params) as [ks | e]; simpl.
    + apply input_each_keeps.
    + split; [reflexivity | split; [reflexivity | discriminate]].
  - simpl. split; [reflexivity | split; [reflexivity |]].
    intros r' w' H. inversion H. reflexivity.
Qed.

(** The reconnect of a [catch] block: a single [initializePool(1)] when the
    error is connection-class or no pool exists, nothing otherwise; it never
    throws. *)
Lemma reconnect_if_needed_spec err w :
  exists evs w',
    reconnect_if_needed drv err w = (Normal tt, w') /\
    trace w' = trace w ++ evs /\
    Forall reconnect_event evs /\
    if connection_code (code err) || no_pool (pool w)
    then connects evs = 1 /\ delays evs = []
    else evs = [] /\ w' = w.
Proof.
  unfold reconnect_if_needed. unfold bind at 1. unfold read_pool.
  destruct (connection_code (code err) || no_pool (pool w)).
  - destruct (initializePool_once drv w) as [evs [Ht [Hc [Hd Hf]]]].
    unfold try_catch, bind.
    destruct (initializePool drv 1 w) as [[r | e] w1]; simpl in *;
      exists evs; eexists; (split; [reflexivity |]); simpl; auto.
  - exists [], w. rewrite app_nil_r. auto.
Qed.

Lemma request_failed_spec ep err w :
  exists evs w',
    request_failed drv env ep err w = (Normal (error_response env err), w') /\
    trace w' = trace w ++ evs /\
    Forall reconnect_event evs /\
    if connection_code (code err) || no_pool (pool w)
    then connects evs = 1 /\ delays evs = []
    else evs = [].
Proof.
  unfold request_failed. unfold bind at 1. unfold console_error at 1.
  match goal with
  | |- context [bind (reconnect_if_needed drv err) _ ?w1] =>
      destruct (reconnect_if_needed_spec err w1) as [evs [w' [H [Ht [Hf Hc]]]]]
  end.
  exists evs, w'. split; [| split; [exact Ht | split; [exact Hf |]]].
  - erewrite bind_normal; [| exact H]. reflexivity.
  - simpl in Hc. destruct (connection_code (code err) || no_pool (pool w));
      [exact Hc | apply Hc].
Qed.

(** Every handler response built by a [catch] block has status 500. *)
Lemma error_response_status err : status (error_response env err) = 500%Z.
Proof. reflexivity. Qed.

Lemma error_response_no_results err : results_of (error_response env err) = None.
Proof. reflexivity. Qed.

(** The 500 response, written out: the message and the code of the error,
    and its stack only when [NODE_ENV] is ['development']. *)
Lemma error_response_body err :
  error_response env err =
  mkResponse 500
    (VObj [("success", VBool false);
           ("error", VStr (message err));
           ("errorCode", code err);
           ("stack",
            match NODE_ENV env with
            | VStr s => if s =? "development" then VStr (stack err) else VUndefined
            | _ => VUndefined
            end)]).
Proof.
  unfold error_response, development.
  destruct (NODE_ENV env) as [| | b | n | s | l | o | bi]; try reflexivity.
Qed.

(** *** The bulk table *)

Lemma add_columns_spec columns :
  forall t,
    add_columns t columns =
    mkTable (tbl_name t)
      (tbl_columns t ++ map (fun c => mkColumn c VarCharMax true) columns)
      (tbl_rows t).
Proof.
  unfold add_columns.
  induction columns as [| c columns IH]; intros t; simpl.
  - rewrite app_nil_r. destruct t; reflexivity.
  - rewrite IH. unfold columns_add. simpl. rewrite <- app_assoc. reflexivity.
Qed.

Lemma get_object o c : get (VObj o) c = Normal (cell o c).
Proof.
  unfold get, cell, inherited, has_member. cbn [members].
  destruct (lookup c o); [reflexivity |].
  destruct (c =? "__proto__"); [reflexivity |].
  destruct (existsb (String.eqb c) object_members); reflexivity.
Qed.

Lemma row_values_object o columns :
  row_values (VObj o) columns = Normal (map (cell o) columns).
Proof.
  induction columns as [| c columns IH]; [reflexivity |].
  cbn [row_values map]. rewrite get_object, IH. reflexivity.
Qed.

(** The cells of a row, in column order. *)
Lemma add_rows_objects columns data :
  Forall is_object data ->
  forall t,
    add_rows t columns data =
    Normal (mkTable (tbl_name t) (tbl_columns t)
              (tbl_rows t ++
               map (fun item =>
                      match item with
                      | VObj o => map (cell o) columns
                      | _ => []
                      end) data)).
Proof.
  induction 1 as [| item data Hitem Hdata IH]; intros t; simpl.
  - rewrite app_nil_r. destruct t; reflexivity.
  - destruct item; try contradiction.
    rewrite row_values_object, IH. unfold rows_add. simpl.
    rewrite <- app_assoc. reflexivity.
Qed.

Lemma build_bulk_table_objects table first rest :
  drv_table drv table = None ->
  Forall is_object rest ->
  build_bulk_table drv table (VArr (VObj first :: rest)) =
  Normal (mkTable table
            (map (fun c => mkColumn c VarCharMax true) (map fst first))
            (map (fun item =>
                    match item with
                    | VObj o => map (cell o) (map fst first)
                    | _ => []
                    end) (VObj first :: rest))).
Proof.
  intros Hname Hrest. unfold build_bulk_table, new_table.
  assert (Hget : get (VArr (VObj first :: rest)) "0" = Normal (VObj first))
    by reflexivity.
  rewrite Hget, Hname. cbn [keys].
  rewrite add_columns_spec, add_rows_objects; [reflexivity |].
  constructor; [exact I | exact Hrest].
Qed.

(** The bulk handler past the validation, the [console.log] of line 264 and
    the guard. *)
Lemma post_api_bulk_valid body w w0 :
  negb (truthy (field body "table")) || negb (truthy (field body "data"))
  || negb (isArray (field body "data")) || empty_array (field body "data") = false ->
  renders (field body "table") = true ->
  ensure_pool_initialized drv w = (Normal tt, w0) ->
  post_api_bulk drv env body w =
  try_catch
    (bulkTable <- eval (build_bulk_table drv (field body "table") (field body "data")) ;;
     request <- pool_request ;;
     affected <- request_bulk drv request bulkTable ;;
     ret (mkResponse 200
            (VObj [("success", VBool true); ("rowsAffected", affected)])))
    (request_failed drv env EBulk) w0.
Proof.
  intros Hvalid Hrenders Hensure. unfold post_api_bulk. rewrite Hvalid.
  unfold try_catch, interpolate. rewrite Hrenders.
  unfold bind at 1. unfold eval at 1.
  unfold bind at 1. rewrite Hensure. reflexivity.
Qed.

(** A name the library does not accept stops the construction there. *)
Lemma build_bulk_table_rejected table first rest e :
  drv_table drv table = Some e ->
  build_bulk_table drv table (VArr (VObj first :: rest)) = Throw e.
Proof.
  intros Hname. unfold build_bulk_table, new_table.
  assert (Hget : get (VArr (VObj first :: rest)) "0" = Normal (VObj first))
    by reflexivity.
  rewrite Hget, Hname. reflexivity.
Qed.

End Handlers.

(** The names the handlers read from the request body are not members of
    [Object.prototype]: reading them finds an own property or nothing. *)
Lemma field_reads body k :
  In k ["query"; "params"; "procedure"; "table"; "data"; "queries"] ->
  get (VObj body) k = Normal (field body k).
Proof.
  intros Hk. unfold get, field. destruct (lookup k body); [reflexivity |].
  repeat (destruct Hk as [<- | Hk]; [reflexivity |]). contradiction.
Qed.

(** *** The order of the keys *)

Lemma define_property_fresh k v o :
  ~ In k (map fst o) -> define_property k v o = o ++ [(k, v)].
Proof.
  induction o as [| [k' v'] o IH]; intros Hk; simpl; [reflexivity |].
  simpl in Hk.
  destruct (String.eqb_spec k' k) as [-> | Hne].
  - contradiction Hk. left. reflexivity.
  - rewrite IH; [reflexivity |]. intros Hin. apply Hk. right. exact Hin.
Qed.

Lemma created_from members :
  forall o,
    NoDup (map fst (o ++ members)) ->
    fold_left (fun o kv => define_property (fst kv) (snd kv) o) members o =
    o ++ members.
Proof.
  induction members as [| [k v] members IH]; intros o Hnd; simpl.
  - rewrite app_nil_r. reflexivity.
  - rewrite define_property_fresh.
    + rewrite IH; rewrite <- app_assoc; [reflexivity | exact Hnd].
    + rewrite map_app in Hnd. simpl in Hnd.
      apply NoDup_remove_2 in Hnd. intros Hin. apply Hnd.
      apply in_or_app. left. exact Hin.
Qed.

Lemma no_index_keys o :
  Forall (fun k => array_index k = None) (map fst o) ->
  indexed o = [] /\ named o = o.
Proof.
  unfold named.
  induction o as [| kv o IH]; intros H; simpl; [split; reflexivity |].
  simpl in H. inversion H as [| k ks Hk Hks]; subst.
  rewrite Hk. destruct (IH Hks) as [Hi Hn]. rewrite Hn. split; [exact Hi | reflexivity].
Qed.

(** Without array indices and repeated keys, [Object.keys] follows the
    order of the text. *)
Lemma parsed_object_plain members :
  NoDup (map fst members) ->
  Forall (fun k => array_index k = None) (map fst members) ->
  parsed_object members = members.
Proof.
  intros Hnd Hplain. unfold parsed_object, created.
  rewrite (created_from members [] Hnd). simpl.
  destruct (no_index_keys members Hplain) as [-> ->]. reflexivity.
Qed.

(** C6, as the code has it.  For a bulk request whose table name is
    interpolated without error in the log line of line 264 (as every string
    is) and accepted by the library, and whose rows are objects, the table
    handed to the
    driver has one column per key of [data[0]], in the order [Object.keys]
    lists them (the order of the request text when no key is an array index
    or repeated), each declared [VarChar(MAX)] and nullable, and one row per
    element of [data] whose values are read in that column order.  A key a
    row does not have is read through the prototype chain: it is passed as
    [undefined], never an error, unless it names a member of
    [Object.prototype], which is then passed instead.  For
    [[{a:1,b:2}, {a:3}]] the table has columns [a, b] and rows
    [[1, 2], [3, undefined]]. *)
Theorem bulk_columns_from_first_row drv env body w w0 p first rest :
  truthy (field body "table") = true ->
  renders (field body "table") = true ->
  drv_table drv (field body "table") = None ->
  field body "data" = VArr (VObj first :: rest) ->
  Forall is_object rest ->
  ensure_pool_initialized drv w = (Normal tt, w0) ->
  pool w0 = Some p ->
  let columns := map fst first in
  let inherits (c : string) :=
    existsb (String.eqb c)
      ["constructor"; "__defineGetter__"; "__defineSetter__"; "hasOwnProperty";
       "__lookupGetter__"; "__lookupSetter__"; "isPrototypeOf";
       "propertyIsEnumerable"; "toString"; "valueOf"; "__proto__";
       "toLocaleString"] in
  let read (o : object) (c : string) :=
    match lookup c o with
    | Some x => x
    | None =>
        if c =? "__proto__" then VBuiltin (Prototype ObjectPrototype)
        else if inherits c then VBuiltin (Member ObjectPrototype c)
        else VUndefined
    end in
  let tbl :=
    mkTable (field body "table")
      (map (fun c => mkColumn c (VarChar MAX) true) columns)
      (map (fun item =>
              match item with
              | VObj o => map (read o) columns
              | _ => []
              end) (VObj first :: rest)) in
  (exists resp w' reply evs,
     post_api_bulk drv env body w = (Normal resp, w') /\
     trace w' = trace w0 ++ (Bulk (OnPool p) tbl, reply) :: evs) /\
  (forall members,
     first = parsed_object members ->
     NoDup (map fst members) ->
     Forall (fun k => array_index k = None) (map fst members) ->
     columns = map fst members) /\
  (forall o c, lookup c o = None -> inherits c = false -> read o c = VUndefined) /\
  (drv_table drv (VStr "t") = None ->
   build_bulk_table drv (VStr "t") Sample.two_rows =
   Normal (mkTable (VStr "t")
             [mkColumn "a" (VarChar MAX) true; mkColumn "b" (VarChar MAX) true]
             [[VNum 1; VNum 2]; [VNum 3; VUndefined]])).
Proof.
  intros Htable Hrenders Hname Hdata Hrest Hensure Hpool columns inherits read tbl.
  splits.
  - rewrite (post_api_bulk_valid drv env body w w0);
      [| rewrite Htable, Hdata; reflexivity | exact Hrenders | exact Hensure].
    unfold try_catch. rewrite Hdata.
    rewrite build_bulk_table_objects; [| exact Hname | exact Hrest].
    unfold bind at 1. unfold eval.
    unfold bind at 1. unfold pool_request. rewrite Hpool.
    unfold bind at 1. unfold request_bulk. cbn [req_target].
    change (mkTable (field body "table")
              (map (fun c => mkColumn c VarCharMax true) (map fst first))
              (map (fun item => match item with
                                | VObj o => map (cell o) (map fst first)
                                | _ => []
                                end) (VObj first :: rest))) with tbl.
    destruct (drv_bulk drv (trace w0) (OnPool p) tbl) as [e | affected].
    + match goal with
      | |- context [request_failed drv env EBulk e ?w1] =>
          destruct (request_failed_spec drv env EBulk e w1)
            as [evs [w' [H [Ht _]]]]
      end.
      rewrite H. do 2 eexists. exists (Failed e), evs.
      split; [reflexivity |]. rewrite Ht. simpl.
      rewrite <- app_assoc. reflexivity.
    + do 2 eexists. exists (Loaded affected), [].
      split; reflexivity.
  - intros members -> Hnd Hplain. unfold columns.
    rewrite (parsed_object_plain members Hnd Hplain). reflexivity.
  - intros o c Hl Hc. unfold read. rewrite Hl, Hc.
    destruct (c =? "__proto__") eqn:Hp; [| reflexivity].
    apply String.eqb_eq in Hp. subst c. discriminate.
  - intros Ht. unfold build_bulk_table, new_table. rewrite Ht. reflexivity.
Qed.

Lemma bulk_columns_from_first_row_witness :
  exists resp w' reply evs,
    post_api_bulk (Sample.db false false) Sample.production
      [("table", VStr "t"); ("data", Sample.two_rows)] Sample.cold = (Normal resp, w') /\
    trace w' =
    [(Connect, Connected 7);
     (Query (OnPool 7) [] (VStr "SELECT @@VERSION AS version"), Rows Sample.version_row)]
    ++ (Bulk (OnPool 7)
          (mkTable (VStr "t")
             [mkColumn "a" (VarChar MAX) true; mkColumn "b" (VarChar MAX) true]
             [[VNum 1; VNum 2]; [VNum 3; VUndefined]]), reply) :: evs.
Proof.
  refine (proj1 (bulk_columns_from_first_row (Sample.db false false) Sample.production
            [("table", VStr "t"); ("data", Sample.two_rows)] Sample.cold
            (mkWorld (Some 7)
               [(Connect, Connected 7);
                (Query (OnPool 7) [] (VStr "SELECT @@VERSION AS version"),
                 Rows Sample.version_row)] [])
            7 [("a", VNum 1); ("b", VNum 2)] [VObj [("a", VNum 3)]]
            _ _ _ _ _ _ _)).
  - reflexivity.
  - reflexivity.
  - reflexivity.
  - reflexivity.
  - constructor; [exact I | constructor].
  - reflexivity.
  - reflexivity.
Defined.

(** C6, as stated, fails on two counts.  The columns are not in insertion
    order: a first row written [{"b": 2, "1": 1}] gives the columns
    [1, b].  And a key missing from a row is not always passed as absent:
    with the rows [[{"constructor": "x"}, {}]] the second row carries the
    function its empty object inherits as [constructor]. *)
Lemma bulk_columns_keys_order_and_inherited_member :
  post_api_bulk (Sample.db false false) Sample.production
    [("table", VStr "t");
     ("data", VArr [VObj (parsed_object [("b", VNum 2); ("1", VNum 1)])])]
    Sample.warm =
  (Normal (mkResponse 200 (VObj [("success", VBool true); ("rowsAffected", VNum 2)])),
   mkWorld (Some 3)
     [(Bulk (OnPool 3)
         (mkTable (VStr "t")
            [mkColumn "1" (VarChar MAX) true; mkColumn "b" (VarChar MAX) true]
            [[VNum 1; VNum 2]]),
       Loaded (VNum 2))] []) /\
  map fst [("b", VNum 2); ("1", VNum 1)] <> ["1"; "b"] /\
  post_api_bulk (Sample.db false false) Sample.production
    [("table", VStr "t");
     ("data", VArr [VObj (parsed_object [("constructor", VStr "x")]);
                    VObj (parsed_object [])])]
    Sample.warm =
  (Normal (mkResponse 200 (VObj [("success", VBool true); ("rowsAffected", VNum 2)])),
   mkWorld (Some 3)
     [(Bulk (OnPool 3)
         (mkTable (VStr "t")
            [mkColumn "constructor" (VarChar MAX) true]
            [[VStr "x"]; [VBuiltin (Member ObjectPrototype "constructor")]]),
       Loaded (VNum 2))] []) /\
  VBuiltin (Member ObjectPrototype "constructor") <> VUndefined.
Proof.
  split; [reflexivity | split; [discriminate | split; [reflexivity | discriminate]]].
Qed.

(** A table name the library refuses: the handler answers 500 with the
    error of the constructor and makes no bulk call. *)
Example invalid_table_name_no_bulk :
  post_api_bulk (Sample.db false false) Sample.production
    [("table", VStr "a]b"); ("data", Sample.two_rows)] Sample.warm =
  (Normal (mkResponse 500
             (VObj [("success", VBool false);
                    ("error", VStr "Invalid table name.");
                    ("errorCode", VUndefined);
                    ("stack", VUndefined)])),
   mkWorld (Some 3) [] [HandlerError EBulk Sample.invalid_table_name]).
Proof. reflexivity. Qed.

(** C10.  Two bulk requests for the same table whose rows are objects, with
    the same first row and whose later rows agree on every key of the first
    row, have the same outcome, and the handler behaves the same on both:
    keys of later rows that the first row does not have play no part.  When
    the library accepts the table name both build the same table, without
    error; otherwise both stop at the error of the name. *)
Theorem bulk_extra_keys_ignored drv env body1 body2 w first rest1 rest2 :
  field body1 "table" = field body2 "table" ->
  field body1 "data" = VArr (VObj first :: rest1) ->
  field body2 "data" = VArr (VObj first :: rest2) ->
  Forall2 (agree_on (map fst first)) rest1 rest2 ->
  build_bulk_table drv (field body1 "table") (field body1 "data") =
  build_bulk_table drv (field body2 "table") (field body2 "data") /\
  match drv_table drv (field body1 "table") with
  | None =>
      exists tbl,
        build_bulk_table drv (field body1 "table") (field body1 "data") = Normal tbl /\
        tbl_columns tbl = map (fun c => mkColumn c (VarChar MAX) true) (map fst first) /\
        List.length (tbl_rows tbl) = S (List.length rest1)
  | Some e =>
      build_bulk_table drv (field body1 "table") (field body1 "data") = Throw e
  end /\
  post_api_bulk drv env body1 w = post_api_bulk drv env body2 w.
Proof.
  intros Htable Hd1 Hd2 Hagree.
  assert (Ho1 : Forall is_object rest1).
  { clear Hd1 Hd2.
    induction Hagree as [| r1 r2 l1 l2 [o1 [o2 [-> [-> _]]]] _ IH];
      [constructor |]. constructor; [exact I | exact IH]. }
  assert (Ho2 : Forall is_object rest2).
  { clear Hd1 Hd2 Ho1.
    induction Hagree as [| r1 r2 l1 l2 [o1 [o2 [-> [-> _]]]] _ IH];
      [constructor |]. constructor; [exact I | exact IH]. }
  assert (Hrows :
    map (fun item => match item with
                     | VObj o => map (cell o) (map fst first)
                     | _ => []
                     end) rest1 =
    map (fun item => match item with
                     | VObj o => map (cell o) (map fst first)
                     | _ => []
                     end) rest2).
  { clear Ho1 Ho2 Hd1 Hd2.
    induction Hagree as [| r1 r2 l1 l2 [o1 [o2 [-> [-> Hc]]]] _ IH];
      [reflexivity |].
    simpl. rewrite IH. f_equal. apply map_ext_in. exact Hc. }
  assert (Hsame : build_bulk_table drv (field body1 "table") (field body1 "data") =
                  build_bulk_table drv (field body2 "table") (field body2 "data")).
  { rewrite Hd1, Hd2, <- Htable.
    destruct (drv_table drv (field body1 "table")) as [e |] eqn:Hname.
    - rewrite !(build_bulk_table_rejected drv _ _ _ e Hname). reflexivity.
    - rewrite !build_bulk_table_objects by assumption.
      simpl. rewrite Hrows. reflexivity. }
  splits.
  - exact Hsame.
  - destruct (drv_table drv (field body1 "table")) as [e |] eqn:Hname.
    + rewrite Hd1. apply build_bulk_table_rejected. exact Hname.
    + eexists. splits.
      * rewrite Hd1. apply build_bulk_table_objects; assumption.
      * reflexivity.
      * simpl. rewrite length_map. reflexivity.
  - unfold post_api_bulk. rewrite Hsame. rewrite Htable, Hd1, Hd2. reflexivity.
Qed.

Lemma bulk_extra_keys_ignored_witness :
  build_bulk_table (Sample.db false false) (VStr "t")
    (VArr [VObj [("a", VNum 1)]; VObj [("a", VNum 3); ("zz", VStr "x")]]) =
  build_bulk_table (Sample.db false false) (VStr "t")
    (VArr [VObj [("a", VNum 1)]; VObj [("a", VNum 3)]]) /\
  (exists tbl,
     build_bulk_table (Sample.db false false) (VStr "t")
       (VArr [VObj [("a", VNum 1)]; VObj [("a", VNum 3); ("zz", VStr "x")]]) =
     Normal tbl /\
     tbl_columns tbl = [mkColumn "a" (VarChar MAX) true] /\
     List.length (tbl_rows tbl) = 2) /\
  post_api_bulk (Sample.db false false) Sample.production
    [("table", VStr "t");
     ("data", VArr [VObj [("a", VNum 1)]; VObj [("a", VNum 3); ("zz", VStr "x")]])]
    Sample.warm =
  post_api_bulk (Sample.db false false) Sample.production
    [("table", VStr "t"); ("data", VArr [VObj [("a", VNum 1)]; VObj [("a", VNum 3)]])]
    Sample.warm.
Proof.
  refine (bulk_extra_keys_ignored (Sample.db false false) Sample.production
            [("table", VStr "t");
             ("data", VArr [VObj [("a", VNum 1)]; VObj [("a", VNum 3); ("zz", VStr "x")]])]
            [("table", VStr "t");
             ("data", VArr [VObj [("a", VNum 1)]; VObj [("a", VNum 3)]])]
            Sample.warm [("a", VNum 1)]
            [VObj [("a", VNum 3); ("zz", VStr "x")]] [VObj [("a", VNum 3)]]
            _ _ _ _).
  - reflexivity.
  - reflexivity.
  - reflexivity.
  - constructor; [| constructor].
    exists [("a", VNum 3); ("zz", VStr "x")], [("a", VNum 3)].
    split; [reflexivity | split; [reflexivity |]].
    intros c [<- | []]. reflexivity.
Defined.

(** C8.  A 200 response of the query handler (and of the procedure handler)
    is built from the driver's reply to the statement, the last call made:
    its [rowsAffected] is the first entry of the driver's list of affected
    counts; the entries after the first appear nowhere in the response. *)
Theorem rowsAffected_is_first_entry drv env body w resp w' :
  status resp = 200%Z ->
  (post_api_query drv env body w = (Normal resp, w') ->
   exists pre t ps result,
     trace w' = pre ++ [(Query t ps (field body "query"), Rows result)] /\
     json resp = VObj [("success", VBool true);
                       ("data", recordset result);
                       ("rowsAffected", first_entry (rowsAffected result))]) /\
  (post_api_procedure drv env body w = (Normal resp, w') ->
   exists pre t ps result,
     trace w' = pre ++ [(Execute t ps (field body "procedure"), Rows result)] /\
     json resp = VObj [("success", VBool true);
                       ("data", recordset result);
                       ("outputParameters", output result);
                       ("rowsAffected", first_entry (rowsAffected result))]) /\
  (forall n rest, first_entry (n :: rest) = VNum n).
Proof.
  intros Hs. split; [| split; [| reflexivity]].
  - intros H. unfold post_api_query in H. apply try_catch_inv in H.
    destruct H as [[a [H Ha]] | [e [w1 [_ H]]]].
    + inversion Ha; subst a; clear Ha.
      destruct (truthy (field body "query")); simpl in H;
        [| inversion H; subst; discriminate].
      apply bind_inv in H. destruct H as [[u [w1 [_ H]]] | [e [_ H]]]; [| discriminate].
      apply bind_inv in H. destruct H as [[r0 [w2 [_ H]]] | [e [_ H]]]; [| discriminate].
      apply bind_inv in H. destruct H as [[r [w3 [_ H]]] | [e [_ H]]]; [| discriminate].
      apply bind_inv in H. destruct H as [[res [w4 [Hq H]]] | [e [_ H]]]; [| discriminate].
      inversion H; subst; clear H.
      unfold request_query in Hq.
      destruct (drv_query drv (trace w3) (req_target r) (req_params r)
                  (field body "query")); inversion Hq; subst.
      exists (trace w3), (req_target r), (req_params r), res.
      split; reflexivity.
    + destruct (request_failed_spec drv env EQuery e w1) as [evs [w2 [H2 _]]].
      rewrite H2 in H. inversion H; subst. discriminate.
  - intros H. unfold post_api_procedure in H. apply try_catch_inv in H.
    destruct H as [[a [H Ha]] | [e [w1 [_ H]]]].
    + inversion Ha; subst a; clear Ha.
      destruct (truthy (field body "procedure")); simpl in H;
        [| inversion H; subst; discriminate].
      apply bind_inv in H. destruct H as [[u [w1 [_ H]]] | [e [_ H]]]; [| discriminate].
      apply bind_inv in H. destruct H as [[r0 [w2 [_ H]]] | [e [_ H]]]; [| discriminate].
      apply bind_inv in H. destruct H as [[r [w2' [_ H]]] | [e [_ H]]]; [| discriminate].
      apply bind_inv in H. destruct H as [[u' [w3 [_ H]]] | [e [_ H]]]; [| discriminate].
      apply bind_inv in H. destruct H as [[res [w4 [Hq H]]] | [e [_ H]]]; [| discriminate].
      inversion H; subst; clear H.
      unfold request_execute in Hq.
      destruct (drv_execute drv (trace w3) (req_target r) (req_params r)
                  (field body "procedure")); inversion Hq; subst.
      exists (trace w3), (req_target r), (req_params r), res.
      split; reflexivity.
    + destruct (request_failed_spec drv env EProcedure e w1) as [evs [w2 [H2 _]]].
      rewrite H2 in H. inversion H; subst. discriminate.
Qed.

Lemma rowsAffected_is_first_entry_witness :
  exists pre t ps result,
    trace (mkWorld (Some 3)
             [(Query (OnPool 3) [] (VStr "UPDATE a; UPDATE b; UPDATE c"),
               Rows Sample.batch)] []) =
    pre ++ [(Query t ps (field [("query", VStr "UPDATE a; UPDATE b; UPDATE c")] "query"),
             Rows result)] /\
    json (mkResponse 200
            (VObj [("success", VBool true);
                   ("data", recordset Sample.batch);
                   ("rowsAffected", VNum 1)])) =
    VObj [("success", VBool true);
          ("data", recordset result);
          ("rowsAffected", first_entry (rowsAffected result))].
Proof.
  apply (proj1 (rowsAffected_is_first_entry (Sample.db false false)
                  Sample.production
                  [("query", VStr "UPDATE a; UPDATE b; UPDATE c")] Sample.warm
                  (mkResponse 200
                     (VObj [("success", VBool true);
                            ("data", recordset Sample.batch);
                            ("rowsAffected", VNum 1)]))
                  (mkWorld (Some 3)
                     [(Query (OnPool 3) [] (VStr "UPDATE a; UPDATE b; UPDATE c"),
                       Rows Sample.batch)] [])
                  eq_refl)).
  reflexivity.
Defined.

(** The error codes the [catch] blocks take for a lost connection. *)
Lemma connection_code_spec c :
  connection_code c = true <->
  c = VStr "ETIMEOUT" \/ c = VStr "ECONNCLOSED" \/ c = VStr "ECONNRESET".
Proof.
  split.
  - destruct c as [| | b | n | s | l | o | bi]; simpl; try discriminate.
    intros H. apply orb_true_iff in H. destruct H as [H | H];
      [apply orb_true_iff in H; destruct H as [H | H] |];
      apply String.eqb_eq in H; subst; auto.
  - intros [-> | [-> | ->]]; reflexivity.
Qed.

Lemma connection_code_other c :
  c <> VStr "ETIMEOUT" -> c <> VStr "ECONNCLOSED" -> c <> VStr "ECONNRESET" ->
  connection_code c = false.
Proof.
  intros H1 H2 H3. destruct (connection_code c) eqn:H; [| reflexivity].
  apply connection_code_spec in H. destruct H as [H | [H | H]]; contradiction.
Qed.

(** What a [catch] block does after an error, with the pool [p] in place:
    for a connection-class code it closes [p] and connects once, for any
    other code it calls nothing. *)
Lemma request_failed_policy drv env ep err w p :
  pool w = Some p ->
  exists evs w',
    request_failed drv env ep err w =
    (Normal (mkResponse 500
               (VObj [("success", VBool false);
                      ("error", VStr (message err));
                      ("errorCode", code err);
                      ("stack",
                       match NODE_ENV env with
                       | VStr s =>
                           if s =? "development" then VStr (stack err) else VUndefined
                       | _ => VUndefined
                       end)])), w') /\
    trace w' = trace w ++ evs /\
    Forall reconnect_event evs /\
    (code err = VStr "ETIMEOUT" \/ code err = VStr "ECONNCLOSED" \/
     code err = VStr "ECONNRESET" ->
     connects evs = 1 /\ delays evs = [] /\
     exists r1 r2 rest, evs = (Close p, r1) :: (Connect, r2) :: rest) /\
    (code err <> VStr "ETIMEOUT" -> code err <> VStr "ECONNCLOSED" ->
     code err <> VStr "ECONNRESET" -> evs = []).
Proof.
  intros Hp.
  destruct (request_failed_spec drv env ep err w) as [evs [w' [H [Ht [Hf Hc]]]]].
  rewrite Hp in Hc. simpl in Hc. rewrite orb_false_r in Hc.
  exists evs, w'. splits.
  - rewrite <- error_response_body. exact H.
  - exact Ht.
  - exact Hf.
  - intros Hcode. apply connection_code_spec in Hcode. rewrite Hcode in Hc.
    destruct Hc as [Hc Hd]. splits; [exact Hc | exact Hd |].
    assert (Hrun : trace w' =
                   trace (snd (initializePool drv 1
                                 (mkWorld (pool w) (trace w)
                                    (console w ++ [HandlerError ep err]))))).
    { revert H. unfold request_failed, reconnect_if_needed.
      unfold bind at 1. unfold console_error at 1.
      unfold bind at 1. unfold bind at 1. unfold read_pool at 1.
      cbn [pool]. rewrite Hcode. cbn [orb].
      unfold try_catch, bind.
      destruct (initializePool drv 1 _) as [[r | e] w2]; simpl;
        intros H; inversion H; reflexivity. }
    destruct (initializePool_closes_existing drv 0
                (mkWorld (pool w) (trace w) (console w ++ [HandlerError ep err])) p Hp)
      as [r1 [r2 [rest Hclose]]].
    rewrite <- Hrun, Ht in Hclose. cbn [trace] in Hclose.
    apply app_inv_head in Hclose. exists r1, r2, rest. exact Hclose.
  - intros H1 H2 H3. rewrite (connection_code_other _ H1 H2 H3) in Hc. exact Hc.
Qed.

(** C5.  When the statement of a query request (or the call of a procedure
    request, whose name line 222 first interpolates in a template literal)
    is rejected by the driver with error [err], the handler answers
    500 with the message and the code of [err].  If [err.code] is ETIMEOUT,
    ECONNCLOSED or ECONNRESET, what follows the failed statement in the trace
    is one [initializePool(1)]: it closes the pool, calls [sql.connect]
    exactly once, without a pause, and makes only the calls of a connection
    attempt, so the statement is not run again; whether that attempt
    succeeds or not, the response is the same.  For any other code nothing
    follows the failed statement. *)
Theorem statement_failure_reconnects_once drv env body w w0 p r w1 err :
  ensure_pool_initialized drv w = (Normal tt, w0) ->
  pool w0 = Some p ->
  add_parameters drv (mkRequest (OnPool p) []) (field body "params") w0 = (Normal r, w1) ->
  (truthy (field body "query") = true ->
   drv_query drv (trace w1) (OnPool p) (req_params r) (field body "query") = inl err ->
   exists evs w',
     post_api_query drv env body w =
     (Normal (mkResponse 500
                (VObj [("success", VBool false);
                       ("error", VStr (message err));
                       ("errorCode", code err);
                       ("stack",
                        match NODE_ENV env with
                        | VStr s =>
                            if s =? "development" then VStr (stack err) else VUndefined
                        | _ => VUndefined
                        end)])), w') /\
     trace w' =
     trace w1 ++ (Query (OnPool p) (req_params r) (field body "query"), Failed err) :: evs /\
     Forall reconnect_event evs /\
     (code err = VStr "ETIMEOUT" \/ code err = VStr "ECONNCLOSED" \/
      code err = VStr "ECONNRESET" ->
      connects evs = 1 /\ delays evs = [] /\
      exists r1 r2 rest, evs = (Close p, r1) :: (Connect, r2) :: rest) /\
     (code err <> VStr "ETIMEOUT" -> code err <> VStr "ECONNCLOSED" ->
      code err <> VStr "ECONNRESET" -> evs = [])) /\
  (truthy (field body "procedure") = true ->
   renders (field body "procedure") = true ->
   drv_execute drv (trace w1) (OnPool p) (req_params r) (field body "procedure") = inl err ->
   exists evs w',
     post_api_procedure drv env body w =
     (Normal (mkResponse 500
                (VObj [("success", VBool false);
                       ("error", VStr (message err));
                       ("errorCode", code err);
                       ("stack",
                        match NODE_ENV env with
                        | VStr s =>
                            if s =? "development" then VStr (stack err) else VUndefined
                        | _ => VUndefined
                        end)])), w') /\
     trace w' =
     trace w1 ++
     (Execute (OnPool p) (req_params r) (field body "procedure"), Failed err) :: evs /\
     Forall reconnect_event evs /\
     (code err = VStr "ETIMEOUT" \/ code err = VStr "ECONNCLOSED" \/
      code err = VStr "ECONNRESET" ->
      connects evs = 1 /\ delays evs = [] /\
      exists r1 r2 rest, evs = (Close p, r1) :: (Connect, r2) :: rest) /\
     (code err <> VStr "ETIMEOUT" -> code err <> VStr "ECONNCLOSED" ->
      code err <> VStr "ECONNRESET" -> evs = [])).
Proof.
  intros Hensure Hpool Hadd.
  destruct (add_parameters_keeps drv (mkRequest (OnPool p) []) (field body "params") w0)
    as [Hkeep [_ Htarget]].
  rewrite Hadd in Hkeep. simpl in Hkeep.
  specialize (Htarget r w1 Hadd). simpl in Htarget.
  assert (Hp1 : pool w1 = Some p) by (rewrite Hkeep; exact Hpool).
  split.
  - intros Hq Hfail.
    destruct (request_failed_policy drv env EQuery err
                (record (Query (OnPool p) (req_params r) (field body "query"))
                   (Failed err) w1) p Hp1)
      as [evs [w' [H [Ht [Hf [Hyes Hno]]]]]].
    exists evs, w'. splits; try assumption.
    + unfold post_api_query, try_catch. rewrite Hq. cbn [negb].
      erewrite bind_normal; [| exact Hensure].
      unfold bind at 1. unfold pool_request. rewrite Hpool.
      erewrite bind_normal; [| exact Hadd].
      unfold bind at 1. unfold request_query. rewrite Htarget, Hfail.
      exact H.
    + rewrite Ht. simpl. rewrite <- app_assoc. reflexivity.
  - intros Hq Hrenders Hfail.
    destruct (request_failed_policy drv env EProcedure err
                (record (Execute (OnPool p) (req_params r) (field body "procedure"))
                   (Failed err) w1) p Hp1)
      as [evs [w' [H [Ht [Hf [Hyes Hno]]]]]].
    exists evs, w'. splits; try assumption.
    + unfold post_api_procedure, try_catch. rewrite Hq. cbn [negb].
      erewrite bind_normal; [| exact Hensure].
      unfold bind at 1. unfold pool_request. rewrite Hpool.
      erewrite bind_normal; [| exact Hadd].
      unfold bind at 1. unfold eval at 1. unfold interpolate. rewrite Hrenders.
      unfold bind at 1. unfold request_execute. rewrite Htarget, Hfail.
      exact H.
    + rewrite Ht. simpl. rewrite <- app_assoc. reflexivity.
Qed.

Lemma statement_failure_reconnects_once_witness :
  (exists evs w' r1 r2 rest,
     post_api_query (Sample.db true false) Sample.production
       [("query", VStr "WAITFOR")] Sample.warm =
     (Normal (mkResponse 500
                (VObj [("success", VBool false);
                       ("error", VStr "Connection timed out");
                       ("errorCode", VStr "ETIMEOUT");
                       ("stack", VUndefined)])), w') /\
     trace w' =
     trace Sample.warm ++ (Query (OnPool 3) [] (VStr "WAITFOR"), Failed Sample.timeout) :: evs /\
     Forall reconnect_event evs /\
     connects evs = 1 /\ delays evs = [] /\
     evs = (Close 3, r1) :: (Connect, r2) :: rest) /\
  (exists w',
     post_api_query (Sample.db true false) Sample.production
       [("query", VStr "SELEC")] Sample.warm =
     (Normal (mkResponse 500
                (VObj [("success", VBool false);
                       ("error", VStr "Incorrect syntax near SELEC");
                       ("errorCode", VStr "EREQUEST");
                       ("stack", VUndefined)])), w') /\
     trace w' =
     trace Sample.warm ++ [(Query (OnPool 3) [] (VStr "SELEC"), Failed Sample.syntax)]).
Proof.
  split.
  - destruct (proj1 (statement_failure_reconnects_once (Sample.db true false)
                       Sample.production [("query", VStr "WAITFOR")] Sample.warm
                       Sample.warm 3 (mkRequest (OnPool 3) []) Sample.warm Sample.timeout
                       eq_refl eq_refl eq_refl) eq_refl eq_refl)
      as [evs [w' [H [Ht [Hf [Hyes _]]]]]].
    destruct (Hyes (or_introl eq_refl)) as [Hc [Hd [r1 [r2 [rest Hevs]]]]].
    exists evs, w', r1, r2, rest.
    split; [exact H | split; [exact Ht | split; [exact Hf |
      split; [exact Hc | split; [exact Hd | exact Hevs]]]]].
  - destruct (proj1 (statement_failure_reconnects_once (Sample.db true false)
                       Sample.production [("query", VStr "SELEC")] Sample.warm
                       Sample.warm 3 (mkRequest (OnPool 3) []) Sample.warm Sample.syntax
                       eq_refl eq_refl eq_refl) eq_refl eq_refl)
      as [evs [w' [H [Ht [_ [_ Hno]]]]]].
    assert (Hevs : evs = []).
    { apply Hno; discriminate. }
    subst evs. exists w'. split; [exact H | exact Ht].
Defined.

(** ** The transaction handler *)

Section Transaction.

Variable drv : Driver.
Variable env : Env.

Lemma reconnect_events_no_queries evs :
  Forall reconnect_event evs -> transaction_queries evs = [].
Proof.
  induction 1 as [| [c r] evs Hev _ IH]; simpl; [reflexivity |].
  destruct c as [| | | [p | p] ps text | | | | | |]; simpl in *;
    try contradiction; exact IH.
Qed.

Lemma reconnect_event_not_statement tx ev :
  reconnect_event ev -> statement_event tx ev -> False.
Proof.
  destruct ev as [c r]. unfold reconnect_event, statement_event. simpl.
  destruct c as [| | t | [p | p] ps text | | | | | |]; tauto.
Qed.

Lemma input_events_no_queries t evs :
  Forall (input_event t) evs -> transaction_queries evs = [].
Proof.
  induction 1 as [| [c r] evs Hev _ IH]; simpl; [reflexivity |].
  destruct c; simpl in *; try contradiction; exact IH.
Qed.

Lemma input_each_spec params ks :
  forall r w, exists out w' evs,
    input_each drv params ks r w = (out, w') /\
    trace w' = trace w ++ evs /\
    pool w' = pool w /\
    console w' = console w /\
    Forall (input_event (req_target r)) evs /\
    (forall c e0, In (c, Failed e0) evs -> out = Throw e0) /\
    (forall r', out = Normal r' -> req_target r' = req_target r).
Proof.
  induction ks as [| key ks IH]; intros r w.
  - simpl. exists (Normal r), w, []. rewrite app_nil_r. splits; try reflexivity.
    + constructor.
    + intros c e0 [].
    + intros r' H. inversion H. reflexivity.
  - rewrite input_each_step. destruct (get params key) as [v | e].
    + destruct (renders v);
        [| exists (Throw NotPrimitive), w, []; rewrite app_nil_r;
           splits; try reflexivity;
           [constructor | intros c e0 [] | discriminate]].
      unfold bind at 1. unfold request_input.
      destruct (drv_input drv (trace w) (req_target r) key v) as [e |].
      * exists (Throw e), (record (Input (req_target r) key v) (Failed e) w),
          [(Input (req_target r) key v, Failed e)].
        splits; try reflexivity.
        -- constructor; [reflexivity | constructor].
        -- intros c e0 [H | []]. inversion H. reflexivity.
        -- discriminate.
      * destruct (IH (mkRequest (req_target r) (req_params r ++ [(key, v)]))
                    (record (Input (req_target r) key v) Done w))
          as [out [w' [evs [H [Ht [Hp [Hc [Hf [Hfail Htgt]]]]]]]]].
        exists out, w', ((Input (req_target r) key v, Done) :: evs).
        splits; try assumption.
        -- rewrite Ht. simpl. rewrite <- app_assoc. reflexivity.
        -- constructor; [reflexivity | exact Hf].
        -- intros c e0 [H0 | H0]; [discriminate | eapply Hfail; exact H0].
    + exists (Throw e), w, []. rewrite app_nil_r. splits; try reflexivity.
      * constructor.
      * intros c e0 [].
      * discriminate.
Qed.

Lemma add_parameters_spec r params w :
  exists out w' evs,
    add_parameters drv r params w = (out, w') /\
    trace w' = trace w ++ evs /\
    pool w' = pool w /\
    console w' = console w /\
    Forall (input_event (req_target r)) evs /\
    (forall c e0, In (c, Failed e0) evs -> out = Throw e0) /\
    (forall r', out = Normal r' -> req_target r' = req_target r).
Proof.
  unfold add_parameters.
  destruct (truthy params && typeof_object params).
  - unfold bind, eval. destruct (keys params) as [ks | e].
    + apply input_each_spec.
    + exists (Throw e), w, []. rewrite app_nil_r. splits; try reflexivity.
      * constructor.
      * intros c e0 [].
      * discriminate.
  - exists (Normal r), w, []. rewrite app_nil_r. splits; try reflexivity.
    + constructor.
    + intros c e0 [].
    + intros r' H. inversion H. reflexivity.
Qed.

Lemma input_event_statement tx ev :
  input_event (OnTransaction tx) ev -> statement_event tx ev.
Proof.
  destruct ev as [c r]. destruct c; simpl; try tauto.
  intros ->. reflexivity.
Qed.

(** The loop over the statements: what it calls, in which order, and what
    it returns. *)
Lemma run_queries_spec tx qs :
  forall results w, exists out w' evs rs tail,
    run_queries drv tx qs results w = (out, w') /\
    trace w' = trace w ++ evs /\
    pool w' = pool w /\
    console w' = console w /\
    Forall (statement_event tx) evs /\
    (forall c e0, In (c, Failed e0) evs -> out = Throw e0) /\
    transaction_queries evs =
      combine (map query_of (firstn (List.length rs) qs)) (map Rows rs) ++ tail /\
    match out with
    | Normal results' =>
        results' = results ++ map statement_result rs /\
        List.length rs = List.length qs /\ tail = []
    | Throw err =>
        List.length rs < List.length qs /\
        (tail = [] \/
         tail = [(query_of (nth (List.length rs) qs VUndefined), Failed err)])
    end.
Proof.
  induction qs as [| queryInfo rest IH]; intros results w.
  - exists (Normal results), w, [], [], []. simpl. rewrite !app_nil_r.
    splits; try reflexivity; [constructor | intros c e0 []].
  - assert (Hstop : forall e w1 evs,
              trace w1 = trace w ++ evs -> pool w1 = pool w ->
              console w1 = console w ->
              Forall (statement_event tx) evs ->
              (forall c e0, In (c, Failed e0) evs -> Throw (A := list value) e = Throw e0) ->
              transaction_queries evs = [] ->
              exists out w' evs rs tail,
                (Throw e, w1) = (out, w') /\
                trace w' = trace w ++ evs /\
                pool w' = pool w /\
                console w' = console w /\
                Forall (statement_event tx) evs /\
                (forall c e0, In (c, Failed e0) evs -> out = Throw e0) /\
                transaction_queries evs =
                  combine (map query_of (firstn (List.length rs) (queryInfo :: rest)))
                    (map Rows rs) ++ tail /\
                match out with
                | Normal results' =>
                    results' = results ++ map statement_result rs /\
                    List.length rs = List.length (queryInfo :: rest) /\ tail = []
                | Throw err =>
                    List.length rs < List.length (queryInfo :: rest) /\
                    (tail = [] \/
                     tail = [(query_of (nth (List.length rs) (queryInfo :: rest) VUndefined),
                              Failed err)])
                end).
    { intros e w1 evs Ht Hp Hc Hs Hfail Hq.
      exists (Throw e), w1, evs, [], []. simpl.
      splits; try assumption; try reflexivity; [lia | left; reflexivity]. }
    cbn [run_queries]. unfold bind at 1. unfold eval at 1.
    destruct (get queryInfo "query") as [q | e] eqn:Hq.
    2: { apply Hstop with (evs := []); try reflexivity.
         - rewrite app_nil_r. reflexivity.
         - constructor.
         - intros c e0 []. }
    unfold bind at 1. unfold eval at 1.
    destruct (get queryInfo "params") as [params | e].
    2: { apply Hstop with (evs := []); try reflexivity.
         - rewrite app_nil_r. reflexivity.
         - constructor.
         - intros c e0 []. }
    assert (Hqo : query_of queryInfo = q) by (unfold query_of; rewrite Hq; reflexivity).
    destruct (add_parameters_spec (mkRequest (OnTransaction tx) []) params w)
      as [outa [w1 [evsa [Ha [Hta [Hpa [Hca [Hfa [Hfaila Htga]]]]]]]]].
    simpl in Hfa.
    assert (Hsa : Forall (statement_event tx) evsa)
      by (eapply Forall_impl; [apply input_event_statement | exact Hfa]).
    pose proof (input_events_no_queries _ _ Hfa) as Hqa.
    unfold bind at 1. rewrite Ha.
    destruct outa as [r | e].
    2: { apply Hstop with (evs := evsa); try assumption.
         intros c e0 H. apply Hfaila in H. inversion H. reflexivity. }
    specialize (Htga r eq_refl). simpl in Htga.
    unfold bind at 1. unfold request_query. rewrite Htga.
    destruct (drv_query drv (trace w1) (OnTransaction tx) (req_params r) q)
      as [e | res].
    + exists (Throw e),
        (record (Query (OnTransaction tx) (req_params r) q) (Failed e) w1),
        (evsa ++ [(Query (OnTransaction tx) (req_params r) q, Failed e)]), [],
        [(q, Failed e)].
      simpl. splits; try assumption.
      * reflexivity.
      * rewrite Hta, <- app_assoc. reflexivity.
      * apply Forall_app. split; [exact Hsa |].
        constructor; [reflexivity | constructor].
      * intros c e0 H. apply in_app_or in H. destruct H as [H | [H | []]].
        -- apply Hfaila in H. discriminate.
        -- inversion H. reflexivity.
      * rewrite transaction_queries_app, Hqa. reflexivity.
      * lia.
      * right. rewrite Hqo. reflexivity.
    + destruct (IH (results ++ [statement_result res])
                  (record (Query (OnTransaction tx) (req_params r) q) (Rows res) w1))
        as [out [w' [evs [rs [tail [H [Ht [Hp [Hc [Hs [Hfail [Htq Hout]]]]]]]]]]]].
      exists out, w',
        (evsa ++ (Query (OnTransaction tx) (req_params r) q, Rows res) :: evs),
        (res :: rs), tail.
      split; [exact H |].
      split; [rewrite Ht; simpl; rewrite Hta; repeat rewrite <- app_assoc; reflexivity |].
      split; [rewrite Hp; simpl; exact Hpa |].
      split; [rewrite Hc; simpl; exact Hca |].
      split; [apply Forall_app; split; [exact Hsa |];
              constructor; [reflexivity | exact Hs] |].
      split.
      { intros c e0 H0. apply in_app_or in H0. destruct H0 as [H0 | [H0 | H0]].
        - apply Hfaila in H0. discriminate.
        - discriminate.
        - eapply Hfail. exact H0. }
      split.
      { rewrite transaction_queries_app, Hqa. simpl. rewrite Htq, Hqo. reflexivity. }
      destruct out as [results' | err]; simpl.
      * destruct Hout as [Hr [Hl Htl]]. rewrite Hr, <- app_assoc.
        split; [reflexivity | split; [lia | exact Htl]].
      * destruct Hout as [Hl Htl]. split; [lia | exact Htl].
Qed.

Lemma statement_event_body tx ev : statement_event tx ev -> body_event tx ev.
Proof.
  destruct ev as [c r]. unfold statement_event, body_event. simpl.
  destruct c as [| | t | t ps text | | | | | |]; try tauto.
Qed.

Lemma body_event_statement tx tx' ev :
  body_event tx ev -> statement_event tx' ev -> tx' = tx.
Proof.
  destruct ev as [c r]. unfold statement_event, body_event. simpl.
  destruct c as [| | [p | p] k v | [p | p] ps text | | | | | |]; try tauto;
    intros -> ->; reflexivity.
Qed.

(** *** Console lines *)

Lemma connect_attempt_logs : logs (connect_attempt drv).
Proof.
  intros w. unfold connect_attempt, close_existing. unfold_m. simpl.
  repeat split_match; simpl;
    first [ exists []; rewrite app_nil_r; split; [reflexivity | constructor]
          | eexists; split; [reflexivity | repeat constructor] ].
Qed.

Lemma attempts_logs retryCount fuel :
  forall attempt, logs (attempts drv retryCount attempt fuel).
Proof.
  induction fuel as [| fuel IH]; intros attempt; simpl.
  - apply logs_quiet. reflexivity.
  - destruct (attempt <=? retryCount)%nat; [| apply logs_quiet; reflexivity].
    apply logs_try_catch; [apply connect_attempt_logs |]. intros e.
    apply logs_bind; [apply logs_console_error |]. intros _.
    apply logs_bind.
    { destruct (truthy (code e)); simpl;
        [apply logs_console_error | apply logs_quiet; reflexivity]. }
    intros _. destruct (attempt <? retryCount)%nat.
    + apply logs_bind; [apply logs_quiet; reflexivity |]. intros _. apply IH.
    + apply logs_bind; [apply logs_console_error |]. intros _.
      apply logs_quiet. reflexivity.
Qed.

Lemma reconnect_if_needed_logs err : logs (reconnect_if_needed drv err).
Proof.
  unfold reconnect_if_needed.
  apply logs_bind; [apply logs_quiet; reflexivity |]. intros p.
  destruct (connection_code (code err) || no_pool p);
    [| apply logs_quiet; reflexivity].
  apply logs_try_catch.
  - apply logs_bind; [apply attempts_logs |]. intros _. apply logs_quiet. reflexivity.
  - intros e. apply logs_console_error.
Qed.

Lemma ensure_pool_initialized_logs : logs (ensure_pool_initialized drv).
Proof.
  unfold ensure_pool_initialized. apply logs_bind; [apply logs_quiet; reflexivity |].
  intros [p |]; [apply logs_quiet; reflexivity |].
  apply logs_bind; [apply attempts_logs |]. intros _. apply logs_quiet. reflexivity.
Qed.

(** *** The [catch] block *)

(** With a transaction in hand the [catch] block rolls it back, reports a
    failed rollback on the console, may reconnect, and answers with the error
    it caught. *)
Lemma transaction_failed_rollback tx err w1 :
  exists rb evs ds w',
    transaction_failed drv env (Some tx) err w1 =
    (Normal (error_response env err), w') /\
    trace w' = trace w1 ++ (Rollback tx, rb) :: evs /\
    Forall reconnect_event evs /\
    console w' = console w1 ++ HandlerError ETransaction err :: ds /\
    (rb = Done \/ exists rbErr, rb = Failed rbErr /\ In (RollbackFailed rbErr) ds).
Proof.
  unfold transaction_failed. unfold bind at 1. unfold console_error at 1.
  unfold bind at 1. unfold try_catch, transaction_rollback, call_unit.
  destruct (drv_rollback drv _ tx) as [rbErr |]; cbn [trace pool console record].
  - unfold console_error at 1.
    match goal with
    | |- context [bind (reconnect_if_needed drv err) _ ?w2] =>
        destruct (reconnect_if_needed_spec drv err w2) as [evs [w' [H [Ht [Hf _]]]]];
        destruct (reconnect_if_needed_logs err w2) as [ds [Hd _]]
    end.
    rewrite H in Hd. simpl in Hd, Ht.
    exists (Failed rbErr), evs, (RollbackFailed rbErr :: ds), w'.
    splits.
    + erewrite bind_normal; [| exact H]. reflexivity.
    + rewrite Ht, <- app_assoc. reflexivity.
    + exact Hf.
    + rewrite Hd. repeat rewrite <- app_assoc. reflexivity.
    + right. exists rbErr. split; [reflexivity | left; reflexivity].
  - match goal with
    | |- context [bind (reconnect_if_needed drv err) _ ?w2] =>
        destruct (reconnect_if_needed_spec drv err w2) as [evs [w' [H [Ht [Hf _]]]]];
        destruct (reconnect_if_needed_logs err w2) as [ds [Hd _]]
    end.
    rewrite H in Hd. simpl in Hd, Ht.
    exists Done, evs, ds, w'.
    splits.
    + erewrite bind_normal; [| exact H]. reflexivity.
    + rewrite Ht, <- app_assoc. reflexivity.
    + exact Hf.
    + rewrite Hd. repeat rewrite <- app_assoc. reflexivity.
    + left. reflexivity.
Qed.

(** Without a transaction there is nothing to roll back. *)
Lemma transaction_failed_early err w1 :
  exists evs ds w',
    transaction_failed drv env None err w1 =
    (Normal (error_response env err), w') /\
    trace w' = trace w1 ++ evs /\
    Forall reconnect_event evs /\
    console w' = console w1 ++ ds.
Proof.
  unfold transaction_failed. unfold bind at 1. unfold console_error at 1.
  unfold bind at 1. unfold ret at 1.
  match goal with
  | |- context [bind (reconnect_if_needed drv err) _ ?w2] =>
      destruct (reconnect_if_needed_spec drv err w2) as [evs [w' [H [Ht [Hf _]]]]];
      destruct (reconnect_if_needed_logs err w2) as [ds [Hd _]]
  end.
  rewrite H in Hd. simpl in Hd, Ht.
  exists evs, (HandlerError ETransaction err :: ds), w'.
  splits.
  - erewrite bind_normal; [| exact H]. reflexivity.
  - exact Ht.
  - exact Hf.
  - rewrite Hd, <- app_assoc. reflexivity.
Qed.

(** *** The [try] block, once the transaction exists *)

Lemma transaction_body_spec tx qs w0 :
  exists out w1 evs rs tail,
    transaction_body drv tx qs w0 = (out, w1) /\
    trace w1 = trace w0 ++ evs /\
    console w1 = console w0 /\
    Forall (body_event tx) evs /\
    (forall c e0, In (c, Failed e0) evs -> out = Throw e0) /\
    transaction_queries evs =
      combine (map query_of (firstn (List.length rs) qs)) (map Rows rs) ++ tail /\
    List.length rs <= List.length qs /\
    match out with
    | Normal resp =>
        resp = mkResponse 200
                 (VObj [("success", VBool true);
                        ("results", VArr (map statement_result rs))]) /\
        List.length rs = List.length qs /\ tail = [] /\
        exists pre, evs = pre ++ [(Commit tx, Done)]
    | Throw err =>
        tail = [] \/
        (List.length rs < List.length qs /\
         tail = [(query_of (nth (List.length rs) qs VUndefined), Failed err)])
    end.
Proof.
  unfold transaction_body. unfold bind at 1. unfold transaction_begin, call_unit.
  destruct (drv_begin drv (trace w0) tx) as [e |].
  - exists (Throw e), (record (Begin tx) (Failed e) w0), [(Begin tx, Failed e)],
      [], [].
    splits; try reflexivity.
    + constructor; [reflexivity | constructor].
    + intros c e0 [H | []]. inversion H. reflexivity.
    + simpl. lia.
    + left. reflexivity.
  - destruct (run_queries_spec tx qs [] (record (Begin tx) Done w0))
      as [out [w1 [evs [rs [tail [H [Ht [Hp [Hc [Hs [Hfail [Htq Hout]]]]]]]]]]]].
    assert (Hb : Forall (body_event tx) evs)
      by (eapply Forall_impl; [apply statement_event_body | exact Hs]).
    unfold bind at 1. rewrite H.
    destruct out as [results | err].
    + destruct Hout as [Hr [Hl Htl]]. simpl in Hr. subst results tail.
      unfold bind at 1. unfold transaction_commit, call_unit.
      destruct (drv_commit drv (trace w1) tx) as [e |].
      * exists (Throw e), (record (Commit tx) (Failed e) w1),
          ((Begin tx, Done) :: evs ++ [(Commit tx, Failed e)]), rs, [].
        splits.
        -- reflexivity.
        -- simpl. rewrite Ht. simpl. repeat rewrite <- app_assoc. reflexivity.
        -- simpl. rewrite Hc. reflexivity.
        -- constructor; [reflexivity |]. apply Forall_app.
           split; [exact Hb | constructor; [reflexivity | constructor]].
        -- intros c e0 [H0 | H0]; [discriminate |].
           apply in_app_or in H0. destruct H0 as [H0 | [H0 | []]].
           ++ apply Hfail in H0. discriminate.
           ++ inversion H0. reflexivity.
        -- change ((Begin tx, Done) :: evs ++ [(Commit tx, Failed e)])
             with ([(Begin tx, Done)] ++ evs ++ [(Commit tx, Failed e)]).
           rewrite !transaction_queries_app, Htq. simpl. rewrite !app_nil_r.
           reflexivity.
        -- lia.
        -- left. reflexivity.
      * exists (Normal (mkResponse 200
                          (VObj [("success", VBool true);
                                 ("results", VArr (map statement_result rs))]))),
          (record (Commit tx) Done w1),
          ((Begin tx, Done) :: evs ++ [(Commit tx, Done)]), rs, [].
        splits.
        -- reflexivity.
        -- simpl. rewrite Ht. simpl. repeat rewrite <- app_assoc. reflexivity.
        -- simpl. rewrite Hc. reflexivity.
        -- constructor; [reflexivity |]. apply Forall_app.
           split; [exact Hb | constructor; [reflexivity | constructor]].
        -- intros c e0 [H0 | H0]; [discriminate |].
           apply in_app_or in H0. destruct H0 as [H0 | [H0 | []]].
           ++ apply Hfail in H0. discriminate.
           ++ discriminate.
        -- change ((Begin tx, Done) :: evs ++ [(Commit tx, Done)])
             with ([(Begin tx, Done)] ++ evs ++ [(Commit tx, Done)]).
           rewrite !transaction_queries_app, Htq. simpl. rewrite !app_nil_r.
           reflexivity.
        -- lia.
        -- reflexivity.
        -- exact Hl.
        -- reflexivity.
        -- exists ((Begin tx, Done) :: evs). reflexivity.
    + destruct Hout as [Hl Htl].
      exists (Throw err), w1, ((Begin tx, Done) :: evs), rs, tail.
      splits.
      * reflexivity.
      * rewrite Ht. simpl. rewrite <- app_assoc. reflexivity.
      * rewrite Hc. reflexivity.
      * constructor; [reflexivity | exact Hb].
      * intros c e0 [H0 | H0]; [discriminate |].
        apply Hfail in H0. inversion H0. reflexivity.
      * simpl. exact Htq.
      * lia.
      * destruct Htl as [Htl | Htl]; [left; exact Htl | right; split; [exact Hl | exact Htl]].
Qed.

(** *** The whole handler *)

Lemma transaction_setup_valid body w qs :
  field body "queries" = VArr qs -> qs <> [] ->
  transaction_setup drv body w =
  match ensure_pool_initialized drv w with
  | (Normal _, w0) =>
      match pool w0 with
      | Some p => (Normal (inr p), w0)
      | None => (Throw TypeError, w0)
      end
  | (Throw e, w0) => (Throw e, w0)
  end.
Proof.
  intros Hq Hne. unfold transaction_setup. rewrite Hq.
  destruct qs as [| q qs]; [contradiction |]. simpl.
  unfold bind at 1. destruct (ensure_pool_initialized drv w) as [[u | e] w0]; [| reflexivity].
  unfold bind, read_pool. destruct (pool w0); reflexivity.
Qed.

Lemma post_api_transaction_spec body w qs :
  field body "queries" = VArr qs -> qs <> [] ->
  exists resp w' evs ds rs tail,
    post_api_transaction drv env body w = (Normal resp, w') /\
    trace w' = trace w ++ evs /\
    console w' = console w ++ ds /\
    transaction_queries evs =
      combine (map query_of (firstn (List.length rs) qs)) (map Rows rs) ++ tail /\
    List.length rs <= List.length qs /\
    ((exists tx pre,
        evs = pre ++ [(Commit tx, Done)] /\
        resp = mkResponse 200
                 (VObj [("success", VBool true);
                        ("results", VArr (map statement_result rs))]) /\
        List.length rs = List.length qs /\ tail = [] /\
        (forall tx' c e, statement_event tx' (c, Failed e) ->
                         In (c, Failed e) evs -> False))
     \/
     (exists err,
        resp = error_response env err /\
        (tail = [] \/
         (List.length rs < List.length qs /\
          tail = [(query_of (nth (List.length rs) qs VUndefined), Failed err)])) /\
        (forall tx' c e, statement_event tx' (c, Failed e) ->
                         In (c, Failed e) evs ->
           e = err /\
           exists rb, In (Rollback tx', rb) evs /\
             forall rbErr, rb = Failed rbErr -> In (RollbackFailed rbErr) ds))).
Proof.
  intros Hq Hne. unfold post_api_transaction.
  unfold bind at 1. unfold try_catch at 1.
  rewrite (transaction_setup_valid body w qs Hq Hne).
  destruct (ensure_pool_initialized_emits drv w) as [evs0 [Ht0 Hf0]].
  destruct (ensure_pool_initialized_logs w) as [ds0 [Hd0 _]].
  assert (Hnot : forall tx' c e, statement_event tx' (c, Failed e) ->
                   In (c, Failed e) evs0 -> False).
  { intros tx' c e Hs Hin. rewrite Forall_forall in Hf0.
    eapply reconnect_event_not_statement; [apply Hf0; exact Hin | exact Hs]. }
  destruct (ensure_pool_initialized drv w) as [[[] | err] w0] eqn:He; simpl in Ht0, Hd0.
  - destruct (ensure_pool_initialized_normal drv w w0 He) as [tx Htx]. rewrite Htx.
    cbn [ret]. rewrite Hq.
    destruct (transaction_body_spec tx qs w0)
      as [out [w1 [evsb [rs [tail [Hb [Ht1 [Hc1 [Hfb [Hfail [Htq [Hlen Hout]]]]]]]]]]]].
    unfold try_catch. rewrite Hb.
    destruct out as [resp | err].
    + destruct Hout as [Hr [Hl [Htl [pre Hpre]]]].
      exists resp, w1, (evs0 ++ evsb), ds0, rs, tail.
      splits.
      * reflexivity.
      * rewrite Ht1, Ht0, app_assoc. reflexivity.
      * rewrite Hc1. exact Hd0.
      * rewrite transaction_queries_app, (reconnect_events_no_queries _ Hf0).
        exact Htq.
      * exact Hlen.
      * left. exists tx, (evs0 ++ pre). splits.
        -- rewrite Hpre, app_assoc. reflexivity.
        -- exact Hr.
        -- exact Hl.
        -- exact Htl.
        -- intros tx' c e Hs Hin. apply in_app_or in Hin.
           destruct Hin as [Hin | Hin]; [eapply Hnot; eassumption |].
           apply Hfail in Hin. discriminate.
    + destruct (transaction_failed_rollback tx err w1)
        as [rb [evsr [dsr [w' [Hfl [Ht2 [Hfr [Hd2 Hrb]]]]]]]].
      rewrite Hfl.
      exists (error_response env err), w',
        (evs0 ++ evsb ++ (Rollback tx, rb) :: evsr),
        (ds0 ++ HandlerError ETransaction err :: dsr), rs, tail.
      splits.
      * reflexivity.
      * rewrite Ht2, Ht1, Ht0. repeat rewrite <- app_assoc. reflexivity.
      * rewrite Hd2, Hc1, Hd0. rewrite <- app_assoc. reflexivity.
      * change ((Rollback tx, rb) :: evsr) with ([(Rollback tx, rb)] ++ evsr).
        rewrite !transaction_queries_app, (reconnect_events_no_queries _ Hf0),
          (reconnect_events_no_queries _ Hfr), Htq.
        simpl. rewrite app_nil_r. reflexivity.
      * exact Hlen.
      * right. exists err. splits.
        -- reflexivity.
        -- exact Hout.
        -- intros tx' c e Hs Hin. apply in_app_or in Hin.
           destruct Hin as [Hin | Hin]; [exfalso; eapply Hnot; eassumption |].
           apply in_app_or in Hin. destruct Hin as [Hin | [Hin | Hin]].
           ++ assert (tx' = tx).
              { rewrite Forall_forall in Hfb.
                eapply body_event_statement; [apply Hfb; exact Hin | exact Hs]. }
              subst tx'. apply Hfail in Hin. inversion Hin; subst.
              split; [reflexivity |].
              exists rb. split.
              ** apply in_or_app. right. apply in_or_app. right. left. reflexivity.
              ** intros rbErr Hrb'. destruct Hrb as [Hrb | [e' [Hrb Hin']]];
                   rewrite Hrb in Hrb'; [discriminate |].
                 inversion Hrb'; subst. apply in_or_app. right. right. exact Hin'.
           ++ inversion Hin; subst. contradiction Hs.
           ++ exfalso. rewrite Forall_forall in Hfr.
              eapply reconnect_event_not_statement; [apply Hfr; exact Hin | exact Hs].
  - destruct (transaction_failed_early err w0)
      as [evsr [dsr [w' [Hfl [Ht2 [Hfr Hd2]]]]]].
    unfold bind at 1. rewrite Hfl. cbn [ret].
    exists (error_response env err), w', (evs0 ++ evsr), (ds0 ++ dsr), [], [].
    splits.
    + reflexivity.
    + rewrite Ht2, Ht0, app_assoc. reflexivity.
    + rewrite Hd2, Hd0, app_assoc. reflexivity.
    + rewrite transaction_queries_app, (reconnect_events_no_queries _ Hf0),
        (reconnect_events_no_queries _ Hfr). reflexivity.
    + simpl. lia.
    + right. exists err. splits.
      * reflexivity.
      * left. reflexivity.
      * intros tx' c e Hs Hin. exfalso. apply in_app_or in Hin.
        destruct Hin as [Hin | Hin]; [eapply Hnot; eassumption |].
        rewrite Forall_forall in Hfr.
        eapply reconnect_event_not_statement; [apply Hfr; exact Hin | exact Hs].
Qed.

End Transaction.

Lemma snd_combine_same_length {A B} (l1 : list A) (l2 : list B) :
  List.length l1 = List.length l2 -> map snd (combine l1 l2) = l2.
Proof.
  revert l2. induction l1 as [| a l1 IH]; intros [| b l2] H; simpl in *;
    try discriminate; try reflexivity.
  rewrite IH; [reflexivity | lia].
Qed.


(** C1.  A transaction request with a non-empty [queries] array always gets
    a response, and that response is all or nothing.  A 200 response is only
    sent when the last call of the handler is a commit that succeeded, and it
    carries, for every statement, the [recordset] of its result as [data] and
    the first of its affected counts as [rowsAffected].  Any other response
    is a 500 whose body holds [success: false], the message, the code and
    possibly the stack of one error, and no [results] at all.  When a
    statement (binding a parameter, or the query itself) fails with an error,
    the 500 response carries the message and the code of that very error and
    a rollback is called; if the rollback fails too, its error is written on
    the console and the response still carries the statement's error. *)
Theorem transaction_all_or_nothing drv env body w qs :
  field body "queries" = VArr qs -> qs <> [] ->
  exists resp w' evs ds,
    post_api_transaction drv env body w = (Normal resp, w') /\
    trace w' = trace w ++ evs /\
    console w' = console w ++ ds /\
    (status resp = 200%Z ->
     exists tx pre rs,
       evs = pre ++ [(Commit tx, Done)] /\
       map snd (transaction_queries evs) = map Rows rs /\
       List.length rs = List.length qs /\
       json resp =
       VObj [("success", VBool true);
             ("results",
              VArr (map (fun r => VObj [("data", recordset r);
                                        ("rowsAffected",
                                         match rowsAffected r with
                                         | n :: _ => VNum n
                                         | [] => VUndefined
                                         end)]) rs))]) /\
    (status resp <> 200%Z ->
     results_of resp = None /\
     exists err stack,
       resp = mkResponse 500
                (VObj [("success", VBool false);
                       ("error", VStr (message err));
                       ("errorCode", code err);
                       ("stack", stack)])) /\
    (forall tx c e,
       statement_event tx (c, Failed e) -> In (c, Failed e) evs ->
       resp = mkResponse 500
                (VObj [("success", VBool false);
                       ("error", VStr (message e));
                       ("errorCode", code e);
                       ("stack",
                        match NODE_ENV env with
                        | VStr s =>
                            if s =? "development" then VStr (stack e) else VUndefined
                        | _ => VUndefined
                        end)]) /\
       exists rb, In (Rollback tx, rb) evs /\
         forall rbErr, rb = Failed rbErr -> In (RollbackFailed rbErr) ds).
Proof.
  intros Hq Hne.
  destruct (post_api_transaction_spec drv env body w qs Hq Hne)
    as [resp [w' [evs [ds [rs [tail [H [Ht [Hd [Htq [Hlen Hcases]]]]]]]]]]].
  exists resp, w', evs, ds. splits; try assumption.
  - intros Hs. destruct Hcases as [[tx [pre [Hpre [Hr [Hl [Htl Hnone]]]]]] | [err [Hr _]]].
    + exists tx, pre, rs. splits; try assumption.
      * rewrite Htq, Htl, app_nil_r, Hl, firstn_all.
        apply snd_combine_same_length. rewrite !length_map. symmetry. exact Hl.
      * rewrite Hr. reflexivity.
    + rewrite Hr in Hs. discriminate.
  - intros Hs. destruct Hcases as [[tx [pre [Hpre [Hr _]]]] | [err [Hr _]]].
    + rewrite Hr in Hs. contradiction Hs. reflexivity.
    + rewrite Hr. split; [reflexivity |].
      exists err. eexists. apply error_response_body.
  - intros tx c e Hs Hin.
    destruct Hcases as [[tx0 [pre [_ [_ [_ [_ Hnone]]]]]] | [err [Hr [_ Hfail]]]].
    + exfalso. eapply Hnone; eassumption.
    + destruct (Hfail tx c e Hs Hin) as [-> Hrb].
      split; [rewrite Hr; apply error_response_body | exact Hrb].
Qed.

Lemma transaction_all_or_nothing_witness :
  exists resp w' evs ds,
    post_api_transaction (Sample.db false true) Sample.production
      [("queries", VArr Sample.three_statements)] Sample.warm = (Normal resp, w') /\
    trace w' = trace Sample.warm ++ evs /\
    console w' = console Sample.warm ++ ds /\
    (status resp = 200%Z ->
     exists tx pre rs,
       evs = pre ++ [(Commit tx, Done)] /\
       map snd (transaction_queries evs) = map Rows rs /\
       List.length rs = List.length Sample.three_statements /\
       json resp =
       VObj [("success", VBool true);
             ("results",
              VArr (map (fun r => VObj [("data", recordset r);
                                        ("rowsAffected",
                                         match rowsAffected r with
                                         | n :: _ => VNum n
                                         | [] => VUndefined
                                         end)]) rs))]) /\
    (status resp <> 200%Z ->
     results_of resp = None /\
     exists err stack,
       resp = mkResponse 500
                (VObj [("success", VBool false);
                       ("error", VStr (message err));
                       ("errorCode", code err);
                       ("stack", stack)])) /\
    (forall tx c e,
       statement_event tx (c, Failed e) -> In (c, Failed e) evs ->
       resp = mkResponse 500
                (VObj [("success", VBool false);
                       ("error", VStr (message e));
                       ("errorCode", code e);
                       ("stack", VUndefined)]) /\
       exists rb, In (Rollback tx, rb) evs /\
         forall rbErr, rb = Failed rbErr -> In (RollbackFailed rbErr) ds).
Proof.
  apply (transaction_all_or_nothing (Sample.db false true) Sample.production
           [("queries", VArr Sample.three_statements)] Sample.warm
           Sample.three_statements).
  - reflexivity.
  - discriminate.
Defined.



(** A request that finds no pool and an unreachable database: the guard
    uses its 5 attempts, and the [catch] block then makes one more with
    [initializePool(1)]. *)
Example unreachable_database_one_more_attempt :
  let run := post_api_query (Sample.db true false) Sample.production
               [("query", VStr "SELECT 1")] Sample.cold in
  fst run = Normal (error_response Sample.production Sample.timeout) /\
  connects (trace (snd run)) = 6 /\
  delays (trace (snd run)) = [2000; 4000; 6000; 8000]%Z.
Proof. vm_compute. repeat split; reflexivity. Qed.

(** The fuel [initializePool] gives its loop is enough: with more of it the
    loop does the same. *)
Lemma attempts_fuel_enough drv retryCount fuel :
  forall attempt extra w,
    attempt + fuel = retryCount + 1 ->
    attempts drv retryCount attempt (fuel + extra) w =
    attempts drv retryCount attempt fuel w.
Proof.
  induction fuel as [| fuel IH]; intros attempt extra w Hsum.
  - destruct extra as [| extra]; [reflexivity |]. simpl.
    replace (attempt <=? retryCount)%nat with false
      by (symmetry; apply Nat.leb_gt; lia).
    reflexivity.
  - cbn [attempts Nat.add].
    destruct (attempt <=? retryCount)%nat; [| reflexivity].
    unfold try_catch. destruct (connect_attempt drv w) as [[r | e] w1];
      [reflexivity |].
    unfold bind, console_error, when, ret, sleep.
    destruct (truthy (code e)); destruct (attempt <? retryCount)%nat;
      cbn beta iota; try reflexivity; apply IH; lia.
Qed.

(** * Further properties of the code *)

(** ** [initializePool] *)

Section InitializePoolMore.

Variable drv : Driver.

Lemma connect_attempt_success w r w' :
  connect_attempt drv w = (Normal r, w') ->
  exists p pre res,
    r = Some p /\ pool w' = Some p /\
    trace w' =
    trace w ++ pre ++
    [(Connect, Connected p);
     (Query (OnPool p) [] (VStr "SELECT @@VERSION AS version"), Rows res)] /\
    connects pre = 0 /\ delays pre = [].
Proof.
  unfold connect_attempt, close_existing. unfold_m. simpl.
  repeat split_match; intros H; inversion H; subst; simpl;
    repeat rewrite <- app_assoc; simpl; eexists;
    first [ exists []; eexists; splits; reflexivity
          | match goal with
            | |- context [(Close ?q, ?rep)] =>
                exists [(Close q, rep)]; eexists; splits; reflexivity
            end ].
Qed.

Lemma attempts_success retryCount fuel :
  forall attempt w r w',
    attempts drv retryCount attempt fuel w = (Normal r, w') ->
    attempt + fuel = retryCount + 1 -> 1 <= fuel ->
    exists p k pre res,
      r = Some p /\ pool w' = Some p /\
      trace w' =
      trace w ++ pre ++
      [(Connect, Connected p);
       (Query (OnPool p) [] (VStr "SELECT @@VERSION AS version"), Rows res)] /\
      connects pre = k /\ k < fuel /\
      delays pre = map (fun i => (2000 * Z.of_nat i)%Z) (seq attempt k).
Proof.
  induction fuel as [| fuel IH]; intros attempt w r w' H Hsum Hpos; [lia |].
  cbn [attempts] in H.
  replace (attempt <=? retryCount)%nat with true in H
    by (symmetry; apply Nat.leb_le; lia).
  apply try_catch_inv in H. destruct H as [[a [H Ha]] | [e [w1 [H1 H2]]]].
  - inversion Ha; subst a.
    destruct (connect_attempt_success w r w' H) as [p [pre [res [Hr [Hp [Ht [Hc Hd]]]]]]].
    exists p, 0, pre, res. splits; try assumption; lia.
  - destruct (connect_attempt_calls drv w) as [evs1 [Ht1 [Hc1 Hd1]]].
    rewrite H1 in Ht1. simpl in Ht1.
    destruct (attempt <? retryCount)%nat eqn:Hlt.
    + apply Nat.ltb_lt in Hlt.
      assert (Hrec : exists w2,
                 trace w2 = trace w1 ++ [(Delay (2000 * Z.of_nat attempt), Done)] /\
                 attempts drv retryCount (S attempt) fuel w2 = (Normal r, w')).
      { unfold bind, console_error, when, ret, sleep, record in H2.
        destruct (truthy (code e)); cbn beta iota in H2;
          eexists; (split; [| exact H2]); reflexivity. }
      destruct Hrec as [w2 [Ht2 Hrec]].
      destruct (IH (S attempt) w2 r w' Hrec ltac:(lia) ltac:(lia))
        as [p [k [pre [res [Hr [Hp [Ht [Hc [Hk Hd]]]]]]]]].
      exists p, (S k), (evs1 ++ (Delay (2000 * Z.of_nat attempt), Done) :: pre), res.
      splits; try assumption.
      * rewrite Ht, Ht2, Ht1. repeat rewrite <- app_assoc. reflexivity.
      * rewrite connects_app, Hc1. unfold connects in *. simpl. rewrite Hc.
        reflexivity.
      * lia.
      * rewrite delays_app, Hd1. cbn [delays app seq map]. rewrite Hd. reflexivity.
    + unfold bind, console_error, when, ret, throw in H2.
      destruct (truthy (code e)); cbn beta iota in H2; discriminate.
Qed.

End InitializePoolMore.

(** X1.  When [initializePool] returns, the pool it returns and leaves in
    [pool] is the one its last [sql.connect] resolved to; that connect and the
    validation query are its last two calls; each of the [k] failed attempts
    before it was followed by a pause of 2000 ms times its number, and there
    were fewer than [retryCount] of them. *)
Theorem initializePool_returns_last_connection drv n w r w' :
  initializePool drv n w = (Normal r, w') ->
  1 <= n ->
  exists p k pre res,
    r = Some p /\ pool w' = Some p /\
    trace w' =
    trace w ++ pre ++
    [(Connect, Connected p);
     (Query (OnPool p) [] (VStr "SELECT @@VERSION AS version"), Rows res)] /\
    connects pre = k /\ k < n /\
    delays pre = map (fun i => (2000 * Z.of_nat i)%Z) (seq 1 k).
Proof.
  intros H Hn. unfold initializePool in H.
  apply (attempts_success drv n n 1 w r w' H); lia.
Qed.

Lemma initializePool_returns_last_connection_witness :
  exists p k pre res,
    Some 7 = Some p /\
    pool (snd (initializePool (Scenario.recovering 2) 5 Sample.warm)) = Some p /\
    trace (snd (initializePool (Scenario.recovering 2) 5 Sample.warm)) =
    trace Sample.warm ++ pre ++
    [(Connect, Connected p);
     (Query (OnPool p) [] (VStr "SELECT @@VERSION AS version"), Rows res)] /\
    connects pre = k /\ k < 5 /\
    delays pre = map (fun i => (2000 * Z.of_nat i)%Z) (seq 1 k).
Proof.
  apply (initializePool_returns_last_connection (Scenario.recovering 2) 5
           Sample.warm (Some 7)
           (snd (initializePool (Scenario.recovering 2) 5 Sample.warm))).
  - reflexivity.
  - lia.
Defined.

(** X2.  [initializePool] can throw and still leave a pool behind: when the
    connection is accepted but the validation query is rejected on the last
    attempt, the error of the query is thrown while [pool] holds the new,
    unvalidated pool; the guard of the request handlers then finds a pool and
    does not initialize again. *)
Theorem initializePool_throws_with_pool_installed drv w w1 p e :
  close_existing drv w = (Normal tt, w1) ->
  drv_connect drv (trace w1) = inr p ->
  drv_query drv (trace w1 ++ [(Connect, Connected p)]) (OnPool p) []
    (VStr "SELECT @@VERSION AS version") = inl e ->
  exists w',
    initializePool drv 1 w = (Throw e, w') /\
    pool w' = Some p /\
    trace w' =
    trace w1 ++
    [(Connect, Connected p);
     (Query (OnPool p) [] (VStr "SELECT @@VERSION AS version"), Failed e)] /\
    ensure_pool_initialized drv w' = (Normal tt, w').
Proof.
  intros Hclose Hconnect Hprobe.
  unfold initializePool. cbn [attempts Nat.leb Nat.ltb]. unfold try_catch.
  unfold connect_attempt.
  erewrite bind_normal; [| exact Hclose].
  unfold bind at 1. unfold sql_connect. rewrite Hconnect.
  unfold bind at 1. unfold write_pool. cbn [trace pool console record].
  unfold bind at 1. unfold pool_request. cbn [pool].
  unfold bind at 1. unfold request_query. cbn [req_target req_params trace].
  rewrite Hprobe.
  unfold bind, console_error, when, ret, throw, record.
  destruct (truthy (code e)); cbn beta iota; eexists;
    (split; [reflexivity |]); cbn [pool trace];
    (split; [reflexivity |]);
    (split; [rewrite <- app_assoc; reflexivity |]);
    unfold ensure_pool_initialized, bind, read_pool, ret; reflexivity.
Qed.

Lemma initializePool_throws_with_pool_installed_witness :
  exists w',
    initializePool (Scenario.db 0 false false false) 1 Sample.warm =
    (Throw Sample.timeout, w') /\
    pool w' = Some 7 /\
    trace w' =
    trace (mkWorld (Some 3) [(Close 3, Done)] []) ++
    [(Connect, Connected 7);
     (Query (OnPool 7) [] (VStr "SELECT @@VERSION AS version"), Failed Sample.timeout)] /\
    ensure_pool_initialized (Scenario.db 0 false false false) w' = (Normal tt, w').
Proof.
  apply (initializePool_throws_with_pool_installed
           (Scenario.db 0 false false false) Sample.warm
           (mkWorld (Some 3) [(Close 3, Done)] []) 7 Sample.timeout);
    reflexivity.
Defined.

(** X3.  A validation query that is answered without a first row counts as a
    failed attempt: reading [recordset[0].version] throws a [TypeError], which
    [initializePool(1)] rethrows, although the database accepted the
    connection and answered the query. *)
Theorem empty_validation_result_fails_attempt drv w w1 p res :
  close_existing drv w = (Normal tt, w1) ->
  drv_connect drv (trace w1) = inr p ->
  drv_query drv (trace w1 ++ [(Connect, Connected p)]) (OnPool p) []
    (VStr "SELECT @@VERSION AS version") = inr res ->
  get (recordset res) "0" = Normal VUndefined ->
  exists w',
    initializePool drv 1 w = (Throw TypeError, w') /\
    pool w' = Some p /\
    trace w' =
    trace w1 ++
    [(Connect, Connected p);
     (Query (OnPool p) [] (VStr "SELECT @@VERSION AS version"), Rows res)].
Proof.
  intros Hclose Hconnect Hprobe Hrow.
  unfold initializePool. cbn [attempts Nat.leb Nat.ltb]. unfold try_catch.
  unfold connect_attempt.
  erewrite bind_normal; [| exact Hclose].
  unfold bind at 1. unfold sql_connect. rewrite Hconnect.
  unfold bind at 1. unfold write_pool. cbn [trace pool console record].
  unfold bind at 1. unfold pool_request. cbn [pool].
  unfold bind at 1. unfold request_query. cbn [req_target req_params trace].
  rewrite Hprobe.
  unfold bind at 1. unfold eval at 1. rewrite Hrow.
  unfold bind at 1. unfold eval at 1. cbn [get].
  unfold bind, console_error, when, ret, throw, record. cbn.
  eexists. splits; try reflexivity.
  cbn. rewrite <- app_assoc. reflexivity.
Qed.

Lemma empty_validation_result_fails_attempt_witness :
  exists w',
    initializePool (Scenario.db 1 false false false) 1 Sample.cold =
    (Throw TypeError, w') /\
    pool w' = Some 7 /\
    trace w' =
    trace Sample.cold ++
    [(Connect, Connected 7);
     (Query (OnPool 7) [] (VStr "SELECT @@VERSION AS version"), Rows Scenario.no_rows)].
Proof.
  apply (empty_validation_result_fails_attempt
           (Scenario.db 1 false false false) Sample.cold Sample.cold 7
           Scenario.no_rows);
    reflexivity.
Defined.

Lemma grows_after_try {A X} (proj : World -> list X) (P : X -> Prop)
    (m : M A) h w :
  (forall e, grows proj P (h e)) ->
  exists xs, proj (snd (try_catch m h w)) = proj (snd (m w)) ++ xs.
Proof.
  intros Hh. unfold try_catch. destruct (m w) as [[a | e] w1]; simpl.
  - exists []. rewrite app_nil_r. reflexivity.
  - destruct (Hh e w1) as [xs [Hx _]]. exists xs. exact Hx.
Qed.

Lemma connect_attempt_close_failed drv w p e :
  pool w = Some p ->
  drv_close drv (trace w) p = Some e ->
  exists r evs ds,
    trace (snd (connect_attempt drv w)) =
    trace w ++ (Close p, Failed e) :: (Connect, r) :: evs /\
    console (snd (connect_attempt drv w)) =
    console w ++ CloseError (message e) :: ds.
Proof.
  intros Hp He. unfold connect_attempt, close_existing. unfold_m. simpl.
  rewrite Hp. simpl. rewrite He. simpl.
  repeat split_match; repeat rewrite <- app_assoc; simpl;
    do 2 eexists; exists []; split; reflexivity.
Qed.

(** X4.  A stale pool that cannot be closed does not stop a reconnect:
    [initializePool] reports the failed [close] on the console and goes on to
    call [sql.connect]. *)
Theorem stale_pool_close_failure_ignored drv n w p e :
  pool w = Some p ->
  drv_close drv (trace w) p = Some e ->
  exists r evs ds,
    trace (snd (initializePool drv (S n) w)) =
    trace w ++ (Close p, Failed e) :: (Connect, r) :: evs /\
    console (snd (initializePool drv (S n) w)) =
    console w ++ CloseError (message e) :: ds.
Proof.
  intros Hp He.
  destruct (connect_attempt_close_failed drv w p e Hp He)
    as [r [evs [ds [Ht Hc]]]].
  unfold initializePool. cbn [attempts Nat.leb].
  match goal with
  | |- context [try_catch (connect_attempt drv) ?h w] =>
      destruct (grows_after_try trace reconnect_event (connect_attempt drv) h w)
        as [evs' Ht'];
      [| destruct (grows_after_try console (fun _ => True) (connect_attempt drv) h w)
           as [ds' Hc'] ]
  end.
  - intros err.
    apply emits_bind; [apply emits_console_error |]. intros _.
    apply emits_bind; [apply emits_when, emits_console_error |]. intros _.
    destruct (1 <? S n)%nat.
    + apply emits_bind; [apply emits_sleep; intros rep; exact I |]. intros _.
      apply attempts_emits.
    + apply emits_bind; [apply emits_console_error | intros _; apply emits_throw].
  - intros err.
    apply logs_bind; [apply logs_console_error |]. intros _.
    apply logs_bind.
    { destruct (truthy (code err)); simpl;
        [apply logs_console_error | apply logs_quiet; reflexivity]. }
    intros _. destruct (1 <? S n)%nat.
    + apply logs_bind; [apply logs_quiet; reflexivity |]. intros _.
      apply attempts_logs.
    + apply logs_bind; [apply logs_console_error |]. intros _.
      apply logs_quiet. reflexivity.
  - exists r, (evs ++ evs'), (ds ++ ds'). split.
    + rewrite Ht', Ht. rewrite <- app_assoc. reflexivity.
    + rewrite Hc', Hc. rewrite <- app_assoc. reflexivity.
Qed.

Lemma stale_pool_close_failure_ignored_witness :
  exists r evs ds,
    trace (snd (initializePool (Scenario.db 2 false false true) 1 Sample.warm)) =
    trace Sample.warm ++ (Close 3, Failed Scenario.refused) :: (Connect, r) :: evs /\
    console (snd (initializePool (Scenario.db 2 false false true) 1 Sample.warm)) =
    console Sample.warm ++ CloseError (message Scenario.refused) :: ds.
Proof.
  apply (stale_pool_close_failure_ignored (Scenario.db 2 false false true) 0
           Sample.warm 3 Scenario.refused);
    reflexivity.
Defined.

(** ** The health endpoint *)

Lemma health_state drv env w :
  snd (get_api_health drv env w) =
  match pool w with
  | None => w
  | Some p =>
      match drv_query drv (trace w) (OnPool p) [] (VStr "SELECT 1 AS result") with
      | inr res => record (Query (OnPool p) [] (VStr "SELECT 1 AS result")) (Rows res) w
      | inl e =>
          snd (initializePool drv 1
                 (record (Query (OnPool p) [] (VStr "SELECT 1 AS result")) (Failed e) w))
      end
  end.
Proof.
  unfold get_api_health. unfold bind at 1. unfold try_catch at 1.
  unfold bind at 1. unfold read_pool at 1.
  destruct (pool w) as [p |] eqn:Hp; [| reflexivity].
  unfold bind at 1. unfold pool_request. rewrite Hp.
  unfold bind at 1. unfold request_query. cbn [req_target req_params].
  destruct (drv_query drv (trace w) (OnPool p) [] (VStr "SELECT 1 AS result"))
    as [e | res]; [| reflexivity].
  unfold bind at 1. unfold try_catch at 1. unfold bind at 1.
  destruct (initializePool drv 1 _) as [[r | e'] w2]; reflexivity.
Qed.

(** X5.  What the health check does to the database.  Without a pool it
    touches nothing and does not try to create one.  With a pool it sends one
    probe query; if the probe is answered nothing else happens and the pool is
    kept; if the probe fails, whatever the error code, one [initializePool(1)]
    follows: it closes the existing pool and calls [sql.connect] once, without
    a pause. *)
Theorem health_database_traffic drv env w :
  match pool w with
  | None => snd (get_api_health drv env w) = w
  | Some p =>
      exists reply evs,
        trace (snd (get_api_health drv env w)) =
        trace w ++ (Query (OnPool p) [] (VStr "SELECT 1 AS result"), reply) :: evs /\
        match reply with
        | Rows _ => evs = [] /\ pool (snd (get_api_health drv env w)) = Some p
        | Failed _ =>
            (exists r1 r2 rest, evs = (Close p, r1) :: (Connect, r2) :: rest) /\
            connects evs = 1 /\ delays evs = [] /\ Forall reconnect_event evs
        | _ => False
        end
  end.
Proof.
  rewrite health_state.
  destruct (pool w) as [p |] eqn:Hp; [| reflexivity].
  destruct (drv_query drv (trace w) (OnPool p) [] (VStr "SELECT 1 AS result"))
    as [e | res].
  - set (w1 := record (Query (OnPool p) [] (VStr "SELECT 1 AS result")) (Failed e) w).
    assert (Hp1 : pool w1 = Some p) by exact Hp.
    destruct (initializePool_once drv w1) as [evs [Ht [Hc [Hd Hf]]]].
    destruct (initializePool_closes_existing drv 0 w1 p Hp1) as [r1 [r2 [rest Hcl]]].
    assert (Hevs : evs = (Close p, r1) :: (Connect, r2) :: rest).
    { rewrite Ht in Hcl. eapply app_inv_head. exact Hcl. }
    exists (Failed e), evs. split.
    + rewrite Ht. unfold w1. simpl. rewrite <- app_assoc. reflexivity.
    + split; [exists r1, r2, rest; exact Hevs | splits; assumption].
  - exists (Rows res), []. simpl. split; [reflexivity | split; [reflexivity | exact Hp]].
Qed.

(** ** What every request handler answers *)

Section Answers.

Variable drv : Driver.
Variable env : Env.

Lemma post_api_query_answer body w :
  exists resp w',
    post_api_query drv env body w = (Normal resp, w') /\
    ((status resp = 200%Z /\ stack_of resp = None) \/
     (status resp = 400%Z /\ stack_of resp = None) \/
     exists err, resp = error_response env err).
Proof.
  unfold post_api_query, try_catch.
  match goal with
  | |- context [match ?m w with _ => _ end] => destruct (m w) as [[resp | err] w1] eqn:H
  end.
  - exists resp, w1. split; [reflexivity |].
    destruct (truthy (field body "query")); simpl in H;
      [| inversion H; subst; right; left; split; reflexivity].
    apply bind_inv in H. destruct H as [[u [w2 [_ H]]] | [e [_ H]]]; [| discriminate].
    apply bind_inv in H. destruct H as [[r0 [w3 [_ H]]] | [e [_ H]]]; [| discriminate].
    apply bind_inv in H. destruct H as [[r [w4 [_ H]]] | [e [_ H]]]; [| discriminate].
    apply bind_inv in H. destruct H as [[res [w5 [_ H]]] | [e [_ H]]]; [| discriminate].
    inversion H; subst. left. split; reflexivity.
  - destruct (request_failed_spec drv env EQuery err w1) as [evs [w' [Hf _]]].
    exists (error_response env err), w'. split; [exact Hf |].
    right. right. exists err. reflexivity.
Qed.

Lemma post_api_procedure_answer body w :
  exists resp w',
    post_api_procedure drv env body w = (Normal resp, w') /\
    ((status resp = 200%Z /\ stack_of resp = None) \/
     (status resp = 400%Z /\ stack_of resp = None) \/
     exists err, resp = error_response env err).
Proof.
  unfold post_api_procedure, try_catch.
  match goal with
  | |- context [match ?m w with _ => _ end] => destruct (m w) as [[resp | err] w1] eqn:H
  end.
  - exists resp, w1. split; [reflexivity |].
    destruct (truthy (field body "procedure")); simpl in H;
      [| inversion H; subst; right; left; split; reflexivity].
    apply bind_inv in H. destruct H as [[u [w2 [_ H]]] | [e [_ H]]]; [| discriminate].
    apply bind_inv in H. destruct H as [[r0 [w3 [_ H]]] | [e [_ H]]]; [| discriminate].
    apply bind_inv in H. destruct H as [[r [w4 [_ H]]] | [e [_ H]]]; [| discriminate].
    apply bind_inv in H. destruct H as [[u' [w4' [_ H]]] | [e [_ H]]]; [| discriminate].
    apply bind_inv in H. destruct H as [[res [w5 [_ H]]] | [e [_ H]]]; [| discriminate].
    inversion H; subst. left. split; reflexivity.
  - destruct (request_failed_spec drv env EProcedure err w1) as [evs [w' [Hf _]]].
    exists (error_response env err), w'. split; [exact Hf |].
    right. right. exists err. reflexivity.
Qed.

Lemma post_api_bulk_answer body w :
  exists resp w',
    post_api_bulk drv env body w = (Normal resp, w') /\
    ((status resp = 200%Z /\ stack_of resp = None) \/
     (status resp = 400%Z /\ stack_of resp = None) \/
     exists err, resp = error_response env err).
Proof.
  unfold post_api_bulk, try_catch.
  match goal with
  | |- context [match ?m w with _ => _ end] => destruct (m w) as [[resp | err] w1] eqn:H
  end.
  - exists resp, w1. split; [reflexivity |].
    destruct (negb (truthy (field body "table")) || negb (truthy (field body "data"))
              || negb (isArray (field body "data")) || empty_array (field body "data"));
      simpl in H; [inversion H; subst; right; left; split; reflexivity |].
    apply bind_inv in H. destruct H as [[u0 [w2' [_ H]]] | [e [_ H]]]; [| discriminate].
    apply bind_inv in H. destruct H as [[u [w2 [_ H]]] | [e [_ H]]]; [| discriminate].
    apply bind_inv in H. destruct H as [[t [w3 [_ H]]] | [e [_ H]]]; [| discriminate].
    apply bind_inv in H. destruct H as [[r [w4 [_ H]]] | [e [_ H]]]; [| discriminate].
    apply bind_inv in H. destruct H as [[res [w5 [_ H]]] | [e [_ H]]]; [| discriminate].
    inversion H; subst. left. split; reflexivity.
  - destruct (request_failed_spec drv env EBulk err w1) as [evs [w' [Hf _]]].
    exists (error_response env err), w'. split; [exact Hf |].
    right. right. exists err. reflexivity.
Qed.

(** The [queries] of a body are either refused by the validation or a
    non-empty array. *)
Lemma queries_checked body :
  (negb (truthy (field body "queries")) || negb (isArray (field body "queries"))
   || empty_array (field body "queries") = true) \/
  exists qs, field body "queries" = VArr qs /\ qs <> [].
Proof.
  destruct (field body "queries") as [| | b | n | s | [| q qs] | o | [p k | []]];
    try (left; simpl; rewrite ?orb_true_r; reflexivity).
  right. exists (q :: qs). split; [reflexivity | discriminate].
Qed.

Lemma post_api_transaction_refused body w :
  negb (truthy (field body "queries")) || negb (isArray (field body "queries"))
  || empty_array (field body "queries") = true ->
  post_api_transaction drv env body w =
  (Normal (mkResponse 400 (VObj [("error", VStr "Valid queries array is required")])), w).
Proof.
  intros H. unfold post_api_transaction, bind, try_catch, transaction_setup.
  rewrite H. reflexivity.
Qed.

Lemma post_api_transaction_answer body w :
  exists resp w',
    post_api_transaction drv env body w = (Normal resp, w') /\
    ((status resp = 200%Z /\ stack_of resp = None) \/
     (status resp = 400%Z /\ stack_of resp = None) \/
     exists err, resp = error_response env err).
Proof.
  destruct (queries_checked body) as [H | [qs [Hq Hne]]].
  - rewrite (post_api_transaction_refused body w H).
    do 2 eexists. split; [reflexivity |]. right. left. split; reflexivity.
  - destruct (post_api_transaction_spec drv env body w qs Hq Hne)
      as [resp [w' [evs [ds [rs [tail [H [_ [_ [_ [_ Hcases]]]]]]]]]]].
    exists resp, w'. split; [exact H |].
    destruct Hcases as [[tx [pre [_ [Hr _]]]] | [err [Hr _]]].
    + left. rewrite Hr. split; reflexivity.
    + right. right. exists err. exact Hr.
Qed.

End Answers.

(** X6.  Every request handler answers: whatever the body, the state of the
    pool and the behaviour of the driver, the query, procedure, bulk and
    transaction handlers complete with a response of status 200, 400 or 500;
    no error leaves them for the error-handling middleware. *)
Theorem handlers_always_respond drv env body w :
  (exists resp w', post_api_query drv env body w = (Normal resp, w') /\
     (status resp = 200 \/ status resp = 400 \/ status resp = 500)%Z) /\
  (exists resp w', post_api_procedure drv env body w = (Normal resp, w') /\
     (status resp = 200 \/ status resp = 400 \/ status resp = 500)%Z) /\
  (exists resp w', post_api_bulk drv env body w = (Normal resp, w') /\
     (status resp = 200 \/ status resp = 400 \/ status resp = 500)%Z) /\
  (exists resp w', post_api_transaction drv env body w = (Normal resp, w') /\
     (status resp = 200 \/ status resp = 400 \/ status resp = 500)%Z).
Proof.
  assert (Hstatus : forall resp,
            (status resp = 200%Z /\ stack_of resp = None) \/
            (status resp = 400%Z /\ stack_of resp = None) \/
            (exists err, resp = error_response env err) ->
            (status resp = 200 \/ status resp = 400 \/ status resp = 500)%Z).
  { intros resp [[H _] | [[H _] | [err H]]].
    - left. exact H.
    - right. left. exact H.
    - right. right. rewrite H. reflexivity. }
  splits.
  - destruct (post_api_query_answer drv env body w) as [resp [w' [H Hc]]].
    exists resp, w'. split; [exact H | apply Hstatus; exact Hc].
  - destruct (post_api_procedure_answer drv env body w) as [resp [w' [H Hc]]].
    exists resp, w'. split; [exact H | apply Hstatus; exact Hc].
  - destruct (post_api_bulk_answer drv env body w) as [resp [w' [H Hc]]].
    exists resp, w'. split; [exact H | apply Hstatus; exact Hc].
  - destruct (post_api_transaction_answer drv env body w) as [resp [w' [H Hc]]].
    exists resp, w'. split; [exact H | apply Hstatus; exact Hc].
Qed.

(** X7.  Unless [NODE_ENV] is ['development'], no response of the query,
    procedure, bulk or transaction handler carries a stack trace: the body has
    no [stack] property or it is [undefined]. *)
Theorem no_stack_outside_development drv env body w resp w' :
  NODE_ENV env <> VStr "development" ->
  post_api_query drv env body w = (Normal resp, w') \/
  post_api_procedure drv env body w = (Normal resp, w') \/
  post_api_bulk drv env body w = (Normal resp, w') \/
  post_api_transaction drv env body w = (Normal resp, w') ->
  stack_of resp = None \/ stack_of resp = Some VUndefined.
Proof.
  intros Henv Hrun.
  assert (Hdev : development env = false).
  { unfold development. destruct (NODE_ENV env) as [| | b | n | s | l | o | bi];
      try reflexivity.
    apply String.eqb_neq. intros ->. apply Henv. reflexivity. }
  assert (Hstack : forall r,
            (status r = 200%Z /\ stack_of r = None) \/
            (status r = 400%Z /\ stack_of r = None) \/
            (exists err, r = error_response env err) ->
            stack_of r = None \/ stack_of r = Some VUndefined).
  { intros r [[_ H] | [[_ H] | [err H]]].
    - left. exact H.
    - left. exact H.
    - right. rewrite H. unfold stack_of, error_response. simpl.
      rewrite Hdev. reflexivity. }
  apply Hstack.
  destruct Hrun as [H | [H | [H | H]]].
  - destruct (post_api_query_answer drv env body w) as [r [w1 [H1 Hc]]].
    rewrite H in H1. inversion H1; subst. exact Hc.
  - destruct (post_api_procedure_answer drv env body w) as [r [w1 [H1 Hc]]].
    rewrite H in H1. inversion H1; subst. exact Hc.
  - destruct (post_api_bulk_answer drv env body w) as [r [w1 [H1 Hc]]].
    rewrite H in H1. inversion H1; subst. exact Hc.
  - destruct (post_api_transaction_answer drv env body w) as [r [w1 [H1 Hc]]].
    rewrite H in H1. inversion H1; subst. exact Hc.
Qed.

Lemma no_stack_outside_development_witness :
  stack_of (error_response Sample.production Sample.syntax) = None \/
  stack_of (error_response Sample.production Sample.syntax) = Some VUndefined.
Proof.
  apply (no_stack_outside_development (Sample.db false false) Sample.production
           [("query", VStr "SELEC")] Sample.warm
           (error_response Sample.production Sample.syntax)
           (mkWorld (Some 3)
              [(Query (OnPool 3) [] (VStr "SELEC"), Failed Sample.syntax)]
              [HandlerError EQuery Sample.syntax])).
  - discriminate.
  - left. reflexivity.
Defined.

(** ** Binding parameters *)

Lemma lookup_unique k v :
  forall pre post,
    NoDup (map fst (pre ++ (k, v) :: post)) ->
    lookup k (pre ++ (k, v) :: post) = Some v.
Proof.
  induction pre as [| [k' v'] pre IH]; intros post Hnd; simpl.
  - rewrite String.eqb_refl. reflexivity.
  - simpl in Hnd. inversion Hnd as [| x l Hnotin Hnd']; subst.
    destruct (String.eqb_spec k' k) as [-> | Hneq].
    + exfalso. apply Hnotin. rewrite map_app. apply in_or_app. right. left.
      reflexivity.
    + apply IH. exact Hnd'.
Qed.

Lemma input_each_object drv o :
  forall suffix pre r w r' w',
    o = pre ++ suffix ->
    NoDup (map fst o) ->
    input_each drv (VObj o) (map fst suffix) r w = (Normal r', w') ->
    req_params r' = req_params r ++ suffix /\
    req_target r' = req_target r /\
    trace w' =
    trace w ++ map (fun kv => (Input (req_target r) (fst kv) (snd kv), Done)) suffix.
Proof.
  induction suffix as [| [k v] suffix IH]; intros pre r w r' w' Ho Hnd H.
  - simpl in H. inversion H; subst. simpl. rewrite !app_nil_r. auto.
  - cbn [map fst] in H. rewrite input_each_step in H. cbn [get] in H.
    assert (Hl : lookup k o = Some v) by (subst o; apply lookup_unique; exact Hnd).
    rewrite Hl in H.
    destruct (renders v); [| discriminate].
    unfold bind at 1 in H. unfold request_input in H.
    destruct (drv_input drv (trace w) (req_target r) k v) as [e |];
      [discriminate |].
    destruct (IH (pre ++ [(k, v)]) _ _ r' w'
                ltac:(rewrite <- app_assoc; exact Ho) Hnd H)
      as [Hp [Htg Ht]].
    cbn [req_params req_target] in Hp, Htg, Ht.
    splits.
    + rewrite Hp, <- app_assoc. reflexivity.
    + exact Htg.
    + rewrite Ht. cbn [trace record map fst snd]. rewrite <- app_assoc. reflexivity.
Qed.

(** X8.  How [params] reaches the request.  A value that is falsy or not an
    object binds nothing.  An object binds each of its properties once, under
    its own name and with its own value, in the order of its keys: when the
    binding completes (every value is interpolated by the log line and every
    [request.input] is accepted), the parameters of the request are exactly
    the properties of the object, one [input] call each, and the pool is not
    touched. *)
Theorem parameters_bound_by_name drv r params w :
  (truthy params && typeof_object params = false ->
   add_parameters drv r params w = (Normal r, w)) /\
  (forall o r' w',
     params = VObj o ->
     NoDup (map fst o) ->
     add_parameters drv r params w = (Normal r', w') ->
     req_params r' = req_params r ++ o /\
     req_target r' = req_target r /\
     trace w' =
     trace w ++ map (fun kv => (Input (req_target r) (fst kv) (snd kv), Done)) o /\
     pool w' = pool w).
Proof.
  split.
  - intros H. unfold add_parameters. rewrite H. reflexivity.
  - intros o r' w' -> Hnd H.
    destruct (add_parameters_keeps drv r (VObj o) w) as [Hpool _].
    rewrite H in Hpool. simpl in Hpool.
    unfold add_parameters in H. cbn [truthy typeof_object andb keys] in H.
    unfold bind, eval in H.
    destruct (input_each_object drv o o [] r w r' w' eq_refl Hnd H)
      as [Hp [Htg Ht]].
    auto.
Qed.

Lemma parameters_bound_by_name_witness :
  req_params (mkRequest (OnPool 3) [("id", VNum 7); ("name", VStr "Ann")]) =
  req_params (mkRequest (OnPool 3) []) ++ [("id", VNum 7); ("name", VStr "Ann")] /\
  req_target (mkRequest (OnPool 3) [("id", VNum 7); ("name", VStr "Ann")]) =
  req_target (mkRequest (OnPool 3) []) /\
  trace (mkWorld (Some 3)
           [(Input (OnPool 3) "id" (VNum 7), Done);
            (Input (OnPool 3) "name" (VStr "Ann"), Done)] []) =
  trace Sample.warm ++
  map (fun kv => (Input (req_target (mkRequest (OnPool 3) [])) (fst kv) (snd kv), Done))
    [("id", VNum 7); ("name", VStr "Ann")] /\
  pool (mkWorld (Some 3)
          [(Input (OnPool 3) "id" (VNum 7), Done);
           (Input (OnPool 3) "name" (VStr "Ann"), Done)] []) = pool Sample.warm.
Proof.
  apply (proj2 (parameters_bound_by_name (Sample.db false false)
                  (mkRequest (OnPool 3) [])
                  (VObj [("id", VNum 7); ("name", VStr "Ann")]) Sample.warm)
           [("id", VNum 7); ("name", VStr "Ann")]).
  - reflexivity.
  - repeat constructor; simpl; intuition discriminate.
  - reflexivity.
Defined.

(** X9.  A parameter that cannot be bound stops the request before the
    statement: when binding the parameters of a query request throws
    ([request.input] refuses one, or the log line cannot interpolate its
    value), the handler answers 500 with that error, only [input] calls were
    made after the guard and the statement is never sent; unless the error
    is connection-class nothing else is called. *)
Theorem rejected_parameter_stops_request drv env body w w0 p e w1 :
  truthy (field body "query") = true ->
  ensure_pool_initialized drv w = (Normal tt, w0) ->
  pool w0 = Some p ->
  add_parameters drv (mkRequest (OnPool p) []) (field body "params") w0 = (Throw e, w1) ->
  exists ins evs w',
    post_api_query drv env body w = (Normal (error_response env e), w') /\
    trace w1 = trace w0 ++ ins /\
    Forall (input_event (OnPool p)) ins /\
    trace w' = trace w1 ++ evs /\
    Forall reconnect_event evs /\
    (connection_code (code e) = false -> evs = []).
Proof.
  intros Hq Hensure Hpool Hadd.
  destruct (add_parameters_spec drv (mkRequest (OnPool p) []) (field body "params") w0)
    as [out [w2 [ins [Ha [Ht [Hp [_ [Hf _]]]]]]]].
  rewrite Hadd in Ha. inversion Ha; subst out w2.
  destruct (request_failed_spec drv env EQuery e w1) as [evs [w' [H [Ht' [Hf' Hc]]]]].
  exists ins, evs, w'. splits; try assumption.
  - unfold post_api_query, try_catch. rewrite Hq. cbn [negb].
    erewrite bind_normal; [| exact Hensure].
    unfold bind at 1. unfold pool_request. rewrite Hpool.
    erewrite bind_throw; [| exact Hadd].
    exact H.
  - intros Hcode. rewrite Hcode, Hp, Hpool in Hc. exact Hc.
Qed.

Lemma rejected_parameter_stops_request_witness :
  exists ins evs w',
    post_api_query (Scenario.db 2 false false false) Sample.production
      [("query", VStr "SELECT @a"); ("params", VObj [("id", VNum 1); ("a b", VNum 2)])]
      Sample.warm =
    (Normal (error_response Sample.production Scenario.injection), w') /\
    trace (mkWorld (Some 3)
             [(Input (OnPool 3) "id" (VNum 1), Done);
              (Input (OnPool 3) "a b" (VNum 2), Failed Scenario.injection)] []) =
    trace Sample.warm ++ ins /\
    Forall (input_event (OnPool 3)) ins /\
    trace w' =
    trace (mkWorld (Some 3)
             [(Input (OnPool 3) "id" (VNum 1), Done);
              (Input (OnPool 3) "a b" (VNum 2), Failed Scenario.injection)] []) ++ evs /\
    Forall reconnect_event evs /\
    (connection_code (code Scenario.injection) = false -> evs = []).
Proof.
  apply (rejected_parameter_stops_request (Scenario.db 2 false false false)
           Sample.production
           [("query", VStr "SELECT @a");
            ("params", VObj [("id", VNum 1); ("a b", VNum 2)])]
           Sample.warm Sample.warm 3 Scenario.injection);
    reflexivity.
Defined.

(** ** The bulk handler *)

Lemma row_values_length item columns :
  forall values,
    row_values item columns = Normal values ->
    List.length values = List.length columns.
Proof.
  induction columns as [| c columns IH]; intros values H; simpl in H.
  - inversion H. reflexivity.
  - destruct (get item c) as [v | e]; [| discriminate].
    destruct (row_values item columns) as [vs | e]; [| discriminate].
    inversion H; subst. simpl. rewrite (IH vs eq_refl). reflexivity.
Qed.

Lemma row_values_throws item columns e :
  row_values item columns = Throw e -> e = TypeError.
Proof.
  induction columns as [| c columns IH]; simpl; [discriminate |].
  destruct (get item c) as [v | e'] eqn:Hg.
  - destruct (row_values item columns) as [vs | e'']; [discriminate |].
    intros H. inversion H; subst. apply IH. reflexivity.
  - intros H. inversion H; subst.
    destruct item; simpl in Hg; try discriminate;
      try (inversion Hg; reflexivity);
      repeat match type of Hg with
             | context [match ?x with _ => _ end] => destruct x
             end; discriminate.
Qed.

Lemma add_rows_shape columns data :
  forall t t',
    add_rows t columns data = Normal t' ->
    tbl_name t' = tbl_name t /\
    tbl_columns t' = tbl_columns t /\
    exists added,
      tbl_rows t' = tbl_rows t ++ added /\
      List.length added = List.length data /\
      Forall (fun row => List.length row = List.length columns) added.
Proof.
  induction data as [| item data IH]; intros t t' H; simpl in H.
  - inversion H; subst. splits; try reflexivity.
    exists []. rewrite app_nil_r. splits; [reflexivity | reflexivity | constructor].
  - destruct (row_values item columns) as [values | e] eqn:Hv; [| discriminate].
    destruct (IH _ _ H) as [Hn [Hc [added [Hr [Hl Hf]]]]].
    simpl in Hn, Hc, Hr. splits; try assumption.
    exists (values :: added). splits.
    + rewrite Hr, <- app_assoc. reflexivity.
    + simpl. rewrite Hl. reflexivity.
    + constructor; [eapply row_values_length; exact Hv | exact Hf].
Qed.

Lemma add_rows_null columns data :
  In VNull data -> columns <> [] ->
  forall t, add_rows t columns data = Throw TypeError.
Proof.
  intros Hin Hne. induction data as [| item data IH]; [contradiction |].
  intros t. simpl.
  destruct (row_values item columns) as [values | e] eqn:Hv.
  - destruct Hin as [-> | Hin].
    + destruct columns as [| c columns]; [contradiction |]. discriminate.
    + apply IH. exact Hin.
  - apply row_values_throws in Hv. subst. reflexivity.
Qed.

(** X10.  Whatever the rows are (objects, arrays, strings, numbers), a table
    that the bulk handler manages to build is rectangular: it is named after
    the request's table, has one row per element of [data], every row has
    exactly as many values as the table has columns, and every column is a
    nullable [VarChar(MAX)]. *)
Theorem bulk_table_is_rectangular drv table items tbl :
  build_bulk_table drv table (VArr items) = Normal tbl ->
  tbl_name tbl = table /\
  List.length (tbl_rows tbl) = List.length items /\
  Forall (fun row => List.length row = List.length (tbl_columns tbl)) (tbl_rows tbl) /\
  Forall text_column (tbl_columns tbl).
Proof.
  unfold build_bulk_table, new_table.
  destruct (get (VArr items) "0") as [first | e]; [| discriminate].
  destruct (keys first) as [columns | e]; [| discriminate].
  destruct (drv_table drv table) as [e |]; [discriminate |].
  rewrite add_columns_spec. cbn [tbl_name tbl_columns tbl_rows app].
  intros H. destruct (add_rows_shape _ _ _ _ H) as [Hn [Hc [added [Hr [Hl Hf]]]]].
  cbn [tbl_name tbl_columns tbl_rows app] in Hn, Hc, Hr.
  splits.
  - exact Hn.
  - rewrite Hr. exact Hl.
  - rewrite Hr, Hc, length_map. exact Hf.
  - rewrite Hc. apply Forall_forall. intros c Hin.
    apply in_map_iff in Hin. destruct Hin as [k [<- _]]. split; reflexivity.
Qed.

Lemma bulk_table_is_rectangular_witness :
  tbl_name (mkTable (VStr "t") [mkColumn "0" VarCharMax true; mkColumn "1" VarCharMax true]
              [[VNum 5; VNum 6]; [VStr "a"; VStr "b"]; [VUndefined; VUndefined]]) =
  VStr "t" /\
  List.length
    (tbl_rows (mkTable (VStr "t")
                 [mkColumn "0" VarCharMax true; mkColumn "1" VarCharMax true]
                 [[VNum 5; VNum 6]; [VStr "a"; VStr "b"]; [VUndefined; VUndefined]])) =
  List.length [VArr [VNum 5; VNum 6]; VStr "ab"; VNum 9] /\
  Forall (fun row =>
            List.length row =
            List.length [mkColumn "0" VarCharMax true; mkColumn "1" VarCharMax true])
    [[VNum 5; VNum 6]; [VStr "a"; VStr "b"]; [VUndefined; VUndefined]] /\
  Forall text_column [mkColumn "0" VarCharMax true; mkColumn "1" VarCharMax true].
Proof.
  apply (bulk_table_is_rectangular (Sample.db false false) (VStr "t")
           [VArr [VNum 5; VNum 6]; VStr "ab"; VNum 9]
           (mkTable (VStr "t")
              [mkColumn "0" VarCharMax true; mkColumn "1" VarCharMax true]
              [[VNum 5; VNum 6]; [VStr "a"; VStr "b"]; [VUndefined; VUndefined]])).
  reflexivity.
Defined.

Lemma reconnect_events_no_bulk evs :
  Forall reconnect_event evs -> bulk_writes evs = 0.
Proof.
  induction 1 as [| [c r] evs Hev _ IH]; [reflexivity |].
  unfold bulk_writes in *. destruct c; simpl in *; try contradiction; exact IH.
Qed.

(** X11.  One [null] row spoils the whole bulk request before anything is
    written: when the first row is an object with at least one key and some
    later row is [null], the handler answers 500 and makes no bulk call, so
    no row of the request reaches the database.  With a table name that is
    interpolated without error and that the library accepts, the error is
    the [TypeError] and the handler makes no call at all after the guard. *)
Theorem bulk_null_row_writes_nothing drv env body w w0 p first rest :
  truthy (field body "table") = true ->
  field body "data" = VArr (VObj first :: rest) ->
  first <> [] ->
  In VNull rest ->
  ensure_pool_initialized drv w = (Normal tt, w0) ->
  pool w0 = Some p ->
  exists err w' evs,
    post_api_bulk drv env body w = (Normal (error_response env err), w') /\
    trace w' = trace w ++ evs /\
    bulk_writes evs = 0 /\
    (renders (field body "table") = true ->
     drv_table drv (field body "table") = None ->
     err = TypeError /\ trace w' = trace w0 /\ pool w' = pool w0).
Proof.
  intros Htable Hdata Hfirst Hnull Hensure Hpool.
  assert (Hvalid :
    negb (truthy (field body "table")) || negb (truthy (field body "data"))
    || negb (isArray (field body "data")) || empty_array (field body "data") = false)
    by (rewrite Htable, Hdata; reflexivity).
  destruct (renders (field body "table")) eqn:Hrenders.
  - destruct (ensure_pool_initialized_emits drv w) as [evs0 [Ht0 Hf0]].
    rewrite Hensure in Ht0. cbn [snd] in Ht0.
    rewrite (post_api_bulk_valid drv env body w w0 Hvalid Hrenders Hensure).
    unfold try_catch.
    destruct (drv_table drv (field body "table")) as [e |] eqn:Hname.
    + destruct (request_failed_spec drv env EBulk e w0) as [evs [w' [H [Ht [Hf _]]]]].
      exists e, w', (evs0 ++ evs). splits.
      * rewrite Hdata, (build_bulk_table_rejected drv _ _ _ e Hname).
        unfold bind at 1. unfold eval. exact H.
      * rewrite Ht, Ht0, app_assoc. reflexivity.
      * apply reconnect_events_no_bulk. apply Forall_app. split; assumption.
      * intros _ Hnone. discriminate.
    + assert (Hbuild : build_bulk_table drv (field body "table") (field body "data") =
                       Throw TypeError).
      { rewrite Hdata. unfold build_bulk_table, new_table.
        assert (Hget : get (VArr (VObj first :: rest)) "0" = Normal (VObj first))
          by reflexivity.
        rewrite Hget, Hname. cbn [keys].
        apply add_rows_null.
        - right. exact Hnull.
        - destruct first; [contradiction | discriminate]. }
      exists TypeError.
      rewrite Hbuild. unfold bind at 1. unfold eval.
      unfold request_failed, bind, console_error, reconnect_if_needed, read_pool, ret.
      cbn [pool trace console code TypeError connection_code orb].
      rewrite Hpool. cbn [no_pool]. eexists. exists evs0.
      splits; try reflexivity.
      * cbn [trace]. exact Ht0.
      * apply reconnect_events_no_bulk. exact Hf0.
      * intros _ _. splits; reflexivity.
  - destruct (request_failed_spec drv env EBulk NotPrimitive w)
      as [evs [w' [H [Ht [Hf _]]]]].
    exists NotPrimitive, w', evs. splits.
    + unfold post_api_bulk. rewrite Hvalid. unfold try_catch, interpolate.
      rewrite Hrenders. unfold bind at 1. unfold eval at 1. exact H.
    + exact Ht.
    + apply reconnect_events_no_bulk. exact Hf.
    + intros Hr. discriminate.
Qed.

Lemma bulk_null_row_writes_nothing_witness :
  exists w',
    post_api_bulk (Sample.db false false) Sample.production
      [("table", VStr "t"); ("data", VArr [VObj [("a", VNum 1)]; VNull])] Sample.warm =
    (Normal (error_response Sample.production TypeError), w') /\
    trace w' = trace Sample.warm /\
    pool w' = pool Sample.warm.
Proof.
  destruct (bulk_null_row_writes_nothing (Sample.db false false) Sample.production
              [("table", VStr "t"); ("data", VArr [VObj [("a", VNum 1)]; VNull])]
              Sample.warm Sample.warm 3 [("a", VNum 1)] [VNull]
              eq_refl eq_refl ltac:(discriminate) (or_introl eq_refl) eq_refl eq_refl)
    as [err [w' [evs [H [_ [_ Hc]]]]]].
  destruct (Hc eq_refl eq_refl) as [Herr [Ht Hp]].
  exists w'. subst err.
  split; [exact H | split; [exact Ht | exact Hp]].
Defined.

(** X12.  A bulk request whose table name is interpolated without error
    and whose table could be built makes exactly one bulk write.  When the driver accepts it the response is 200 and its
    [rowsAffected] is the driver's [rowsAffected] as it is (not its first
    entry), and nothing else is called.  When the driver rejects it the
    response is the 500 built from that error (its message and code),
    followed by one [initializePool(1)] if the code of the error is
    ETIMEOUT, ECONNCLOSED or ECONNRESET and by nothing otherwise. *)
Theorem bulk_write_outcome drv env body w w0 p tbl :
  negb (truthy (field body "table")) || negb (truthy (field body "data"))
  || negb (isArray (field body "data")) || empty_array (field body "data") = false ->
  renders (field body "table") = true ->
  ensure_pool_initialized drv w = (Normal tt, w0) ->
  pool w0 = Some p ->
  build_bulk_table drv (field body "table") (field body "data") = Normal tbl ->
  drv_table drv (field body "table") = None /\
  match drv_bulk drv (trace w0) (OnPool p) tbl with
  | inr affected =>
      post_api_bulk drv env body w =
      (Normal (mkResponse 200
                 (VObj [("success", VBool true); ("rowsAffected", affected)])),
       record (Bulk (OnPool p) tbl) (Loaded affected) w0)
  | inl err =>
      exists evs w',
        post_api_bulk drv env body w =
        (Normal (mkResponse 500
                   (VObj [("success", VBool false);
                          ("error", VStr (message err));
                          ("errorCode", code err);
                          ("stack",
                           match NODE_ENV env with
                           | VStr s =>
                               if s =? "development" then VStr (stack err)
                               else VUndefined
                           | _ => VUndefined
                           end)])), w') /\
        trace w' = trace w0 ++ (Bulk (OnPool p) tbl, Failed err) :: evs /\
        Forall reconnect_event evs /\
        bulk_writes evs = 0 /\
        (code err = VStr "ETIMEOUT" \/ code err = VStr "ECONNCLOSED" \/
         code err = VStr "ECONNRESET" ->
         connects evs = 1 /\ delays evs = []) /\
        (code err <> VStr "ETIMEOUT" -> code err <> VStr "ECONNCLOSED" ->
         code err <> VStr "ECONNRESET" -> evs = [])
  end.
Proof.
  intros Hvalid Hrenders Hensure Hpool Hbuild.
  assert (Hname : drv_table drv (field body "table") = None).
  { revert Hbuild. unfold build_bulk_table, new_table.
    destruct (get (field body "data") "0") as [first | e]; [| discriminate].
    destruct (keys first) as [columns | e]; [| discriminate].
    destruct (drv_table drv (field body "table")); [discriminate | reflexivity]. }
  split; [exact Hname |].
  assert (Hrun :
    post_api_bulk drv env body w =
    match drv_bulk drv (trace w0) (OnPool p) tbl with
    | inr affected =>
        (Normal (mkResponse 200
                   (VObj [("success", VBool true); ("rowsAffected", affected)])),
         record (Bulk (OnPool p) tbl) (Loaded affected) w0)
    | inl err =>
        request_failed drv env EBulk err (record (Bulk (OnPool p) tbl) (Failed err) w0)
    end).
  { rewrite (post_api_bulk_valid drv env body w w0 Hvalid Hrenders Hensure).
    unfold try_catch.
    rewrite Hbuild. unfold bind at 1. unfold eval.
    unfold bind at 1. unfold pool_request. rewrite Hpool.
    unfold bind at 1. unfold request_bulk. cbn [req_target].
    destruct (drv_bulk drv (trace w0) (OnPool p) tbl); reflexivity. }
  rewrite Hrun.
  destruct (drv_bulk drv (trace w0) (OnPool p) tbl) as [err | affected].
  - destruct (request_failed_spec drv env EBulk err
                (record (Bulk (OnPool p) tbl) (Failed err) w0))
      as [evs [w' [H [Ht [Hf Hc]]]]].
    simpl in Hc. rewrite Hpool in Hc. simpl in Hc. rewrite orb_false_r in Hc.
    rewrite error_response_body in H.
    exists evs, w'.
    splits.
    + exact H.
    + rewrite Ht. simpl. rewrite <- app_assoc. reflexivity.
    + exact Hf.
    + apply reconnect_events_no_bulk. exact Hf.
    + intros Hcode. apply connection_code_spec in Hcode. rewrite Hcode in Hc. exact Hc.
    + intros H1 H2 H3. rewrite (connection_code_other _ H1 H2 H3) in Hc. exact Hc.
  - reflexivity.
Qed.

Lemma bulk_write_outcome_witness :
  exists evs w',
    post_api_bulk (Scenario.db 2 false false false) Sample.production
      [("table", VStr "t"); ("data", Sample.two_rows)] Sample.warm =
    (Normal (mkResponse 500
               (VObj [("success", VBool false);
                      ("error", VStr "Connection timed out");
                      ("errorCode", VStr "ETIMEOUT");
                      ("stack", VUndefined)])), w') /\
    trace w' =
    trace Sample.warm ++
    (Bulk (OnPool 3)
       (mkTable (VStr "t")
          [mkColumn "a" VarCharMax true; mkColumn "b" VarCharMax true]
          [[VNum 1; VNum 2]; [VNum 3; VUndefined]]), Failed Sample.timeout) :: evs /\
    Forall reconnect_event evs /\
    bulk_writes evs = 0 /\
    connects evs = 1 /\ delays evs = [].
Proof.
  destruct (proj2 (bulk_write_outcome (Scenario.db 2 false false false)
              Sample.production
              [("table", VStr "t"); ("data", Sample.two_rows)] Sample.warm Sample.warm 3
              (mkTable (VStr "t")
                 [mkColumn "a" VarCharMax true; mkColumn "b" VarCharMax true]
                 [[VNum 1; VNum 2]; [VNum 3; VUndefined]])
              eq_refl eq_refl eq_refl eq_refl eq_refl))
    as [evs [w' [H [Ht [Hf [Hb [Hyes _]]]]]]].
  exists evs, w'.
  split; [exact H | split; [exact Ht | split; [exact Hf | split; [exact Hb |]]]].
  apply Hyes. left. reflexivity.
Defined.

(** ** The transaction handler, case by case *)

Lemma count_app (f : Event -> bool) evs1 evs2 :
  List.length (filter f (evs1 ++ evs2)) =
  List.length (filter f evs1) + List.length (filter f evs2).
Proof. rewrite filter_app, length_app. reflexivity. Qed.

Lemma count_none (f : Event -> bool) (P : Event -> Prop) evs :
  (forall ev, P ev -> f ev = false) ->
  Forall P evs -> List.length (filter f evs) = 0.
Proof.
  intros HP. induction 1 as [| ev evs Hev _ IH]; simpl; [reflexivity |].
  rewrite (HP ev Hev). exact IH.
Qed.

Lemma reconnect_event_counts ev :
  reconnect_event ev ->
  is_rollback ev = false /\ is_commit_done ev = false /\ is_begin ev = false.
Proof.
  destruct ev as [c r]. unfold reconnect_event. simpl.
  destruct c; simpl; try contradiction; intros _; splits; reflexivity.
Qed.

Lemma statement_event_counts tx ev :
  statement_event tx ev ->
  is_rollback ev = false /\ is_commit_done ev = false /\ is_begin ev = false.
Proof.
  destruct ev as [c r]. unfold statement_event. simpl.
  destruct c; simpl; try contradiction; intros _; splits; reflexivity.
Qed.

Section TransactionCases.

Variable drv : Driver.
Variable env : Env.

(** The [catch] block of a transaction: the rollback, if there is a
    transaction, comes first; the reconnect follows under the usual
    condition. *)
Lemma transaction_failed_policy transaction err w1 :
  exists rbs evs w',
    transaction_failed drv env transaction err w1 =
    (Normal (error_response env err), w') /\
    trace w' = trace w1 ++ rbs ++ evs /\
    match transaction with
    | None => rbs = []
    | Some tx => exists rb, rbs = [(Rollback tx, rb)]
    end /\
    Forall reconnect_event evs /\
    if connection_code (code err) || no_pool (pool w1)
    then connects evs = 1 /\ delays evs = []
    else evs = [].
Proof.
  unfold transaction_failed. unfold bind at 1. unfold console_error at 1.
  unfold bind at 1.
  destruct transaction as [tx |].
  - unfold try_catch, transaction_rollback, call_unit.
    destruct (drv_rollback drv _ tx) as [rbErr |]; cbn [trace pool console record].
    + unfold console_error at 1.
      match goal with
      | |- context [bind (reconnect_if_needed drv err) _ ?w2] =>
          destruct (reconnect_if_needed_spec drv err w2)
            as [evs [w' [H [Ht [Hf Hc]]]]]
      end.
      simpl in Ht, Hc.
      exists [(Rollback tx, Failed rbErr)], evs, w'. splits.
      * erewrite bind_normal; [| exact H]. reflexivity.
      * rewrite Ht, <- app_assoc. reflexivity.
      * eexists. reflexivity.
      * exact Hf.
      * destruct (connection_code (code err) || no_pool (pool w1));
          [exact Hc | apply Hc].
    + match goal with
      | |- context [bind (reconnect_if_needed drv err) _ ?w2] =>
          destruct (reconnect_if_needed_spec drv err w2)
            as [evs [w' [H [Ht [Hf Hc]]]]]
      end.
      simpl in Ht, Hc.
      exists [(Rollback tx, Done)], evs, w'. splits.
      * erewrite bind_normal; [| exact H]. reflexivity.
      * rewrite Ht, <- app_assoc. reflexivity.
      * eexists. reflexivity.
      * exact Hf.
      * destruct (connection_code (code err) || no_pool (pool w1));
          [exact Hc | apply Hc].
  - unfold ret at 1.
    match goal with
    | |- context [bind (reconnect_if_needed drv err) _ ?w2] =>
        destruct (reconnect_if_needed_spec drv err w2)
          as [evs [w' [H [Ht [Hf Hc]]]]]
    end.
    simpl in Ht, Hc.
    exists [], evs, w'. splits.
    + erewrite bind_normal; [| exact H]. reflexivity.
    + exact Ht.
    + reflexivity.
    + exact Hf.
    + destruct (connection_code (code err) || no_pool (pool w1));
        [exact Hc | apply Hc].
Qed.

(** Past the guard the handler is the [try] block run on the pool, with the
    [catch] block behind it. *)
Lemma post_api_transaction_run body w qs w0 tx :
  field body "queries" = VArr qs -> qs <> [] ->
  ensure_pool_initialized drv w = (Normal tt, w0) ->
  pool w0 = Some tx ->
  post_api_transaction drv env body w =
  try_catch (transaction_body drv tx qs) (transaction_failed drv env (Some tx)) w0.
Proof.
  intros Hq Hne Hensure Hpool. unfold post_api_transaction.
  unfold bind at 1. unfold try_catch at 1.
  rewrite (transaction_setup_valid drv body w qs Hq Hne), Hensure, Hpool.
  cbn [ret]. rewrite Hq. reflexivity.
Qed.

Lemma transaction_body_shape tx qs w0 :
  exists out w1 evs,
    transaction_body drv tx qs w0 = (out, w1) /\
    trace w1 = trace w0 ++ evs /\
    ((exists resp evs_s,
        out = Normal resp /\ status resp = 200%Z /\
        evs = (Begin tx, Done) :: evs_s ++ [(Commit tx, Done)] /\
        Forall (statement_event tx) evs_s)
     \/
     (exists err,
        out = Throw err /\
        (evs = [(Begin tx, Failed err)] \/
         exists evs_s,
           Forall (statement_event tx) evs_s /\
           (evs = (Begin tx, Done) :: evs_s \/
            evs = (Begin tx, Done) :: evs_s ++ [(Commit tx, Failed err)])))).
Proof.
  unfold transaction_body. unfold bind at 1. unfold transaction_begin, call_unit.
  destruct (drv_begin drv (trace w0) tx) as [e |].
  - exists (Throw e), (record (Begin tx) (Failed e) w0), [(Begin tx, Failed e)].
    splits; try reflexivity. right. exists e. split; [reflexivity | left; reflexivity].
  - destruct (run_queries_spec drv tx qs [] (record (Begin tx) Done w0))
      as [out [w1 [evs [rs [tail [H [Ht [_ [_ [Hs _]]]]]]]]]].
    unfold bind at 1. rewrite H. simpl in Ht.
    destruct out as [results | err].
    + unfold bind at 1. unfold transaction_commit, call_unit.
      destruct (drv_commit drv (trace w1) tx) as [e |].
      * exists (Throw e), (record (Commit tx) (Failed e) w1),
          ((Begin tx, Done) :: evs ++ [(Commit tx, Failed e)]).
        splits.
        -- reflexivity.
        -- simpl. rewrite Ht. repeat rewrite <- app_assoc. reflexivity.
        -- right. exists e. split; [reflexivity |]. right. exists evs.
           split; [exact Hs | right; reflexivity].
      * eexists. exists (record (Commit tx) Done w1),
          ((Begin tx, Done) :: evs ++ [(Commit tx, Done)]).
        splits.
        -- reflexivity.
        -- simpl. rewrite Ht. repeat rewrite <- app_assoc. reflexivity.
        -- left. eexists. exists evs. splits; try reflexivity. exact Hs.
    + exists (Throw err), w1, ((Begin tx, Done) :: evs). splits.
      * reflexivity.
      * rewrite Ht. rewrite <- app_assoc. reflexivity.
      * right. exists err. split; [reflexivity |]. right. exists evs.
        split; [exact Hs | left; reflexivity].
Qed.

End TransactionCases.

(** X13.  A transaction request whose [queries] is missing, not an array or
    an empty array is answered with status 400 and leaves the world as it
    was: no pool initialization, no transaction, no driver call. *)
Theorem invalid_transaction_no_database drv env body w :
  truthy (field body "queries") = false \/
  isArray (field body "queries") = false \/
  field body "queries" = VArr [] ->
  post_api_transaction drv env body w =
  (Normal (mkResponse 400 (VObj [("error", VStr "Valid queries array is required")])), w).
Proof.
  intros H. unfold post_api_transaction, bind, try_catch, transaction_setup.
  replace (negb (truthy (field body "queries")) || negb (isArray (field body "queries"))
           || empty_array (field body "queries")) with true; [reflexivity |].
  symmetry. destruct H as [H | [H | H]]; rewrite H; simpl;
    repeat rewrite orb_true_r; reflexivity.
Qed.

Lemma invalid_transaction_no_database_witness :
  post_api_transaction (Sample.db false false) Sample.production
    [("queries", VObj [("query", VStr "SELECT 1")])] Sample.cold =
  (Normal (mkResponse 400 (VObj [("error", VStr "Valid queries array is required")])),
   Sample.cold).
Proof.
  apply (invalid_transaction_no_database (Sample.db false false) Sample.production
           [("queries", VObj [("query", VStr "SELECT 1")])] Sample.cold).
  right. left. reflexivity.
Defined.

(** X14.  When the guard of a transaction request cannot establish a pool,
    no transaction is created: the handler answers 500 with the error of the
    guard, and after the guard it calls neither [begin] nor [rollback] nor any
    statement, only the reconnect of the [catch] block, which runs when the
    error is connection-class or no pool is left. *)
Theorem transaction_without_pool_never_begins drv env body w qs err w0 :
  field body "queries" = VArr qs -> qs <> [] ->
  ensure_pool_initialized drv w = (Throw err, w0) ->
  exists evs w',
    post_api_transaction drv env body w = (Normal (error_response env err), w') /\
    trace w' = trace w0 ++ evs /\
    Forall reconnect_event evs /\
    begins evs = 0 /\ rollbacks evs = 0 /\ transaction_queries evs = [] /\
    if connection_code (code err) || no_pool (pool w0)
    then connects evs = 1 /\ delays evs = []
    else evs = [].
Proof.
  intros Hq Hne Hensure.
  destruct (transaction_failed_policy drv env None err w0)
    as [rbs [evs [w' [H [Ht [Hrb [Hf Hc]]]]]]].
  subst rbs. simpl in Ht.
  exists evs, w'. splits; try assumption.
  - unfold post_api_transaction. unfold bind at 1. unfold try_catch at 1.
    rewrite (transaction_setup_valid drv body w qs Hq Hne), Hensure.
    unfold bind at 1. rewrite H. reflexivity.
  - apply (count_none is_begin reconnect_event); [| exact Hf].
    intros ev Hev. apply reconnect_event_counts. exact Hev.
  - apply (count_none is_rollback reconnect_event); [| exact Hf].
    intros ev Hev. apply reconnect_event_counts. exact Hev.
  - apply reconnect_events_no_queries. exact Hf.
Qed.

Lemma transaction_without_pool_never_begins_witness :
  exists evs w',
    post_api_transaction (Sample.db true false) Sample.production
      [("queries", VArr Sample.two_statements)] Sample.cold =
    (Normal (error_response Sample.production Sample.timeout), w') /\
    trace w' =
    trace (snd (ensure_pool_initialized (Sample.db true false) Sample.cold)) ++ evs /\
    Forall reconnect_event evs /\
    begins evs = 0 /\ rollbacks evs = 0 /\ transaction_queries evs = [] /\
    if connection_code (code Sample.timeout)
       || no_pool (pool (snd (ensure_pool_initialized (Sample.db true false) Sample.cold)))
    then connects evs = 1 /\ delays evs = []
    else evs = [].
Proof.
  apply (transaction_without_pool_never_begins (Sample.db true false)
           Sample.production [("queries", VArr Sample.two_statements)] Sample.cold
           Sample.two_statements Sample.timeout
           (snd (ensure_pool_initialized (Sample.db true false) Sample.cold))).
  - reflexivity.
  - discriminate.
  - reflexivity.
Defined.

Lemma transaction_body_keeps_pool drv tx qs w0 :
  pool (snd (transaction_body drv tx qs w0)) = pool w0.
Proof.
  unfold transaction_body. unfold bind at 1. unfold transaction_begin, call_unit.
  destruct (drv_begin drv (trace w0) tx) as [e |]; [reflexivity |].
  destruct (run_queries_spec drv tx qs [] (record (Begin tx) Done w0))
    as [out [w1 [evs [rs [tail [H [_ [Hp _]]]]]]]].
  unfold bind at 1. rewrite H. destruct out as [results | err]; [| exact Hp].
  unfold bind at 1. unfold transaction_commit, call_unit.
  destruct (drv_commit drv (trace w1) tx); exact Hp.
Qed.

(** X15.  A transaction that could not even begin is still rolled back: when
    [transaction.begin()] fails, no statement is run, the very next call is
    [transaction.rollback()], and the response is the 500 built from the error
    of [begin], whatever the rollback answers. *)
Theorem failed_begin_still_rolls_back drv env body w qs w0 tx err :
  field body "queries" = VArr qs -> qs <> [] ->
  ensure_pool_initialized drv w = (Normal tt, w0) ->
  pool w0 = Some tx ->
  drv_begin drv (trace w0) tx = Some err ->
  exists rb evs w',
    post_api_transaction drv env body w = (Normal (error_response env err), w') /\
    trace w' = trace w0 ++ (Begin tx, Failed err) :: (Rollback tx, rb) :: evs /\
    Forall reconnect_event evs /\
    transaction_queries evs = [].
Proof.
  intros Hq Hne Hensure Hpool Hbegin.
  destruct (transaction_failed_policy drv env (Some tx) err
              (record (Begin tx) (Failed err) w0))
    as [rbs [evs [w' [H [Ht [[rb Hrb] [Hf _]]]]]]].
  subst rbs. exists rb, evs, w'. splits.
  - rewrite (post_api_transaction_run drv env body w qs w0 tx Hq Hne Hensure Hpool).
    unfold try_catch, transaction_body. unfold bind at 1.
    unfold transaction_begin, call_unit. rewrite Hbegin. exact H.
  - rewrite Ht. simpl. rewrite <- app_assoc. reflexivity.
  - exact Hf.
  - apply reconnect_events_no_queries. exact Hf.
Qed.

Lemma failed_begin_still_rolls_back_witness :
  exists rb evs w',
    post_api_transaction (Scenario.db 2 true false false) Sample.production
      [("queries", VArr Sample.two_statements)] Sample.warm =
    (Normal (error_response Sample.production Sample.timeout), w') /\
    trace w' =
    trace Sample.warm ++ (Begin 3, Failed Sample.timeout) :: (Rollback 3, rb) :: evs /\
    Forall reconnect_event evs /\
    transaction_queries evs = [].
Proof.
  apply (failed_begin_still_rolls_back (Scenario.db 2 true false false)
           Sample.production [("queries", VArr Sample.two_statements)] Sample.warm
           Sample.two_statements Sample.warm 3 Sample.timeout).
  - reflexivity.
  - discriminate.
  - reflexivity.
  - reflexivity.
  - reflexivity.
Defined.

(** X16.  A commit that fails discards the results: when every statement of
    the transaction has returned a result but [transaction.commit()] fails,
    the next call is the rollback, and the response is the 500 built from the
    error of the commit, without any of the results. *)
Theorem failed_commit_rolls_back drv env body w qs w0 tx results w1 err :
  field body "queries" = VArr qs -> qs <> [] ->
  ensure_pool_initialized drv w = (Normal tt, w0) ->
  pool w0 = Some tx ->
  drv_begin drv (trace w0) tx = None ->
  run_queries drv tx qs [] (record (Begin tx) Done w0) = (Normal results, w1) ->
  drv_commit drv (trace w1) tx = Some err ->
  exists rb evs w',
    post_api_transaction drv env body w = (Normal (error_response env err), w') /\
    trace w' = trace w1 ++ (Commit tx, Failed err) :: (Rollback tx, rb) :: evs /\
    Forall reconnect_event evs /\
    List.length results = List.length qs /\
    results_of (error_response env err) = None.
Proof.
  intros Hq Hne Hensure Hpool Hbegin Hrun Hcommit.
  destruct (transaction_failed_policy drv env (Some tx) err
              (record (Commit tx) (Failed err) w1))
    as [rbs [evs [w' [H [Ht [[rb Hrb] [Hf _]]]]]]].
  subst rbs. exists rb, evs, w'. splits.
  - rewrite (post_api_transaction_run drv env body w qs w0 tx Hq Hne Hensure Hpool).
    unfold try_catch, transaction_body. unfold bind at 1.
    unfold transaction_begin, call_unit. rewrite Hbegin.
    unfold bind at 1. rewrite Hrun.
    unfold bind at 1. unfold transaction_commit, call_unit. rewrite Hcommit.
    exact H.
  - rewrite Ht. simpl. rewrite <- app_assoc. reflexivity.
  - exact Hf.
  - destruct (run_queries_spec drv tx qs [] (record (Begin tx) Done w0))
      as [out [w2 [evs2 [rs [tail [H2 [_ [_ [_ [_ [_ [_ Hout]]]]]]]]]]]].
    rewrite Hrun in H2. inversion H2; subst out w2.
    destruct Hout as [Hr [Hl _]]. rewrite Hr. simpl. rewrite length_map. exact Hl.
  - reflexivity.
Qed.

Lemma failed_commit_rolls_back_witness :
  exists rb evs w',
    post_api_transaction (Scenario.db 2 false true false) Sample.production
      [("queries", VArr Sample.two_statements)] Sample.warm =
    (Normal (error_response Sample.production Sample.syntax), w') /\
    trace w' =
    trace (snd (run_queries (Scenario.db 2 false true false) 3 Sample.two_statements []
                  (record (Begin 3) Done Sample.warm))) ++
    (Commit 3, Failed Sample.syntax) :: (Rollback 3, rb) :: evs /\
    Forall reconnect_event evs /\
    List.length
      (map statement_result [Sample.batch; Sample.batch]) =
    List.length Sample.two_statements /\
    results_of (error_response Sample.production Sample.syntax) = None.
Proof.
  apply (failed_commit_rolls_back (Scenario.db 2 false true false)
           Sample.production [("queries", VArr Sample.two_statements)] Sample.warm
           Sample.two_statements Sample.warm 3
           (map statement_result [Sample.batch; Sample.batch])
           (snd (run_queries (Scenario.db 2 false true false) 3 Sample.two_statements []
                   (record (Begin 3) Done Sample.warm)))
           Sample.syntax).
  - reflexivity.
  - discriminate.
  - reflexivity.
  - reflexivity.
  - reflexivity.
  - reflexivity.
  - reflexivity.
Defined.

(** X17.  Whatever fails inside the [try] block once the transaction object
    exists, the [catch] block calls the rollback first, on the pool the
    transaction was opened on, and answers with the error it caught.  Only
    then, and only for a connection-class error, it reconnects: one
    [initializePool(1)], which closes that same pool and calls [sql.connect]
    once. *)
Theorem failed_transaction_rolls_back_first drv env body w qs w0 tx err w1 :
  field body "queries" = VArr qs -> qs <> [] ->
  ensure_pool_initialized drv w = (Normal tt, w0) ->
  pool w0 = Some tx ->
  transaction_body drv tx qs w0 = (Throw err, w1) ->
  exists rb evs w',
    post_api_transaction drv env body w = (Normal (error_response env err), w') /\
    trace w' = trace w1 ++ (Rollback tx, rb) :: evs /\
    if connection_code (code err)
    then connects evs = 1 /\ delays evs = [] /\
         exists r1 r2 rest, evs = (Close tx, r1) :: (Connect, r2) :: rest
    else evs = [].
Proof.
  intros Hq Hne Hensure Hpool Hbody.
  assert (Hpool1 : pool w1 = Some tx).
  { pose proof (transaction_body_keeps_pool drv tx qs w0) as Hk.
    rewrite Hbody in Hk. simpl in Hk. rewrite Hk. exact Hpool. }
  rewrite (post_api_transaction_run drv env body w qs w0 tx Hq Hne Hensure Hpool).
  unfold try_catch. rewrite Hbody.
  unfold transaction_failed. unfold bind at 1. unfold console_error at 1.
  unfold bind at 1. unfold try_catch, transaction_rollback, call_unit.
  cbn [trace pool console].
  assert (Hafter : forall w2,
            pool w2 = Some tx ->
            exists evs w',
              (reconnect_if_needed drv err ;; ret (error_response env err)) w2 =
              (Normal (error_response env err), w') /\
              trace w' = trace w2 ++ evs /\
              if connection_code (code err)
              then connects evs = 1 /\ delays evs = [] /\
                   exists r1 r2 rest, evs = (Close tx, r1) :: (Connect, r2) :: rest
              else evs = []).
  { intros w2 Hp2.
    unfold reconnect_if_needed. unfold bind at 1. unfold bind at 1.
    unfold read_pool. rewrite Hp2. cbn [no_pool]. rewrite orb_false_r.
    destruct (connection_code (code err)).
    - destruct (initializePool_once drv w2) as [evs [Ht [Hc [Hd _]]]].
      destruct (initializePool_closes_existing drv 0 w2 tx Hp2)
        as [r1 [r2 [rest Hcl]]].
      assert (Hevs : evs = (Close tx, r1) :: (Connect, r2) :: rest)
        by (rewrite Ht in Hcl; eapply app_inv_head; exact Hcl).
      exists evs. unfold try_catch, bind.
      destruct (initializePool drv 1 w2) as [[r | e] w3]; simpl in *;
        eexists; (split; [reflexivity |]); simpl;
        (split; [exact Ht |]); splits; try assumption;
        exists r1, r2, rest; exact Hevs.
    - exists [], w2. rewrite app_nil_r. splits; reflexivity. }
  destruct (drv_rollback drv _ tx) as [rbErr |]; cbn [trace pool console record].
  - unfold console_error at 1.
    match goal with
    | |- context [bind (reconnect_if_needed drv err) _ ?w2] =>
        destruct (Hafter w2 Hpool1) as [evs [w' [H [Ht Hc]]]]
    end.
    exists (Failed rbErr), evs, w'. splits.
    + exact H.
    + rewrite Ht. simpl. rewrite <- app_assoc. reflexivity.
    + exact Hc.
  - match goal with
    | |- context [bind (reconnect_if_needed drv err) _ ?w2] =>
        destruct (Hafter w2 Hpool1) as [evs [w' [H [Ht Hc]]]]
    end.
    exists Done, evs, w'. splits.
    + exact H.
    + rewrite Ht. simpl. rewrite <- app_assoc. reflexivity.
    + exact Hc.
Qed.

Lemma failed_transaction_rolls_back_first_witness :
  exists rb evs w',
    post_api_transaction (Sample.db false false) Sample.production
      [("queries", VArr [VObj [("query", VStr "WAITFOR")]])] Sample.warm =
    (Normal (error_response Sample.production Sample.timeout), w') /\
    trace w' =
    trace (snd (transaction_body (Sample.db false false) 3
                  [VObj [("query", VStr "WAITFOR")]] Sample.warm)) ++
    (Rollback 3, rb) :: evs /\
    if connection_code (code Sample.timeout)
    then connects evs = 1 /\ delays evs = [] /\
         exists r1 r2 rest, evs = (Close 3, r1) :: (Connect, r2) :: rest
    else evs = [].
Proof.
  apply (failed_transaction_rolls_back_first (Sample.db false false)
           Sample.production [("queries", VArr [VObj [("query", VStr "WAITFOR")]])]
           Sample.warm [VObj [("query", VStr "WAITFOR")]] Sample.warm 3
           Sample.timeout
           (snd (transaction_body (Sample.db false false) 3
                   [VObj [("query", VStr "WAITFOR")]] Sample.warm))).
  - reflexivity.
  - discriminate.
  - reflexivity.
  - reflexivity.
  - reflexivity.
Defined.

Lemma counts_of_reconnect evs :
  Forall reconnect_event evs ->
  begins evs = 0 /\ commits_done evs = 0 /\ rollbacks evs = 0.
Proof.
  intros Hf. unfold begins, commits_done, rollbacks. splits;
    (apply (count_none _ reconnect_event); [| exact Hf]);
    intros ev Hev; apply reconnect_event_counts; exact Hev.
Qed.

Lemma counts_of_statements tx evs :
  Forall (statement_event tx) evs ->
  begins evs = 0 /\ commits_done evs = 0 /\ rollbacks evs = 0.
Proof.
  intros Hf. unfold begins, commits_done, rollbacks. splits;
    (apply (count_none _ (statement_event tx)); [| exact Hf]);
    intros ev Hev; apply (statement_event_counts tx); exact Hev.
Qed.

Lemma counts_app evs1 evs2 :
  begins (evs1 ++ evs2) = begins evs1 + begins evs2 /\
  commits_done (evs1 ++ evs2) = commits_done evs1 + commits_done evs2 /\
  rollbacks (evs1 ++ evs2) = rollbacks evs1 + rollbacks evs2.
Proof.
  unfold begins, commits_done, rollbacks. splits; apply count_app.
Qed.

Lemma counts_cons ev evs :
  begins (ev :: evs) = begins [ev] + begins evs /\
  commits_done (ev :: evs) = commits_done [ev] + commits_done evs /\
  rollbacks (ev :: evs) = rollbacks [ev] + rollbacks evs.
Proof. apply (counts_app [ev] evs). Qed.

Lemma no_rollback_in evs tx r :
  rollbacks evs = 0 -> ~ In (Rollback tx, r) evs.
Proof.
  unfold rollbacks. induction evs as [| [c r'] evs IH]; intros H Hin; [exact Hin |].
  destruct Hin as [Heq | Hin].
  - inversion Heq; subst. simpl in H. discriminate.
  - apply IH; [| exact Hin]. simpl in H.
    destruct (is_rollback (c, r')); [discriminate | exact H].
Qed.

(** X18.  Every [begin] call gets exactly one closing call.  In every run of
    the handler on a non-empty [queries] array [transaction.begin()] is
    called at most once, and the number of commits that succeeded plus the
    number of [rollback] calls equals the number of [begin] calls: no run
    both commits and calls [rollback], and none calls [rollback] twice.  The
    response is 200 exactly when the commit succeeded.  These are counts of
    calls, whatever they were answered: a [rollback] call can fail, and the
    handler then only writes that failure on the console and still answers
    500, so nothing here says that the transaction ends up closed. *)
Theorem transaction_one_closing_call drv env body w qs :
  field body "queries" = VArr qs -> qs <> [] ->
  exists resp w' evs,
    post_api_transaction drv env body w = (Normal resp, w') /\
    trace w' = trace w ++ evs /\
    begins evs <= 1 /\
    commits_done evs + rollbacks evs = begins evs /\
    (status resp = 200%Z <-> commits_done evs = 1) /\
    (forall tx e,
       In (Rollback tx, Failed e) evs ->
       status resp = 500%Z /\ In (RollbackFailed e) (console w')).
Proof.
  intros Hq Hne.
  destruct (ensure_pool_initialized_emits drv w) as [evs0 [Ht0 Hf0]].
  destruct (counts_of_reconnect evs0 Hf0) as [Hb0 [Hc0 Hr0]].
  destruct (ensure_pool_initialized drv w) as [[[] | err] w0] eqn:He; simpl in Ht0.
  - destruct (ensure_pool_initialized_normal drv w w0 He) as [tx Htx].
    rewrite (post_api_transaction_run drv env body w qs w0 tx Hq Hne He Htx).
    destruct (transaction_body_shape drv tx qs w0) as [out [w1 [evsb [Hb [Ht1 Hshape]]]]].
    unfold try_catch. rewrite Hb.
    destruct Hshape as [[resp [evs_s [-> [Hs [Hevs Hfs]]]]] | [err [-> Hshape]]].
    + destruct (counts_of_statements tx evs_s Hfs) as [Hbs [Hcs Hrs]].
      assert (Hall : begins (evs0 ++ evsb) = 1 /\
                     commits_done (evs0 ++ evsb) = 1 /\
                     rollbacks (evs0 ++ evsb) = 0).
      { subst evsb. splits.
        - rewrite (proj1 (counts_app _ _)), (proj1 (counts_cons _ _)),
            (proj1 (counts_app _ _)), Hb0, Hbs. reflexivity.
        - rewrite (proj1 (proj2 (counts_app _ _))), (proj1 (proj2 (counts_cons _ _))),
            (proj1 (proj2 (counts_app _ _))), Hc0, Hcs. reflexivity.
        - rewrite (proj2 (proj2 (counts_app _ _))), (proj2 (proj2 (counts_cons _ _))),
            (proj2 (proj2 (counts_app _ _))), Hr0, Hrs. reflexivity. }
      destruct Hall as [Hb1 [Hc1 Hr1]].
      exists resp, w1, (evs0 ++ evsb). splits.
      * reflexivity.
      * rewrite Ht1, Ht0, app_assoc. reflexivity.
      * rewrite Hb1. lia.
      * rewrite Hb1, Hc1, Hr1. reflexivity.
      * rewrite Hc1. split; [reflexivity | intros _; exact Hs].
      * intros tx' e Hin. exfalso. eapply no_rollback_in; [exact Hr1 | exact Hin].
    + destruct (transaction_failed_rollback drv env tx err w1)
        as [rb [evsr [ds [w' [Hfl [Ht2 [Hfr [Hd Hrb]]]]]]]].
      rewrite Hfl.
      destruct (counts_of_reconnect evsr Hfr) as [Hbr [Hcr Hrr]].
      exists (error_response env err), w', (evs0 ++ evsb ++ (Rollback tx, rb) :: evsr).
      assert (Hbody : begins evsb = 1 /\ commits_done evsb = 0 /\ rollbacks evsb = 0).
      { destruct Hshape as [-> | [evs_s [Hfs [-> | ->]]]].
        - splits; reflexivity.
        - destruct (counts_of_statements tx evs_s Hfs) as [Hbs [Hcs Hrs]].
          rewrite (proj1 (counts_cons _ _)), (proj1 (proj2 (counts_cons _ _))),
            (proj2 (proj2 (counts_cons _ _))), Hbs, Hcs, Hrs.
          splits; reflexivity.
        - destruct (counts_of_statements tx evs_s Hfs) as [Hbs [Hcs Hrs]].
          rewrite (proj1 (counts_cons _ _)), (proj1 (proj2 (counts_cons _ _))),
            (proj2 (proj2 (counts_cons _ _))).
          rewrite (proj1 (counts_app _ _)), (proj1 (proj2 (counts_app _ _))),
            (proj2 (proj2 (counts_app _ _))), Hbs, Hcs, Hrs.
          splits; reflexivity. }
      destruct Hbody as [Hbb [Hcb Hrb']].
      assert (Hall : begins (evs0 ++ evsb ++ (Rollback tx, rb) :: evsr) = 1 /\
                     commits_done (evs0 ++ evsb ++ (Rollback tx, rb) :: evsr) = 0 /\
                     rollbacks (evs0 ++ evsb ++ (Rollback tx, rb) :: evsr) = 1).
      { splits.
        - rewrite !(proj1 (counts_app _ _)), (proj1 (counts_cons _ _)),
            Hb0, Hbb, Hbr. reflexivity.
        - rewrite !(proj1 (proj2 (counts_app _ _))), (proj1 (proj2 (counts_cons _ _))),
            Hc0, Hcb, Hcr. reflexivity.
        - rewrite !(proj2 (proj2 (counts_app _ _))), (proj2 (proj2 (counts_cons _ _))),
            Hr0, Hrb', Hrr. reflexivity. }
      destruct Hall as [Hb1 [Hc1 Hr1]].
      splits.
      * reflexivity.
      * rewrite Ht2, Ht1, Ht0. repeat rewrite <- app_assoc. reflexivity.
      * rewrite Hb1. lia.
      * rewrite Hb1, Hc1, Hr1. reflexivity.
      * rewrite Hc1. split; intros H; discriminate.
      * intros tx' e Hin. split; [reflexivity |].
        apply in_app_or in Hin. destruct Hin as [Hin | Hin];
          [exfalso; eapply no_rollback_in; [exact Hr0 | exact Hin] |].
        apply in_app_or in Hin. destruct Hin as [Hin | Hin];
          [exfalso; eapply no_rollback_in; [exact Hrb' | exact Hin] |].
        destruct Hin as [Heq | Hin];
          [| exfalso; eapply no_rollback_in; [exact Hrr | exact Hin]].
        inversion Heq; subst.
        destruct Hrb as [Hdone | [rbErr [Hrb Hlog]]]; [discriminate |].
        inversion Hrb; subst.
        rewrite Hd. apply in_or_app. right. right. exact Hlog.
  - destruct (transaction_failed_policy drv env None err w0)
      as [rbs [evsr [w' [Hfl [Ht2 [Hrb [Hfr _]]]]]]].
    subst rbs. simpl in Ht2.
    destruct (counts_of_reconnect evsr Hfr) as [Hbr [Hcr Hrr]].
    exists (error_response env err), w', (evs0 ++ evsr). splits.
    + unfold post_api_transaction. unfold bind at 1. unfold try_catch at 1.
      rewrite (transaction_setup_valid drv body w qs Hq Hne), He.
      unfold bind at 1. rewrite Hfl. reflexivity.
    + rewrite Ht2, Ht0, app_assoc. reflexivity.
    + rewrite (proj1 (counts_app _ _)), Hb0, Hbr. lia.
    + rewrite (proj1 (counts_app _ _)), (proj1 (proj2 (counts_app _ _))),
        (proj2 (proj2 (counts_app _ _))), Hb0, Hbr, Hc0, Hcr, Hr0, Hrr. reflexivity.
    + rewrite (proj1 (proj2 (counts_app _ _))), Hc0, Hcr.
      split; intros H; discriminate.
    + intros tx' e Hin. exfalso.
      apply in_app_or in Hin. destruct Hin as [Hin | Hin];
        eapply no_rollback_in; try exact Hin; assumption.
Qed.

Lemma transaction_one_closing_call_witness :
  exists resp w' evs,
    post_api_transaction (Sample.db false true) Sample.production
      [("queries", VArr Sample.three_statements)] Sample.cold = (Normal resp, w') /\
    trace w' = trace Sample.cold ++ evs /\
    begins evs <= 1 /\
    commits_done evs + rollbacks evs = begins evs /\
    (status resp = 200%Z <-> commits_done evs = 1) /\
    (forall tx e,
       In (Rollback tx, Failed e) evs ->
       status resp = 500%Z /\ In (RollbackFailed e) (console w')).
Proof.
  apply (transaction_one_closing_call (Sample.db false true)
           Sample.production [("queries", VArr Sample.three_statements)] Sample.cold
           Sample.three_statements).
  - reflexivity.
  - discriminate.
Defined.

(** X19.  The loop over the statements stops at the first entry that is
    [null]: reading its [query] throws, so the loop throws having sent to the
    driver at most the statements that come before that entry; the entries
    after it are never run. *)
Theorem null_entry_stops_statements drv tx post :
  forall pre results w,
    exists err w' evs,
      run_queries drv tx (pre ++ VNull :: post) results w = (Throw err, w') /\
      trace w' = trace w ++ evs /\
      Forall (statement_event tx) evs /\
      List.length (transaction_queries evs) <= List.length pre.
Proof.
  induction pre as [| queryInfo pre IH]; intros results w.
  - exists TypeError, w, []. rewrite app_nil_r.
    splits; first [reflexivity | (simpl; lia) | constructor].
  - cbn [app run_queries]. unfold bind at 1. unfold eval at 1.
    destruct (get queryInfo "query") as [q | e].
    2: { exists e, w, []. rewrite app_nil_r.
         splits; first [reflexivity | (simpl; lia) | constructor]. }
    unfold bind at 1. unfold eval at 1.
    destruct (get queryInfo "params") as [params | e].
    2: { exists e, w, []. rewrite app_nil_r.
         splits; first [reflexivity | (simpl; lia) | constructor]. }
    destruct (add_parameters_spec drv (mkRequest (OnTransaction tx) []) params w)
      as [outa [w1 [ins [Ha [Hta [_ [_ [Hfa [_ Htga]]]]]]]]].
    simpl in Hfa.
    assert (Hsa : Forall (statement_event tx) ins)
      by (eapply Forall_impl; [apply input_event_statement | exact Hfa]).
    pose proof (input_events_no_queries _ _ Hfa) as Hqa.
    unfold bind at 1. rewrite Ha.
    destruct outa as [r | e].
    2: { exists e, w1, ins. splits; try assumption; try reflexivity.
         rewrite Hqa. simpl. lia. }
    specialize (Htga r eq_refl). simpl in Htga.
    unfold bind at 1. unfold request_query. rewrite Htga.
    destruct (drv_query drv (trace w1) (OnTransaction tx) (req_params r) q)
      as [e | res].
    + exists e, (record (Query (OnTransaction tx) (req_params r) q) (Failed e) w1),
        (ins ++ [(Query (OnTransaction tx) (req_params r) q, Failed e)]).
      splits.
      * reflexivity.
      * simpl. rewrite Hta, <- app_assoc. reflexivity.
      * apply Forall_app. split; [exact Hsa |].
        constructor; [reflexivity | constructor].
      * rewrite transaction_queries_app, Hqa. simpl. lia.
    + destruct (IH (results ++ [statement_result res])
                  (record (Query (OnTransaction tx) (req_params r) q) (Rows res) w1))
        as [err [w' [evs [H [Ht [Hs Hl]]]]]].
      exists err, w',
        (ins ++ (Query (OnTransaction tx) (req_params r) q, Rows res) :: evs).
      splits.
      * exact H.
      * rewrite Ht. simpl. rewrite Hta. repeat rewrite <- app_assoc. reflexivity.
      * apply Forall_app. split; [exact Hsa |].
        constructor; [reflexivity | exact Hs].
      * rewrite transaction_queries_app, Hqa. simpl. lia.
Qed.

(** ** The diagnostics endpoint *)

Section DiagnosticsProperties.

Variable drv : Driver.
Variable env : Env.
Variable cfg : DbEnv.

(** The two queries of the connection test: what they call and what they
    leave in the response. *)
Lemma connection_test_spec w p :
  pool w = Some p ->
  exists tested w' evs,
    connection_test drv w = (Normal tested, w') /\
    trace w' = trace w ++ evs /\
    pool w' = Some p /\
    console w' = console w /\
    Forall (pool_query_event p) evs /\
    List.length evs <= 2 /\
    ((exists version names,
        tested = [("connection_test",
                   VObj [("success", VBool true); ("sql_version", version)]);
                  ("tables", VArr names)] /\
        exists r1 r2,
          evs = [(Query (OnPool p) [] (VStr "SELECT @@VERSION AS version"), Rows r1);
                 (Query (OnPool p) [] (VStr tables_query), Rows r2)] /\
          recordset_table_names (recordset r2) = Normal (VArr names))
     \/
     (exists err,
        tested = [("connection_test",
                   VObj [("success", VBool false); ("error", VStr (message err))])])).
Proof.
  intros Hp.
  assert (Hside : forall evs w',
            pool w' = Some p -> console w' = console w ->
            trace w' = trace w ++ evs ->
            Forall (pool_query_event p) evs -> List.length evs <= 2 ->
            forall tested,
              ((exists version names,
                  tested = [("connection_test",
                             VObj [("success", VBool true); ("sql_version", version)]);
                            ("tables", VArr names)] /\
                  exists r1 r2,
                    evs = [(Query (OnPool p) [] (VStr "SELECT @@VERSION AS version"),
                            Rows r1);
                           (Query (OnPool p) [] (VStr tables_query), Rows r2)] /\
                    recordset_table_names (recordset r2) = Normal (VArr names))
               \/
               (exists err,
                  tested = [("connection_test",
                             VObj [("success", VBool false);
                                   ("error", VStr (message err))])])) ->
              exists tested0 w0 evs0,
                (Normal tested, w') = (Normal tested0, w0) /\
                trace w0 = trace w ++ evs0 /\
                pool w0 = Some p /\
                console w0 = console w /\
                Forall (pool_query_event p) evs0 /\
                List.length evs0 <= 2 /\
                ((exists version names,
                    tested0 = [("connection_test",
                                VObj [("success", VBool true); ("sql_version", version)]);
                               ("tables", VArr names)] /\
                    exists r1 r2,
                      evs0 = [(Query (OnPool p) [] (VStr "SELECT @@VERSION AS version"),
                               Rows r1);
                              (Query (OnPool p) [] (VStr tables_query), Rows r2)] /\
                      recordset_table_names (recordset r2) = Normal (VArr names))
                 \/
                 (exists err,
                    tested0 = [("connection_test",
                                VObj [("success", VBool false);
                                      ("error", VStr (message err))])]))).
  { intros evs w' H1 H2 H3 H4 H5 tested H6. exists tested, w', evs. auto 10. }
  assert (Hone : forall r,
            Forall (pool_query_event p)
              [(Query (OnPool p) [] (VStr "SELECT @@VERSION AS version"), r)])
    by (intros r; constructor; [reflexivity | constructor]).
  assert (Htwo : forall r1 r2,
            Forall (pool_query_event p)
              [(Query (OnPool p) [] (VStr "SELECT @@VERSION AS version"), r1);
               (Query (OnPool p) [] (VStr tables_query), r2)])
    by (intros r1 r2; constructor; [reflexivity |];
        constructor; [reflexivity | constructor]).
  unfold connection_test, try_catch.
  unfold bind at 1. unfold pool_request at 1. rewrite Hp.
  unfold bind at 1. unfold request_query at 1. cbn [req_target req_params].
  destruct (drv_query drv (trace w) (OnPool p) [] (VStr "SELECT @@VERSION AS version"))
    as [e | r1].
  { eapply Hside; try reflexivity; try exact Hp; [apply Hone | simpl; lia |].
    right. exists e. reflexivity. }
  unfold bind at 1. unfold eval at 1.
  destruct (get (recordset r1) "0") as [row | e].
  2: { eapply Hside; try reflexivity; try exact Hp; [apply Hone | simpl; lia |].
       right. exists e. reflexivity. }
  unfold bind at 1. unfold eval at 1.
  destruct (get row "version") as [version | e].
  2: { eapply Hside; try reflexivity; try exact Hp; [apply Hone | simpl; lia |].
       right. exists e. reflexivity. }
  unfold bind at 1. unfold pool_request at 1. cbn [pool record]. rewrite Hp.
  unfold bind at 1. unfold request_query at 1. cbn [req_target req_params trace record].
  destruct (drv_query drv _ (OnPool p) [] (VStr tables_query)) as [e | r2].
  { eapply Hside; try reflexivity; try exact Hp;
      [cbn [trace record]; rewrite <- app_assoc; reflexivity
      | apply Htwo | simpl; lia |].
    right. exists e. reflexivity. }
  unfold bind at 1. unfold eval at 1.
  destruct (recordset_table_names (recordset r2)) as [names | e] eqn:Hn.
  2: { eapply Hside; try reflexivity; try exact Hp;
         [cbn [trace record]; rewrite <- app_assoc; reflexivity
         | apply Htwo | simpl; lia |].
       right. exists e. reflexivity. }
  assert (Hnames : exists l, names = VArr l).
  { unfold recordset_table_names in Hn.
    destruct (recordset r2); try discriminate.
    destruct (table_names items); inversion Hn. eexists. reflexivity. }
  destruct Hnames as [l ->].
  eapply Hside; try reflexivity; try exact Hp;
    [cbn [trace record]; rewrite <- app_assoc; reflexivity
    | apply Htwo | simpl; lia |].
  left. exists version, l. split; [reflexivity |].
  exists r1, r2. split; [reflexivity | exact Hn].
Qed.

End DiagnosticsProperties.

Lemma diagnostics_run drv env cfg w :
  get_api_diagnostics drv env cfg w =
  match pool w with
  | None => (Normal (mkResponse 200 (VObj (diagnostics_base drv env cfg w))), w)
  | Some _ =>
      match connection_test drv w with
      | (Normal tested, w') =>
          (Normal (mkResponse 200 (VObj (diagnostics_base drv env cfg w ++ tested))), w')
      | (Throw err, w') =>
          (Normal (mkResponse 500 (VObj [("error", VStr (message err))])), w')
      end
  end.
Proof.
  unfold get_api_diagnostics, try_catch. unfold bind at 1. unfold read_pool.
  destruct (pool w) as [p |]; [| reflexivity].
  unfold bind. destruct (connection_test drv w) as [[tested | err] w']; reflexivity.
Qed.

Lemma diagnostics_answer drv env cfg w :
  exists tested w',
    get_api_diagnostics drv env cfg w =
    (Normal (mkResponse 200 (VObj (diagnostics_base drv env cfg w ++ tested))), w').
Proof.
  rewrite diagnostics_run.
  destruct (pool w) as [p |] eqn:Hp.
  - destruct (connection_test_spec drv w p Hp) as [tested [w' [evs [H _]]]].
    rewrite H. exists tested, w'. reflexivity.
  - exists [], w. rewrite app_nil_r. reflexivity.
Qed.

(** X20.  The diagnostics endpoint only reads: whatever the driver does, it
    answers 200 (its outer [catch] is never entered), leaves [pool] and the
    console as they were, never closes a pool and never calls [sql.connect]
    (a failing test does not trigger a reconnect), and sends at most two
    queries, both on the existing pool; without a pool it calls nothing. *)
Theorem diagnostics_only_reads drv env cfg w :
  exists body w' evs,
    get_api_diagnostics drv env cfg w = (Normal (mkResponse 200 (VObj body)), w') /\
    trace w' = trace w ++ evs /\
    pool w' = pool w /\
    console w' = console w /\
    List.length evs <= 2 /\
    match pool w with
    | None => evs = []
    | Some p => Forall (pool_query_event p) evs
    end.
Proof.
  rewrite diagnostics_run.
  destruct (pool w) as [p |] eqn:Hp.
  - destruct (connection_test_spec drv w p Hp)
      as [tested [w' [evs [H [Ht [Hpool [Hc [Hf [Hl _]]]]]]]]].
    rewrite H. exists (diagnostics_base drv env cfg w ++ tested), w', evs.
    splits; try assumption; reflexivity.
  - exists (diagnostics_base drv env cfg w), w, []. rewrite app_nil_r.
    splits; try reflexivity; try exact Hp. simpl. lia.
Qed.

(** X21.  The diagnostics response does not reveal the database password:
    its [db_config.password] is ['********'] or [undefined], and two
    configurations that differ only in their password, both set or both
    unset, get the same response and leave the same world. *)
Theorem diagnostics_hides_password drv env cfg1 cfg2 w :
  DB_SERVER cfg1 = DB_SERVER cfg2 ->
  DB_NAME cfg1 = DB_NAME cfg2 ->
  DB_USER cfg1 = DB_USER cfg2 ->
  truthy (DB_PASSWORD cfg1) = truthy (DB_PASSWORD cfg2) ->
  get_api_diagnostics drv env cfg1 w = get_api_diagnostics drv env cfg2 w /\
  exists resp w' masked,
    get_api_diagnostics drv env cfg1 w = (Normal resp, w') /\
    body_field resp "db_config" =
    Some (VObj [("server", DB_SERVER cfg1);
                ("database", DB_NAME cfg1);
                ("user", DB_USER cfg1);
                ("password", masked)]) /\
    (masked = VStr "********" \/ masked = VUndefined).
Proof.
  intros Hs Hn Hu Hpw.
  assert (Hcfg : db_config cfg1 = db_config cfg2)
    by (unfold db_config; rewrite Hs, Hn, Hu, Hpw; reflexivity).
  split.
  - rewrite !diagnostics_run. unfold diagnostics_base. rewrite Hcfg. reflexivity.
  - destruct (diagnostics_answer drv env cfg1 w) as [tested [w' H]].
    rewrite H. do 2 eexists.
    exists (if truthy (DB_PASSWORD cfg1) then VStr "********" else VUndefined).
    splits.
    + reflexivity.
    + reflexivity.
    + destruct (truthy (DB_PASSWORD cfg1)); [left | right]; reflexivity.
Qed.

Lemma diagnostics_hides_password_witness :
  get_api_diagnostics (Scenario.db 2 false false false) Sample.production
    Scenario.secrets Sample.warm =
  get_api_diagnostics (Scenario.db 2 false false false) Sample.production
    (mkDbEnv (VStr "db.example.net") (VStr "salon") (VStr "admin") (VStr "correct horse"))
    Sample.warm /\
  exists resp w' masked,
    get_api_diagnostics (Scenario.db 2 false false false) Sample.production
      Scenario.secrets Sample.warm = (Normal resp, w') /\
    body_field resp "db_config" =
    Some (VObj [("server", DB_SERVER Scenario.secrets);
                ("database", DB_NAME Scenario.secrets);
                ("user", DB_USER Scenario.secrets);
                ("password", masked)]) /\
    (masked = VStr "********" \/ masked = VUndefined).
Proof.
  apply (diagnostics_hides_password (Scenario.db 2 false false false)
           Sample.production Scenario.secrets
           (mkDbEnv (VStr "db.example.net") (VStr "salon") (VStr "admin")
              (VStr "correct horse"))
           Sample.warm);
    reflexivity.
Defined.

(** X22.  With a pool, the diagnostics response lists the tables only when
    both queries were answered and every row could be read: then
    [connection_test.success] is [true] and [tables] holds the [TABLE_NAME] of
    each row in order.  In every other case [connection_test] is
    [{success: false, error}] with the message of what failed, also when the
    version query had succeeded, and the response has no [tables]. *)
Theorem diagnostics_tables_need_both_queries drv env cfg w p :
  pool w = Some p ->
  exists resp w' evs,
    get_api_diagnostics drv env cfg w = (Normal resp, w') /\
    trace w' = trace w ++ evs /\
    ((exists version names r1 r2,
        body_field resp "connection_test" =
        Some (VObj [("success", VBool true); ("sql_version", version)]) /\
        body_field resp "tables" = Some (VArr names) /\
        evs = [(Query (OnPool p) [] (VStr "SELECT @@VERSION AS version"), Rows r1);
               (Query (OnPool p) [] (VStr tables_query), Rows r2)] /\
        recordset_table_names (recordset r2) = Normal (VArr names))
     \/
     (exists err,
        body_field resp "connection_test" =
        Some (VObj [("success", VBool false); ("error", VStr (message err))]) /\
        body_field resp "tables" = None)).
Proof.
  intros Hp. rewrite diagnostics_run, Hp.
  destruct (connection_test_spec drv w p Hp)
    as [tested [w' [evs [H [Ht [_ [_ [_ [_ Hcases]]]]]]]]].
  rewrite H. do 2 eexists. exists evs. splits; [reflexivity | exact Ht |].
  destruct Hcases as [[version [names [-> [r1 [r2 [Hevs Hn]]]]]] | [err ->]].
  - left. exists version, names, r1, r2. splits; try assumption; reflexivity.
  - right. exists err. split; reflexivity.
Qed.

Lemma diagnostics_tables_need_both_queries_witness :
  exists resp w' evs,
    get_api_diagnostics (Scenario.db 2 false false false) Sample.production
      Scenario.secrets Sample.warm = (Normal resp, w') /\
    trace w' = trace Sample.warm ++ evs /\
    ((exists version names r1 r2,
        body_field resp "connection_test" =
        Some (VObj [("success", VBool true); ("sql_version", version)]) /\
        body_field resp "tables" = Some (VArr names) /\
        evs = [(Query (OnPool 3) [] (VStr "SELECT @@VERSION AS version"), Rows r1);
               (Query (OnPool 3) [] (VStr tables_query), Rows r2)] /\
        recordset_table_names (recordset r2) = Normal (VArr names))
     \/
     (exists err,
        body_field resp "connection_test" =
        Some (VObj [("success", VBool false); ("error", VStr (message err))]) /\
        body_field resp "tables" = None)).
Proof.
  apply (diagnostics_tables_need_both_queries (Scenario.db 2 false false false)
           Sample.production Scenario.secrets Sample.warm 3).
  reflexivity.
Defined.

(** ** The pool is never unset *)

Section PoolSurvives.

Variable drv : Driver.
Variable env : Env.

Lemma pool_survives_keep {A} (m : M A) :
  (forall w, pool (snd (m w)) = pool w) -> pool_survives m.
Proof. intros H w Hw. rewrite H. exact Hw. Qed.

Lemma pool_survives_bind {A B} (m : M A) (k : A -> M B) :
  pool_survives m -> (forall a, pool_survives (k a)) -> pool_survives (bind m k).
Proof.
  intros Hm Hk w Hw. unfold bind. specialize (Hm w Hw).
  destruct (m w) as [[a | e] w1]; simpl in *; [apply Hk; exact Hm | exact Hm].
Qed.

Lemma pool_survives_try_catch {A} (m : M A) h :
  pool_survives m -> (forall e, pool_survives (h e)) -> pool_survives (try_catch m h).
Proof.
  intros Hm Hh w Hw. unfold try_catch. specialize (Hm w Hw).
  destruct (m w) as [[a | e] w1]; simpl in *; [exact Hm | apply Hh; exact Hm].
Qed.

Lemma pool_survives_ret {A} (a : A) : pool_survives (ret a).
Proof. apply pool_survives_keep. reflexivity. Qed.

Lemma pool_survives_add_parameters r params :
  pool_survives (add_parameters drv r params).
Proof. apply pool_survives_keep. intros w. apply add_parameters_keeps. Qed.

Lemma pool_survives_call {A} (m : M A) :
  (forall w, exists c r, snd (m w) = record c r w) -> pool_survives m.
Proof.
  intros H. apply pool_survives_keep. intros w.
  destruct (H w) as [c [r Hr]]. rewrite Hr. reflexivity.
Qed.

Lemma pool_survives_request_query r text : pool_survives (request_query drv r text).
Proof.
  apply pool_survives_call. intros w. unfold request_query.
  destruct (drv_query drv (trace w) (req_target r) (req_params r) text);
    do 2 eexists; reflexivity.
Qed.

Lemma pool_survives_request_execute r proc :
  pool_survives (request_execute drv r proc).
Proof.
  apply pool_survives_call. intros w. unfold request_execute.
  destruct (drv_execute drv (trace w) (req_target r) (req_params r) proc);
    do 2 eexists; reflexivity.
Qed.

Lemma pool_survives_request_bulk r tbl : pool_survives (request_bulk drv r tbl).
Proof.
  apply pool_survives_call. intros w. unfold request_bulk.
  destruct (drv_bulk drv (trace w) (req_target r) tbl); do 2 eexists; reflexivity.
Qed.

Lemma pool_survives_pool_request : pool_survives pool_request.
Proof.
  apply pool_survives_keep. intros w. unfold pool_request.
  destruct (pool w) eqn:Hp; simpl; exact Hp.
Qed.

Lemma pool_survives_initializePool n : pool_survives (initializePool drv n).
Proof. apply attempts_pool_survives. Qed.

Lemma pool_survives_guard : pool_survives (ensure_pool_initialized drv).
Proof.
  unfold ensure_pool_initialized.
  apply pool_survives_bind; [apply pool_survives_keep; reflexivity |].
  intros [p |]; [apply pool_survives_ret |].
  apply pool_survives_bind; [apply pool_survives_initializePool |].
  intros _. apply pool_survives_ret.
Qed.

Lemma pool_survives_reconnect err : pool_survives (reconnect_if_needed drv err).
Proof.
  unfold reconnect_if_needed.
  apply pool_survives_bind; [apply pool_survives_keep; reflexivity |]. intros p.
  destruct (connection_code (code err) || no_pool p); [| apply pool_survives_ret].
  apply pool_survives_try_catch.
  - apply pool_survives_bind; [apply pool_survives_initializePool |].
    intros _. apply pool_survives_ret.
  - intros e. apply pool_survives_keep. reflexivity.
Qed.

Lemma pool_survives_request_failed ep err :
  pool_survives (request_failed drv env ep err).
Proof.
  unfold request_failed.
  apply pool_survives_bind; [apply pool_survives_keep; reflexivity |]. intros _.
  apply pool_survives_bind; [apply pool_survives_reconnect |]. intros _.
  apply pool_survives_ret.
Qed.

Lemma pool_survives_query body : pool_survives (post_api_query drv env body).
Proof.
  unfold post_api_query.
  apply pool_survives_try_catch; [| intros e; apply pool_survives_request_failed].
  destruct (negb (truthy (field body "query"))); [apply pool_survives_ret |].
  apply pool_survives_bind; [apply pool_survives_guard |]. intros _.
  apply pool_survives_bind; [apply pool_survives_pool_request |]. intros r.
  apply pool_survives_bind; [apply pool_survives_add_parameters |]. intros r'.
  apply pool_survives_bind; [apply pool_survives_request_query |]. intros res.
  apply pool_survives_ret.
Qed.

Lemma pool_survives_procedure body : pool_survives (post_api_procedure drv env body).
Proof.
  unfold post_api_procedure.
  apply pool_survives_try_catch; [| intros e; apply pool_survives_request_failed].
  destruct (negb (truthy (field body "procedure"))); [apply pool_survives_ret |].
  apply pool_survives_bind; [apply pool_survives_guard |]. intros _.
  apply pool_survives_bind; [apply pool_survives_pool_request |]. intros r.
  apply pool_survives_bind; [apply pool_survives_add_parameters |]. intros r'.
  apply pool_survives_bind; [apply pool_survives_keep; reflexivity |]. intros _.
  apply pool_survives_bind; [apply pool_survives_request_execute |]. intros res.
  apply pool_survives_ret.
Qed.

Lemma pool_survives_bulk body : pool_survives (post_api_bulk drv env body).
Proof.
  unfold post_api_bulk.
  apply pool_survives_try_catch; [| intros e; apply pool_survives_request_failed].
  destruct (negb (truthy (field body "table")) || negb (truthy (field body "data"))
            || negb (isArray (field body "data")) || empty_array (field body "data"));
    [apply pool_survives_ret |].
  apply pool_survives_bind; [apply pool_survives_keep; reflexivity |]. intros _.
  apply pool_survives_bind; [apply pool_survives_guard |]. intros _.
  apply pool_survives_bind; [apply pool_survives_keep; reflexivity |]. intros t.
  apply pool_survives_bind; [apply pool_survives_pool_request |]. intros r.
  apply pool_survives_bind; [apply pool_survives_request_bulk |]. intros res.
  apply pool_survives_ret.
Qed.

Lemma pool_survives_transaction_failed transaction err :
  pool_survives (transaction_failed drv env transaction err).
Proof.
  unfold transaction_failed.
  apply pool_survives_bind; [apply pool_survives_keep; reflexivity |]. intros _.
  apply pool_survives_bind.
  { destruct transaction as [tx |]; [| apply pool_survives_ret].
    apply pool_survives_try_catch.
    - apply pool_survives_call. intros w. unfold transaction_rollback, call_unit.
      destruct (drv_rollback drv (trace w) tx); do 2 eexists; reflexivity.
    - intros e. apply pool_survives_keep. reflexivity. }
  intros _.
  apply pool_survives_bind; [apply pool_survives_reconnect |]. intros _.
  apply pool_survives_ret.
Qed.

Lemma pool_survives_transaction body :
  pool_survives (post_api_transaction drv env body).
Proof.
  unfold post_api_transaction.
  apply pool_survives_bind.
  - apply pool_survives_try_catch.
    + unfold transaction_setup.
      destruct (negb (truthy (field body "queries"))
                || negb (isArray (field body "queries"))
                || empty_array (field body "queries")); [apply pool_survives_ret |].
      apply pool_survives_bind; [apply pool_survives_guard |]. intros _.
      apply pool_survives_bind; [apply pool_survives_keep; reflexivity |].
      intros [p |]; apply pool_survives_keep; reflexivity.
    + intros e.
      apply pool_survives_bind; [apply pool_survives_transaction_failed |].
      intros r. apply pool_survives_ret.
  - intros [resp | tx]; [apply pool_survives_ret |].
    apply pool_survives_try_catch;
      [| intros e; apply pool_survives_transaction_failed].
    apply pool_survives_keep. intros w. apply transaction_body_keeps_pool.
Qed.

End PoolSurvives.

(** X23.  Once a pool is installed the global [pool] is never unset again:
    [initializePool], the health and diagnostics endpoints and the query,
    procedure, bulk and transaction handlers may replace the pool but never
    leave the variable empty, whatever the request and whatever the driver
    does. *)
Theorem pool_is_never_unset drv env cfg body n w :
  pool w <> None ->
  pool (snd (initializePool drv n w)) <> None /\
  pool (snd (get_api_health drv env w)) <> None /\
  pool (snd (get_api_diagnostics drv env cfg w)) <> None /\
  pool (snd (post_api_query drv env body w)) <> None /\
  pool (snd (post_api_procedure drv env body w)) <> None /\
  pool (snd (post_api_bulk drv env body w)) <> None /\
  pool (snd (post_api_transaction drv env body w)) <> None.
Proof.
  intros Hw. splits.
  - apply pool_survives_initializePool. exact Hw.
  - rewrite health_state. destruct (pool w) as [p |] eqn:Hp; [| contradiction].
    destruct (drv_query drv (trace w) (OnPool p) [] (VStr "SELECT 1 AS result")).
    + apply pool_survives_initializePool. simpl. rewrite Hp. discriminate.
    + simpl. rewrite Hp. discriminate.
  - destruct (diagnostics_answer drv env cfg w) as [tested [w' H]].
    destruct (pool w) as [p |] eqn:Hp; [| contradiction].
    rewrite diagnostics_run, Hp.
    destruct (connection_test_spec drv w p Hp) as [t [w1 [evs [H1 [_ [Hp1 _]]]]]].
    rewrite H1. simpl. rewrite Hp1. discriminate.
  - apply pool_survives_query. exact Hw.
  - apply pool_survives_procedure. exact Hw.
  - apply pool_survives_bulk. exact Hw.
  - apply pool_survives_transaction. exact Hw.
Qed.

Lemma pool_is_never_unset_witness :
  pool (snd (initializePool (Sample.db true false) 2 Sample.warm)) <> None /\
  pool (snd (get_api_health (Sample.db true false) Sample.production Sample.warm))
  <> None /\
  pool (snd (get_api_diagnostics (Sample.db true false) Sample.production
               Scenario.secrets Sample.warm)) <> None /\
  pool (snd (post_api_query (Sample.db true false) Sample.production
               [("query", VStr "WAITFOR")] Sample.warm)) <> None /\
  pool (snd (post_api_procedure (Sample.db true false) Sample.production
               [("query", VStr "WAITFOR")] Sample.warm)) <> None /\
  pool (snd (post_api_bulk (Sample.db true false) Sample.production
               [("query", VStr "WAITFOR")] Sample.warm)) <> None /\
  pool (snd (post_api_transaction (Sample.db true false) Sample.production
               [("query", VStr "WAITFOR")] Sample.warm)) <> None.
Proof.
  apply (pool_is_never_unset (Sample.db true false) Sample.production
           Scenario.secrets [("query", VStr "WAITFOR")] 2 Sample.warm).
  discriminate.
Defined.
